(** * SAWE: a minimal agent workflow engine

    Shallow embedding of [engine.py] (graph store, run loop, edge
    resolution) and of the [refine_summary] tool of [tools.py].

    Python objects are modelled as follows.
    - A JSON-like value ([Any]) is a [value]: None, bool, int, str, list and
      nested object.  Floats are left out.  Strings are ASCII text.
    - A [dict] with [str] keys is a [gmap string value].  Dict objects that
      the program shares or copies ([run.state], the log snapshots, the
      caller's [initial_state]) live in a [heap], and records refer to
      them by location, so that aliasing is visible.
    - What a dict holds is held by value in the first model: it is the
      model of runs in which no list or dict bound in the state is
      changed in place, as the engine and the tools of [tools.py] do
      (they build new lists and bind them).  A second model, in the
      part on shared objects, keeps lists and dicts in the heap and
      lets a tool change them in place; the properties that depend on
      what a copy shares with its original are stated there.
    - An exception is a value of [exn]; a function that may raise returns a
      sum, and carries along the heap as it stood when the exception left.
    - [uuid4] and [str(exc)] come from the Python library; they are
      section variables. *)

From stdpp Require Import gmap strings list fin_maps pretty.

Open Scope string_scope.
Open Scope list_scope.
Open Scope nat_scope.
Set Warnings "-register-all".

(** ** Values *)

Inductive value :=
  | VNone
  | VBool (b : bool)
  | VInt (n : Z)
  | VStr (s : string)
  | VList (l : list value)
  | VDict (kvs : list (string * value)).

Abbreviation dict := (gmap string value).

(** Python truthiness, [bool(v)]. *)
Definition truthy (v : value) : bool :=
  match v with
  | VNone => false
  | VBool b => b
  | VInt n => negb (n =? 0)%Z
  | VStr s => negb (bool_decide (s = ""))
  | VList l => negb (bool_decide (length l = 0))
  | VDict kvs => negb (bool_decide (length kvs = 0))
  end.

(** [v == "end"]: only the str "end" compares equal to it. *)
Definition is_end (v : value) : bool :=
  match v with
  | VStr s => bool_decide (s = "end")
  | _ => false
  end.

(** [str(v)] as an f-string renders it, for the hashable values. *)
Definition py_str (v : value) : string :=
  match v with
  | VNone => "None"
  | VBool true => "True"
  | VBool false => "False"
  | VInt n => pretty n
  | VStr s => s
  | VList _ => "[...]"
  | VDict _ => "{...}"
  end.

(** ** Exceptions (instances of [Exception]) *)

Inductive exn :=
  | KeyError (arg : string)
  | ValueError (msg : string)
  | TypeError (msg : string)
  | AttributeError (msg : string)
  | ValidationError (msg : string)
  | OtherError (msg : string).

(** The outcome of a call: a value, or an exception on its way up. *)
Inductive result (A : Type) :=
  | Ok (a : A)
  | Err (exc : exn).
Arguments Ok {A} a.
Arguments Err {A} exc.

(** ** Dict operations on contents *)

(** [d.get(k)] for a dict with str keys: a hashable key that is not a str
    is never found, an unhashable key raises. *)
Definition dict_get (d : dict) (k : value) : result value :=
  match k with
  | VStr s => Ok (default VNone (d !! s))
  | VList _ => Err (TypeError "unhashable type: 'list'")
  | VDict _ => Err (TypeError "unhashable type: 'dict'")
  | _ => Ok VNone
  end.

(** [d[k]] for a str literal [k]. *)
Definition dict_getitem (d : dict) (k : string) : result value :=
  match d !! k with
  | Some v => Ok v
  | None => Err (KeyError k)
  end.

(** [not d] *)
Definition dict_is_empty (d : dict) : bool := bool_decide (dom d = ∅).

(** [d.update(u)] on contents: keys of [u] are overwritten or inserted. *)
Definition dict_update (d u : dict) : dict := u ∪ d.

(** ** The heap of dict objects *)

Definition loc := nat.
Abbreviation heap := (list dict).

Definition deref (h : heap) (l : loc) : dict := default ∅ (h !! l).
Definition store (h : heap) (l : loc) (d : dict) : heap := <[l := d]> h.
(** [dict(x)] / a dict display: a new object with the same bindings.
    What is bound is held by value here; [run_graph_obj] and
    [loop_body_obj] have the copy with the objects it shares. *)
Definition alloc (h : heap) (d : dict) : loc * heap := (length h, h ++ [d]).

(** ** Data model of engine.py *)

(** A tool receives the state dict object and may assign into it before
    it returns or raises: the first component is the content of that
    same object afterwards, the second the returned mapping ([None]
    allowed) or the exception.  A tool that changes a list or dict bound
    in the state in place is a [ToolFunc_obj]. *)
Definition ToolFunc := dict → dict * result (option dict).

Record Graph := {
  graph_id : string;
  nodes : list string;
  start_node : string;
  edges : gmap string dict;
}.

Record NodeLogEntry := {
  node : value;
  entry_state : loc;
}.

Record RunRecord := {
  run_id : string;
  run_graph_id : string;
  status : string;
  current_node : value;
  state : loc;
  log : list NodeLogEntry;
  error_message : option string;
}.

Definition set_current_node (run : RunRecord) (c : value) : RunRecord :=
  {| run_id := run_id run; run_graph_id := run_graph_id run;
     status := status run; current_node := c; state := state run;
     log := log run; error_message := error_message run |}.

Definition set_status (run : RunRecord) (s : string) : RunRecord :=
  {| run_id := run_id run; run_graph_id := run_graph_id run;
     status := s; current_node := current_node run; state := state run;
     log := log run; error_message := error_message run |}.

Definition set_error_message (run : RunRecord) (m : string) : RunRecord :=
  {| run_id := run_id run; run_graph_id := run_graph_id run;
     status := status run; current_node := current_node run;
     state := state run; log := log run; error_message := Some m |}.

Definition log_append (run : RunRecord) (e : NodeLogEntry) : RunRecord :=
  {| run_id := run_id run; run_graph_id := run_graph_id run;
     status := status run; current_node := current_node run;
     state := state run; log := log run ++ [e];
     error_message := error_message run |}.

(** ** ToolRegistry *)

Definition ToolRegistry_register (tools : gmap string ToolFunc)
    (name : string) (func : ToolFunc) : gmap string ToolFunc :=
  <[name := func]> tools.

Definition ToolRegistry_get (tools : gmap string ToolFunc) (name : value)
    : result ToolFunc :=
  match name with
  | VList _ => Err (TypeError "unhashable type: 'list'")
  | VDict _ => Err (TypeError "unhashable type: 'dict'")
  | VStr s =>
      match tools !! s with
      | Some f => Ok f
      | None => Err (KeyError ("Tool '" +:+ s +:+ "' is not registered"))
      end
  | _ => Err (KeyError ("Tool '" +:+ py_str name +:+ "' is not registered"))
  end.

(** ** Edge resolution *)

Definition _resolve_next_node (edge_cfg : dict) (st : dict) : result value :=
  if dict_is_empty edge_cfg then Ok VNone
  else
    let condition_key := default VNone (edge_cfg !! "condition_key") in
    match condition_key with
    | VNone => Ok (default VNone (edge_cfg !! "next"))
    | _ =>
        match dict_get st condition_key with
        | Err exc => Err exc
        | Ok v =>
            if truthy v then dict_getitem edge_cfg "on_true"
            else dict_getitem edge_cfg "on_false"
        end
    end.

(** [graph.edges.get(current, {})] *)
Definition edges_get (g : Graph) (current : value) : dict :=
  match current with
  | VStr s => default ∅ (edges g !! s)
  | _ => ∅
  end.

(** ** One iteration of the loop of [_execute_run] *)

Inductive body_result :=
  | Continue (next_node : value) (run : RunRecord) (h : heap)
  | Break (run : RunRecord) (h : heap)
  | Raise (exc : exn) (run : RunRecord) (h : heap).

Definition max_steps : nat := 1000.
Arguments max_steps : simpl never.

Definition loop_body (tools : gmap string ToolFunc) (graph : Graph)
    (current : value) (run : RunRecord) (h : heap) : body_result :=
  let run := set_current_node run current in
  match ToolRegistry_get tools current with
  | Err exc => Raise exc run h
  | Ok tool =>
      (* new_state = tool(run.state) or {} *)
      let '(touched, res) := tool (deref h (state run)) in
      let h := store h (state run) touched in
      match res with
      | Err exc => Raise exc run h
      | Ok ret =>
          let new_state := default ∅ ret in
          (* run.state.update(new_state) *)
          let h := store h (state run)
                     (dict_update (deref h (state run)) new_state) in
          (* run.log.append(NodeLogEntry(node=current, state=dict(run.state))) *)
          let '(snap, h) := alloc h (deref h (state run)) in
          let run := log_append run {| node := current; entry_state := snap |} in
          let edge_cfg := edges_get graph current in
          match _resolve_next_node edge_cfg (deref h (state run)) with
          | Err exc => Raise exc run h
          | Ok next_node =>
              if negb (truthy next_node) || is_end next_node
              then Break run h
              else Continue next_node run h
          end
      end
  end.

(** The [while] loop.  [fuel] bounds the recursion; the loop test comes
    first, so with [fuel + steps >= max_steps] the fuel is never what
    stops the loop. *)
Fixpoint while_loop (fuel : nat) (tools : gmap string ToolFunc)
    (graph : Graph) (current : value) (steps : nat) (run : RunRecord)
    (h : heap) : option exn * RunRecord * heap :=
  if truthy current && bool_decide (steps < max_steps) then
    match fuel with
    | 0 => (None, run, h)
    | S fuel =>
        match loop_body tools graph current run h with
        | Raise exc run h => (Some exc, run, h)
        | Break run h => (None, run, h)
        | Continue next_node run h =>
            while_loop fuel tools graph next_node (S steps) run h
        end
    end
  else (None, run, h).

Definition _execute_run (tools : gmap string ToolFunc) (graph : Graph)
    (run : RunRecord) (h : heap) : option exn * RunRecord * heap :=
  while_loop max_steps tools graph (VStr (start_node graph)) 0 run h.

(** ** tools.py: [refine_summary] *)

(** ASCII whitespace as [str.split()] sees it. *)
Definition is_space (c : Ascii.ascii) : bool :=
  let n := Ascii.nat_of_ascii c in
  ((9 <=? n) && (n <=? 13) || (28 <=? n) && (n <=? 32))%nat.

(** [s.split()]: the maximal runs of non-whitespace characters. *)
Fixpoint str_split (s : string) : list string :=
  match s with
  | EmptyString => []
  | String c s' =>
      let ws := str_split s' in
      if is_space c then ws
      else
        match s' with
        | EmptyString => [String c EmptyString]
        | String c' _ =>
            if is_space c' then String c EmptyString :: ws
            else
              match ws with
              | w :: ws' => String c w :: ws'
              | [] => [String c EmptyString]
              end
        end
  end.

(** [sep.join(l)] *)
Fixpoint str_join (sep : string) (l : list string) : string :=
  match l with
  | [] => ""
  | [w] => w
  | w :: l' => w +:+ sep +:+ str_join sep l'
  end.

(** [l[:n]] for an int [n]. *)
Definition slice_to {A} (l : list A) (n : Z) : list A :=
  if (0 <=? n)%Z then take (Z.to_nat n) l
  else take (Z.to_nat (Z.of_nat (length l) + n)) l.

(** The int behind a value usable as an index ([bool] is an [int]). *)
Definition as_int (v : value) : option Z :=
  match v with
  | VInt n => Some n
  | VBool b => Some (if b then 1 else 0)%Z
  | _ => None
  end.

Definition refine_summary : ToolFunc := λ state,
  let draft := default (VStr "") (state !! "draft_summary") in
  let limit := default (VInt 40) (state !! "summary_limit_words") in
  match draft with
  | VStr draft_s =>
      let words := str_split draft_s in
      match limit, as_int limit with
      | VNone, _ =>
          (* words[:None] is fine, len(words) <= None is not *)
          (state, Err (TypeError
             "'<=' not supported between instances of 'int' and 'NoneType'"))
      | _, None =>
          (state, Err (TypeError
             "slice indices must be integers or None or have an __index__ method"))
      | _, Some n =>
          let final_summary := str_join " " (slice_to words n) in
          let is_short_enough := (Z.of_nat (length words) <=? n)%Z in
          (* state["final_summary"] = ...; state["is_summary_short_enough"] = ... *)
          let state := <["final_summary" := VStr final_summary]> state in
          let state := <["is_summary_short_enough" := VBool is_short_enough]> state in
          let get k := default VNone (state !! k) in
          (state,
           Ok (Some (list_to_map
             [("text", get "text"); ("chunk_size", get "chunk_size");
              ("per_chunk_summary_words", get "per_chunk_summary_words");
              ("summary_limit_words", get "summary_limit_words");
              ("final_summary", VStr final_summary);
              ("is_summary_short_enough", VBool is_short_enough);
              ("chunks", get "chunks"); ("summaries", get "summaries");
              ("draft_summary", draft)])))
      end
  | _ => (state, Err (AttributeError "object has no attribute 'split'"))
  end.

(** ** GraphEngine *)

Record GraphEngine := {
  tool_registry : gmap string ToolFunc;
  graphs : gmap string Graph;
  runs : gmap string RunRecord;
}.

(** What the engine's methods see besides [self]: the heap of dict
    objects and the number of identifiers [uuid4] has handed out. *)
Record World := {
  w_heap : heap;
  w_uuids : nat;
}.

Section Engine.

(** [str(uuid4())] at its n-th call in this process. *)
Variable uuid4 : nat → string.
(** [str(exc)] *)
Variable str_exc : exn → string.

Definition issued (w : World) (i : string) : Prop :=
  ∃ k, k < w_uuids w ∧ uuid4 k = i.

Definition create_graph (self : GraphEngine) (w : World)
    (nodes : list string) (start_node : string) (edges : gmap string dict)
    : result string * GraphEngine * World :=
  if bool_decide (start_node ∈ nodes) then
    let graph_id := uuid4 (w_uuids w) in
    let w := {| w_heap := w_heap w; w_uuids := S (w_uuids w) |} in
    let graph := {| graph_id := graph_id; nodes := nodes;
                    start_node := start_node; edges := edges |} in
    (Ok graph_id,
     {| tool_registry := tool_registry self;
        graphs := <[graph_id := graph]> (graphs self);
        runs := runs self |},
     w)
  else (Err (ValueError "start_node must be one of the nodes"), self, w).

(** [RunRecord(run_id=..., status="running", ..., log=[])] *)
Definition new_run (run_id graph_id : string) (graph : Graph) (st : loc)
    : RunRecord :=
  {| run_id := run_id; run_graph_id := graph_id; status := "running";
     current_node := VStr (start_node graph); state := st; log := [];
     error_message := None |}.

(** The two arms of the [try] in [run_graph]. *)
Definition on_outcome (res : option exn) (run : RunRecord) : RunRecord :=
  match res with
  | None => set_current_node (set_status run "completed") VNone
  | Some exc => set_error_message (set_status run "error") (str_exc exc)
  end.

(** The record is put in [self.runs] when it is created and the loop
    then works on that same object; the store is written with the final
    record to account for this. *)
Definition run_graph (self : GraphEngine) (w : World)
    (graph_id : string) (initial_state : loc)
    : result RunRecord * GraphEngine * World :=
  match graphs self !! graph_id with
  | None => (Err (KeyError ("Graph '" +:+ graph_id +:+ "' not found")), self, w)
  | Some graph =>
      let run_id := uuid4 (w_uuids w) in
      (* state=dict(initial_state) *)
      let '(st, h) := alloc (w_heap w) (deref (w_heap w) initial_state) in
      let run := new_run run_id graph_id graph st in
      let '(res, run, h) := _execute_run (tool_registry self) graph run h in
      let run := on_outcome res run in
      (Ok run,
       {| tool_registry := tool_registry self; graphs := graphs self;
          runs := <[run_id := run]> (runs self) |},
       {| w_heap := h; w_uuids := S (w_uuids w) |})
  end.

Definition get_run (self : GraphEngine) (run_id : string) : result RunRecord :=
  match runs self !! run_id with
  | Some run => Ok run
  | None => Err (KeyError ("Run '" +:+ run_id +:+ "' not found"))
  end.

End Engine.

(** * Vocabulary of the properties *)

(** The configuration (current node, record, heap) with which the
    iteration after the first [n] ones starts, provided each of those
    [n] passed the loop test on [current] and ended by going on. *)
Fixpoint iter (n : nat) (tools : gmap string ToolFunc) (graph : Graph)
    (current : value) (run : RunRecord) (h : heap)
    : option (value * RunRecord * heap) :=
  match n with
  | 0 => Some (current, run, h)
  | S n =>
      if truthy current then
        match loop_body tools graph current run h with
        | Continue next_node run h => iter n tools graph next_node run h
        | _ => None
        end
      else None
  end.

(** What a reader of the log sees: each entry's node with the content
    of its snapshot. *)
Definition log_view (h : heap) (lg : list NodeLogEntry) : list (value * dict) :=
  (λ e, (node e, deref h (entry_state e))) <$> lg.

(** The content of [run.state] after [update], the record after
    [log.append] and the heap after the snapshot was taken. *)
Definition merged (touched : dict) (ret : option dict) : dict :=
  dict_update touched (default ∅ ret).

(** The record once the step is logged: the snapshot is the object
    allocated next, at [length h]. *)
Definition logged_run (current : value) (run : RunRecord) (h : heap) : RunRecord :=
  log_append (set_current_node run current)
    {| node := current; entry_state := length h |}.

(** The heap once the step is logged: the state object holds [m] and a
    new object holds a copy of it. *)
Definition logged_heap (run : RunRecord) (h : heap) (m : dict) : heap :=
  store h (state run) m ++ [m].

(** The state object of the run exists, and every snapshot in the log
    is an existing object other than it. *)
Definition wf (run : RunRecord) (h : heap) : Prop :=
  state run < length h ∧
  Forall (λ e, entry_state e < length h ∧ entry_state e ≠ state run) (log run).

(** The record and the heap an iteration leaves, however it ends. *)
Definition res_run (r : body_result) : RunRecord :=
  match r with Continue _ run _ | Break run _ | Raise _ run _ => run end.

Definition res_heap (r : body_result) : heap :=
  match r with Continue _ _ h | Break _ h | Raise _ _ h => h end.

(** Tools that never delete a key of the dict they are given. *)
Definition keeps_keys (tools : gmap string ToolFunc) : Prop :=
  ∀ name (tool : ToolFunc) d, tools !! name = Some tool → dom d ⊆ dom (tool d).1.

Section Steps.

Variable uuid4 : nat → string.
Variable str_exc : exn → string.

(** The record and the heap with which [_execute_run] is entered. *)
Definition run_start (w : World) (graph_id : string) (graph : Graph)
    (initial_state : loc) : RunRecord * heap :=
  (new_run (uuid4 (w_uuids w)) graph_id graph (length (w_heap w)),
   w_heap w ++ [deref (w_heap w) initial_state]).

(** What [run_graph] returns once [_execute_run] has left with [out]. *)
Definition run_result (self : GraphEngine) (w : World)
    (out : option exn * RunRecord * heap)
    : result RunRecord * GraphEngine * World :=
  let run := on_outcome str_exc out.1.1 out.1.2 in
  (Ok run,
   {| tool_registry := tool_registry self; graphs := graphs self;
      runs := <[uuid4 (w_uuids w) := run]> (runs self) |},
   {| w_heap := out.2; w_uuids := S (w_uuids w) |}).

(** In the run of graph [graph_id] from [initial_state], the iteration
    after the first [n] ones executes node [current], and starts with
    record [run] and heap [h]. *)
Definition at_step (self : GraphEngine) (w : World) (graph_id : string)
    (initial_state : loc) (graph : Graph) (n : nat) (current : value)
    (run : RunRecord) (h : heap) : Prop :=
  graphs self !! graph_id = Some graph ∧
  iter n (tool_registry self) graph (VStr (start_node graph))
    (run_start w graph_id graph initial_state).1
    (run_start w graph_id graph initial_state).2
  = Some (current, run, h) ∧
  n < max_steps ∧ truthy current = true.

End Steps.

(** * Concrete graphs, tools and worlds *)

(** Stand-ins for [uuid4] and [str(exc)] in the concrete runs below. *)
Definition uuid4_demo (n : nat) : string := "id-" +:+ pretty n.

Definition str_exc_demo (exc : exn) : string :=
  match exc with
  | KeyError arg => "'" +:+ arg +:+ "'"
  | ValueError msg | TypeError msg | AttributeError msg | ValidationError msg
  | OtherError msg => msg
  end.

(** A world whose heap holds one object, the caller's empty [initial_state]. *)
Definition world0 : World := {| w_heap := [∅]; w_uuids := 0 |}.

Definition engine_of (tools : gmap string ToolFunc) (g : Graph) : GraphEngine :=
  {| tool_registry := tools; graphs := {[graph_id g := g]}; runs := ∅ |}.

(** A tool that returns the update [u] and leaves its argument alone. *)
Definition const_tool (u : dict) : ToolFunc := λ st, (st, Ok (Some u)).

(** One node "a" with no tool registered under that name. *)
Definition graph_unregistered : Graph :=
  {| graph_id := "g"; nodes := ["a"]; start_node := "a"; edges := ∅ |}.

(** Node "X" whose tool returns [{"ready": True}], with the rule
    [Conditional{condition_key: "ready", on_true: "end", on_false: "X"}]. *)
Definition ready_update : dict := {["ready" := VBool true]}.

Definition ready_rule : dict :=
  <["condition_key" := VStr "ready"]>
    (<["on_true" := VStr "end"]> {["on_false" := VStr "X"]}).

Definition graph_ready : Graph :=
  {| graph_id := "g"; nodes := ["X"]; start_node := "X";
     edges := {["X" := ready_rule]} |}.

Definition tools_ready : gmap string ToolFunc := {["X" := const_tool ready_update]}.

(** Node "X" whose tool returns [{"ready": False}], run from a state
    in which "ready" is already true. *)
Definition unready_update : dict := {["ready" := VBool false]}.

Definition tools_unready : gmap string ToolFunc :=
  {["X" := const_tool unready_update]}.

Definition world_ready : World := {| w_heap := [ready_update]; w_uuids := 0 |}.

(** The same node with the [on_false] field left out of its rule. *)
Definition rule_without_on_false : dict :=
  <["condition_key" := VStr "ready"]> {["on_true" := VStr "end"]}.

Definition graph_without_on_false : Graph :=
  {| graph_id := "g"; nodes := ["X"]; start_node := "X";
     edges := {["X" := rule_without_on_false]} |}.

(** The rule with [on_true] left out: the branch the step selects. *)
Definition rule_without_on_true : dict :=
  <["condition_key" := VStr "ready"]> {["on_false" := VStr "X"]}.

Definition graph_without_on_true : Graph :=
  {| graph_id := "g"; nodes := ["X"]; start_node := "X";
     edges := {["X" := rule_without_on_true]} |}.

(** Node "a" with the linear rule [{"next": ""}]. *)
Definition graph_next_empty : Graph :=
  {| graph_id := "g"; nodes := ["a"]; start_node := "a";
     edges := {["a" := {["next" := VStr ""]}]} |}.

Definition tools_a : gmap string ToolFunc := {["a" := const_tool ∅]}.

(** Node "a" whose linear rule points back to "a". *)
Definition graph_self_loop : Graph :=
  {| graph_id := "g"; nodes := ["a"]; start_node := "a";
     edges := {["a" := {["next" := VStr "a"]}]} |}.

(** A state that holds a two-word draft and nothing else. *)
Definition draft_state : dict := {["draft_summary" := VStr "a b"]}.

(** ** A chain of three nodes *)

(** "n1" returns [{"a": 1}], "n2" returns [{"b": 2}], "n3" returns
    [{"a": 2}]; the edges are linear, n1 to n2 to n3. *)
Definition update_a1 : dict := {["a" := VInt 1]}.

Definition chain_updates : gmap string dict :=
  {[ "n1" := update_a1; "n2" := {["b" := VInt 2]};
     "n3" := {["a" := VInt 2]} ]}.

Definition chain_tools : gmap string ToolFunc := const_tool <$> chain_updates.

Definition graph_chain : Graph :=
  {| graph_id := "g"; nodes := ["n1"; "n2"; "n3"]; start_node := "n1";
     edges := {[ "n1" := {["next" := VStr "n2"]};
                 "n2" := {["next" := VStr "n3"]} ]} |}.

(** The configuration after the first [n] iterations of a concrete
    run, and the parts of what [run_graph] returned. *)
Definition cfg_after (n : nat) (self : GraphEngine) (w : World)
    (graph_id : string) (initial_state : loc) (graph : Graph)
    : value * RunRecord * heap :=
  default (VNone, (run_start uuid4_demo w graph_id graph initial_state).1, [])
    (iter n (tool_registry self) graph (VStr (start_node graph))
       (run_start uuid4_demo w graph_id graph initial_state).1
       (run_start uuid4_demo w graph_id graph initial_state).2).

Definition returned_run (out : result RunRecord * GraphEngine * World)
    : RunRecord :=
  match out.1.1 with
  | Ok run => run
  | Err _ => new_run "" "" graph_unregistered 0
  end.

(** The chain with no tool registered for "n2". *)
Definition broken_tools : gmap string ToolFunc :=
  const_tool <$> ({["n1" := {["a" := VInt 1]}]} : gmap string dict).

(** * The other tools of tools.py, and main.py *)

(** ** Python built-ins the tools call *)

(** [range(0, stop, step)] for a positive [step], as the [for] loop walks
    it: [i] starts at 0 and grows by [step] while it is below [stop].
    The fuel [stop] is enough, since [step] is at least 1. *)
Fixpoint range_from (fuel i stop step : nat) : list nat :=
  match fuel with
  | 0 => []
  | S fuel =>
      if bool_decide (i < stop) then i :: range_from fuel (i + step) stop step
      else []
  end.

Definition py_range (stop step : nat) : list nat := range_from stop 0 stop step.

(** Iterating over a value: the items of a list, the characters of a
    str, the keys of an object; anything else is not iterable. *)
Definition py_iter (v : value) : result (list value) :=
  match v with
  | VList l => Ok l
  | VStr s => Ok ((λ c, VStr (String c EmptyString)) <$> String.list_ascii_of_string s)
  | VDict kvs => Ok ((λ kv, VStr kv.1) <$> kvs)
  | _ => Err (TypeError "object is not iterable")
  end.

(** The items as strs, if all of them are. *)
Fixpoint as_strs (items : list value) : option (list string) :=
  match items with
  | [] => Some []
  | VStr s :: rest =>
      match as_strs rest with
      | Some ss => Some (s :: ss)
      | None => None
      end
  | _ :: _ => None
  end.

(** [sep.join(v)] *)
Definition py_join (sep : string) (v : value) : result string :=
  match py_iter v with
  | Err _ => Err (TypeError "can only join an iterable")
  | Ok items =>
      match as_strs items with
      | Some ss => Ok (str_join sep ss)
      | None => Err (TypeError "sequence item: expected str instance")
      end
  end.

Section Tools.

(** [int(s)] for a str [s]: the integer it denotes, or the [ValueError]
    for a text that is not an integer literal. *)
Variable py_int_of_str : string → result Z.

(** [int(v)] *)
Definition py_int (v : value) : result Z :=
  match v with
  | VInt n => Ok n
  | VBool b => Ok (if b then 1 else 0)%Z
  | VStr s => py_int_of_str s
  | _ => Err (TypeError
           "int() argument must be a string, a bytes-like object or a real number")
  end.

Definition _simple_chunk_text (text : value) (chunk_size : Z)
    : result (list string) :=
  match text with
  | VStr s =>
      let words := str_split s in
      if (chunk_size =? 0)%Z
      then Err (ValueError "range() arg 3 must not be zero")
      else if (chunk_size <? 0)%Z then Ok []
      else
        let k := Z.to_nat chunk_size in
        (* chunks.append(" ".join(words[i : i + chunk_size])) *)
        Ok ((λ i, str_join " " (take k (drop i words)))
              <$> py_range (length words) k)
  | _ => Err (AttributeError "object has no attribute 'split'")
  end.

Definition split_text : ToolFunc := λ state,
  let text := default (VStr "") (state !! "text") in
  match py_int (default (VInt 50) (state !! "chunk_size")) with
  | Err exc => (state, Err exc)
  | Ok chunk_size =>
      match _simple_chunk_text text chunk_size with
      | Err exc => (state, Err exc)
      | Ok chunks => (state, Ok (Some {["chunks" := VList (VStr <$> chunks)]}))
      end
  end.

(** The loop of [generate_summaries]: the first chunk that is not a str
    has no [split] and ends it. *)
Fixpoint summarize (max_words : Z) (chunks : list value) : result (list string) :=
  match chunks with
  | [] => Ok []
  | VStr chunk :: rest =>
      match summarize max_words rest with
      | Ok summaries =>
          Ok (str_join " " (slice_to (str_split chunk) max_words) :: summaries)
      | Err exc => Err exc
      end
  | _ :: _ => Err (AttributeError "object has no attribute 'split'")
  end.

Definition generate_summaries : ToolFunc := λ state,
  let chunks := default (VList []) (state !! "chunks") in
  match py_int (default (VInt 20) (state !! "per_chunk_summary_words")) with
  | Err exc => (state, Err exc)
  | Ok max_words =>
      match py_iter chunks with
      | Err exc => (state, Err exc)
      | Ok items =>
          match summarize max_words items with
          | Err exc => (state, Err exc)
          | Ok summaries =>
              (state, Ok (Some {["summaries" := VList (VStr <$> summaries)]}))
          end
      end
  end.

Definition merge_summaries : ToolFunc := λ state,
  let summaries := default (VList []) (state !! "summaries") in
  match py_join " " summaries with
  | Err exc => (state, Err exc)
  | Ok draft => (state, Ok (Some {["draft_summary" := VStr draft]}))
  end.

(** ** main.py *)

(** The registry as the four [register] calls of main.py fill it. *)
Definition tool_registry_main : gmap string ToolFunc :=
  ToolRegistry_register
    (ToolRegistry_register
       (ToolRegistry_register
          (ToolRegistry_register ∅ "split_text" split_text)
          "generate_summaries" generate_summaries)
       "merge_summaries" merge_summaries)
    "refine_summary" refine_summary.

(** [engine = GraphEngine(tool_registry=tool_registry)] *)
Definition engine_main : GraphEngine :=
  {| tool_registry := tool_registry_main; graphs := ∅; runs := ∅ |}.

End Tools.

(** What a handler answers: the response model, an [HTTPException], or
    an exception it does not catch. *)
Inductive response (A : Type) :=
  | Http200 (body : A)
  | HTTPException (status_code : nat) (detail : string)
  | Unhandled (exc : exn).
Arguments Http200 {A} body.
Arguments HTTPException {A} status_code detail.
Arguments Unhandled {A} exc.

(** The response models hold the content of the state and of the log
    snapshots as it is when the response is built. *)
Record GraphRunResponse := {
  grr_run_id : string;
  grr_final_state : dict;
  grr_log : list (value * dict);
}.

Record RunStateResponse := {
  rsr_run_id : string;
  rsr_status : string;
  rsr_current_node : option string;
  rsr_state : dict;
  rsr_log : list (value * dict);
}.

(** What pydantic (version 2) makes of a value given for a field declared
    [Optional[str]]: [None] and a str pass, anything else is a
    [ValidationError], raised by the constructor of the model. *)
Definition validate_optional_str (model field : string) (v : value)
    : result (option string) :=
  match v with
  | VNone => Ok None
  | VStr s => Ok (Some s)
  | _ => Err (ValidationError
                ("1 validation error for " +:+ model +:+ ": " +:+ field))
  end.

Section Handlers.

Variable uuid4 : nat → string.
Variable str_exc : exn → string.

(** [POST /graph/create] *)
Definition api_create_graph (engine : GraphEngine) (w : World)
    (nodes : list string) (start_node : string) (edges : gmap string dict)
    : response string * GraphEngine * World :=
  match create_graph uuid4 engine w nodes start_node edges with
  | (Ok graph_id, engine, w) => (Http200 graph_id, engine, w)
  | (Err (ValueError msg), engine, w) =>
      (HTTPException 400 (str_exc (ValueError msg)), engine, w)
  | (Err exc, engine, w) => (Unhandled exc, engine, w)
  end.

(** [POST /graph/run] *)
Definition api_run_graph (engine : GraphEngine) (w : World)
    (graph_id : string) (initial_state : loc)
    : response GraphRunResponse * GraphEngine * World :=
  match run_graph uuid4 str_exc engine w graph_id initial_state with
  | (Ok run, engine, w) =>
      (Http200 {| grr_run_id := run_id run;
                  grr_final_state := deref (w_heap w) (state run);
                  grr_log := log_view (w_heap w) (log run) |},
       engine, w)
  | (Err (KeyError arg), engine, w) =>
      (HTTPException 404 (str_exc (KeyError arg)), engine, w)
  | (Err exc, engine, w) => (Unhandled exc, engine, w)
  end.

(** [GET /graph/state/{run_id}].  The [try] covers only the call of
    [get_run]; the response model is built after it, and an exception
    of its constructor leaves the handler. *)
Definition api_get_run_state (engine : GraphEngine) (w : World)
    (rid : string) : response RunStateResponse :=
  match get_run engine rid with
  | Ok run =>
      match validate_optional_str "RunStateResponse" "current_node"
              (current_node run) with
      | Ok current =>
          Http200 {| rsr_run_id := run_id run;
                     rsr_status := status run;
                     rsr_current_node := current;
                     rsr_state := deref (w_heap w) (state run);
                     rsr_log := log_view (w_heap w) (log run) |}
      | Err exc => Unhandled exc
      end
  | Err (KeyError arg) => HTTPException 404 (str_exc (KeyError arg))
  | Err exc => Unhandled exc
  end.

End Handlers.

(** The graph of the summarization workflow, as the docstring of
    [create_graph] in main.py gives it. *)
Definition refine_rule : dict :=
  <["condition_key" := VStr "is_summary_short_enough"]>
    (<["on_true" := VStr "end"]> {["on_false" := VStr "refine_summary"]}).

Definition workflow_nodes : list string :=
  ["split_text"; "generate_summaries"; "merge_summaries"; "refine_summary"].

Definition workflow_edges : gmap string dict :=
  {[ "split_text" := {["next" := VStr "generate_summaries"]};
     "generate_summaries" := {["next" := VStr "merge_summaries"]};
     "merge_summaries" := {["next" := VStr "refine_summary"]};
     "refine_summary" := refine_rule ]}.

(** ** Words *)

(** A word is what [split()] yields: a non-empty str without whitespace. *)
Fixpoint no_space (s : string) : bool :=
  match s with
  | EmptyString => true
  | String c s' => negb (is_space c) && no_space s'
  end.

Definition is_word (w : string) : Prop := w ≠ "" ∧ no_space w = true.

(** ** The summarization workflow in terms of words *)

(** The words of a text in runs of [k], as [_simple_chunk_text] cuts them. *)
Definition chunk_words (k : nat) (ws : list string) : list (list string) :=
  (λ i, take k (drop i ws)) <$> py_range (length ws) k.

(** The words of the draft that the first three tools make of a text:
    the first [m] words of every chunk of [cs] words. *)
Definition draft_words (cs m : Z) (text : string) : list string :=
  concat ((λ p, slice_to p m) <$> chunk_words (Z.to_nat cs) (str_split text)).

(** ** Concrete inputs for the tools and the workflow *)

(** A stand-in for [int] on strs: plain runs of decimal digits. *)
Fixpoint digits_value (acc : Z) (s : string) : option Z :=
  match s with
  | EmptyString => Some acc
  | String c s' =>
      let n := Ascii.nat_of_ascii c in
      if ((48 <=? n) && (n <=? 57))%nat
      then digits_value (10 * acc + Z.of_nat (n - 48)) s'
      else None
  end.

Definition py_int_of_str_demo (s : string) : result Z :=
  match s, digits_value 0 s with
  | String _ _, Some n => Ok n
  | _, _ => Err (ValueError "invalid literal for int() with base 10")
  end.

(** A graph whose only node, and start node, is the empty string. *)
Definition graph_empty_start : Graph :=
  {| graph_id := "g"; nodes := [""]; start_node := ""; edges := ∅ |}.

(** A text of five words, to be cut into chunks of two. *)
Definition five_words_state : dict :=
  {[ "text" := VStr " one two  three four five "; "chunk_size" := VInt 2 ]}.

Definition negative_chunk_state : dict :=
  {[ "text" := VStr "one two three"; "chunk_size" := VInt (-1) ]}.

Definition two_chunks_state : dict :=
  {[ "chunks" := VList [VStr "one two three"; VStr "four"];
     "per_chunk_summary_words" := VInt 2 ]}.

Definition two_summaries_state : dict :=
  {[ "summaries" := VList [VStr "one two"; VStr "four"] ]}.

(** A draft of three words with a limit of two. *)
Definition long_draft_state : dict :=
  {[ "draft_summary" := VStr "one two three"; "summary_limit_words" := VInt 2 ]}.

(** A draft of 41 words and no limit. *)
Definition draft_41 : string := str_join " " (replicate 41 "w").

Definition no_limit_state : dict := {[ "draft_summary" := VStr draft_41 ]}.

(** One node, [refine_summary], with the rule of the workflow. *)
Definition graph_refine : Graph :=
  {| graph_id := "g"; nodes := ["refine_summary"];
     start_node := "refine_summary";
     edges := {["refine_summary" := refine_rule]} |}.

Definition tools_refine : gmap string ToolFunc :=
  {["refine_summary" := refine_summary]}.

Definition graph_workflow : Graph :=
  {| graph_id := "g"; nodes := workflow_nodes; start_node := "split_text";
     edges := workflow_edges |}.

(** The world whose one object is the given initial state. *)
Definition world_of (initial : dict) : World :=
  {| w_heap := [initial]; w_uuids := 0 |}.

Definition text_state : dict := {[ "text" := VStr "hello  brave new world" ]}.

(** Node "a" whose linear rule names a list as successor. *)
Definition graph_list_successor : Graph :=
  {| graph_id := "g"; nodes := ["a"]; start_node := "a";
     edges := {["a" := {["next" := VList [VStr "x"]]}]} |}.

(** A state whose draft is not a str. *)
Definition int_draft_state : dict := {[ "draft_summary" := VInt 3 ]}.

(** * Lists and dicts as shared objects *)

(** The model above keeps what a dict holds by value.  That is how the
    engine and the shipped tools treat it: they bind keys and never
    change a list or dict in place.  In Python a list or dict held in
    the state is an object of its own, [dict(run.state)] copies the
    bindings but not the objects bound, and a tool may change such an
    object in place.  The model of this part keeps every list and dict
    in the heap and lets a tool work on the heap. *)

(** ** Values and objects *)

Inductive rvalue :=
  | RNone
  | RBool (b : bool)
  | RInt (n : Z)
  | RStr (s : string)
  | RRef (l : loc).

Inductive object :=
  | ODict (d : gmap string rvalue)
  | OList (xs : list rvalue).

Abbreviation odict := (gmap string rvalue).
Abbreviation oheap := (list object).

(** The bindings of the dict object at [l]. *)
Definition odict_at (h : oheap) (l : loc) : odict :=
  match h !! l with
  | Some (ODict d) => d
  | _ => ∅
  end.

(** [bool(v)]: a list or dict object is truthy when it is not empty. *)
Definition truthy_at (h : oheap) (v : rvalue) : bool :=
  match v with
  | RNone => false
  | RBool b => b
  | RInt n => negb (n =? 0)%Z
  | RStr s => negb (bool_decide (s = ""))
  | RRef l =>
      match h !! l with
      | Some (ODict d) => negb (bool_decide (dom d = ∅))
      | Some (OList xs) => negb (bool_decide (length xs = 0))
      | None => false
      end
  end.

(** [d.get(k)] *)
Definition odict_get (d : odict) (k : value) : result rvalue :=
  match k with
  | VStr s => Ok (default RNone (d !! s))
  | VList _ => Err (TypeError "unhashable type: 'list'")
  | VDict _ => Err (TypeError "unhashable type: 'dict'")
  | _ => Ok RNone
  end.

(** ** The engine on shared objects *)

(** A tool receives the state dict object and the heap; it may change
    any object and create new ones, and returns the bindings of the
    mapping it hands back ([None] allowed) or raises. *)
Definition ToolFunc_obj := oheap → loc → oheap * result (option odict).

Definition ToolRegistry_get_obj (tools : gmap string ToolFunc_obj)
    (name : value) : result ToolFunc_obj :=
  match name with
  | VList _ => Err (TypeError "unhashable type: 'list'")
  | VDict _ => Err (TypeError "unhashable type: 'dict'")
  | VStr s =>
      match tools !! s with
      | Some f => Ok f
      | None => Err (KeyError ("Tool '" +:+ s +:+ "' is not registered"))
      end
  | _ => Err (KeyError ("Tool '" +:+ py_str name +:+ "' is not registered"))
  end.

Definition _resolve_next_node_obj (edge_cfg : dict) (h : oheap) (st : odict)
    : result value :=
  if dict_is_empty edge_cfg then Ok VNone
  else
    let condition_key := default VNone (edge_cfg !! "condition_key") in
    match condition_key with
    | VNone => Ok (default VNone (edge_cfg !! "next"))
    | _ =>
        match odict_get st condition_key with
        | Err exc => Err exc
        | Ok v =>
            if truthy_at h v then dict_getitem edge_cfg "on_true"
            else dict_getitem edge_cfg "on_false"
        end
    end.

(** How an iteration of the loop ends. *)
Inductive control :=
  | GoOn (next_node : value)
  | Stop
  | Fail (exc : exn).

Definition loop_body_obj (tools : gmap string ToolFunc_obj) (graph : Graph)
    (current : value) (run : RunRecord) (h : oheap)
    : control * RunRecord * oheap :=
  let run := set_current_node run current in
  match ToolRegistry_get_obj tools current with
  | Err exc => (Fail exc, run, h)
  | Ok tool =>
      (* new_state = tool(run.state) or {} *)
      let '(h, res) := tool h (state run) in
      match res with
      | Err exc => (Fail exc, run, h)
      | Ok ret =>
          let new_state := default ∅ ret in
          (* run.state.update(new_state) *)
          let h := <[state run := ODict (new_state ∪ odict_at h (state run))]> h in
          (* run.log.append(NodeLogEntry(node=current, state=dict(run.state))) *)
          let snap := length h in
          let h := h ++ [ODict (odict_at h (state run))] in
          let run := log_append run {| node := current; entry_state := snap |} in
          let edge_cfg := edges_get graph current in
          match _resolve_next_node_obj edge_cfg h (odict_at h (state run)) with
          | Err exc => (Fail exc, run, h)
          | Ok next_node =>
              if negb (truthy next_node) || is_end next_node
              then (Stop, run, h)
              else (GoOn next_node, run, h)
          end
      end
  end.

Fixpoint while_loop_obj (fuel : nat) (tools : gmap string ToolFunc_obj)
    (graph : Graph) (current : value) (steps : nat) (run : RunRecord)
    (h : oheap) : option exn * RunRecord * oheap :=
  if truthy current && bool_decide (steps < max_steps) then
    match fuel with
    | 0 => (None, run, h)
    | S fuel =>
        match loop_body_obj tools graph current run h with
        | (Fail exc, run, h) => (Some exc, run, h)
        | (Stop, run, h) => (None, run, h)
        | (GoOn next_node, run, h) =>
            while_loop_obj fuel tools graph next_node (S steps) run h
        end
    end
  else (None, run, h).

Definition _execute_run_obj (tools : gmap string ToolFunc_obj) (graph : Graph)
    (run : RunRecord) (h : oheap) : option exn * RunRecord * oheap :=
  while_loop_obj max_steps tools graph (VStr (start_node graph)) 0 run h.

Record GraphEngine_obj := {
  tool_registry_obj : gmap string ToolFunc_obj;
  graphs_obj : gmap string Graph;
  runs_obj : gmap string RunRecord;
}.

Record World_obj := {
  w_objects : oheap;
  w_uuids_obj : nat;
}.

Section EngineObj.

Variable uuid4 : nat → string.
Variable str_exc : exn → string.

Definition run_graph_obj (self : GraphEngine_obj) (w : World_obj)
    (graph_id : string) (initial_state : loc)
    : result RunRecord * GraphEngine_obj * World_obj :=
  match graphs_obj self !! graph_id with
  | None => (Err (KeyError ("Graph '" +:+ graph_id +:+ "' not found")), self, w)
  | Some graph =>
      let run_id := uuid4 (w_uuids_obj w) in
      (* state=dict(initial_state) *)
      let st := length (w_objects w) in
      let h := w_objects w ++ [ODict (odict_at (w_objects w) initial_state)] in
      let run := new_run run_id graph_id graph st in
      let '(res, run, h) := _execute_run_obj (tool_registry_obj self) graph run h in
      let run := on_outcome str_exc res run in
      (Ok run,
       {| tool_registry_obj := tool_registry_obj self;
          graphs_obj := graphs_obj self;
          runs_obj := <[run_id := run]> (runs_obj self) |},
       {| w_objects := h; w_uuids_obj := S (w_uuids_obj w) |})
  end.

(** The record and the heap with which [_execute_run] is entered. *)
Definition run_start_obj (w : World_obj) (graph_id : string) (graph : Graph)
    (initial_state : loc) : RunRecord * oheap :=
  (new_run (uuid4 (w_uuids_obj w)) graph_id graph (length (w_objects w)),
   w_objects w ++ [ODict (odict_at (w_objects w) initial_state)]).

(** What [run_graph] returns once [_execute_run] has left with [out]. *)
Definition run_result_obj (self : GraphEngine_obj) (w : World_obj)
    (out : option exn * RunRecord * oheap)
    : result RunRecord * GraphEngine_obj * World_obj :=
  let run := on_outcome str_exc out.1.1 out.1.2 in
  (Ok run,
   {| tool_registry_obj := tool_registry_obj self;
      graphs_obj := graphs_obj self;
      runs_obj := <[uuid4 (w_uuids_obj w) := run]> (runs_obj self) |},
   {| w_objects := out.2; w_uuids_obj := S (w_uuids_obj w) |}).

End EngineObj.

(** ** Vocabulary *)

(** The configuration with which the iteration after the first [n] ones
    starts, provided each of those went on. *)
Fixpoint iter_obj (n : nat) (tools : gmap string ToolFunc_obj) (graph : Graph)
    (current : value) (run : RunRecord) (h : oheap)
    : option (value * RunRecord * oheap) :=
  match n with
  | 0 => Some (current, run, h)
  | S n =>
      if truthy current then
        match loop_body_obj tools graph current run h with
        | (GoOn next_node, run, h) => iter_obj n tools graph next_node run h
        | _ => None
        end
      else None
  end.

Definition at_step_obj (uuid4 : nat → string) (self : GraphEngine_obj)
    (w : World_obj) (graph_id : string) (initial_state : loc) (graph : Graph)
    (n : nat) (current : value) (run : RunRecord) (h : oheap) : Prop :=
  graphs_obj self !! graph_id = Some graph ∧
  iter_obj n (tool_registry_obj self) graph (VStr (start_node graph))
    (run_start_obj uuid4 w graph_id graph initial_state).1
    (run_start_obj uuid4 w graph_id graph initial_state).2
  = Some (current, run, h) ∧
  n < max_steps ∧ truthy current = true.

(** Object [o] holds a reference to the object at [l]. *)
Definition holds (o : object) (l : loc) : Prop :=
  match o with
  | ODict d => ∃ k, d !! k = Some (RRef l)
  | OList xs => RRef l ∈ xs
  end.

Definition points_to (h : oheap) (a b : loc) : Prop :=
  ∃ o, h !! a = Some o ∧ holds o b.

(** [b] can be reached from [a] by following references. *)
Definition reach (h : oheap) : loc → loc → Prop := rtc (points_to h).

(** No reference dangles. *)
Definition closed (h : oheap) : Prop := ∀ a b, points_to h a b → b < length h.

Definition is_dict (h : oheap) (l : loc) : Prop := ∃ d, h !! l = Some (ODict d).

(** A tool that gets at objects only through its argument.  An object
    that exists before the call and cannot be reached from the state
    dict is left as it is, and the call links it neither into what the
    state dict reaches afterwards nor into the mapping returned.
    Objects are not removed, no reference dangles, and the state object
    stays a dict. *)
Definition tool_local (tool : ToolFunc_obj) : Prop :=
  ∀ h s h' res,
    closed h → is_dict h s → tool h s = (h', res) →
    length h ≤ length h' ∧ closed h' ∧ is_dict h' s ∧
    (∀ ret k r, res = Ok (Some ret) → ret !! k = Some (RRef r) → r < length h') ∧
    (∀ l, l < length h → ¬ reach h s l →
       h' !! l = h !! l ∧ ¬ reach h' s l ∧
       ∀ ret k r, res = Ok (Some ret) → ret !! k = Some (RRef r) →
                  ¬ reach h' r l).

Definition tools_local (tools : gmap string ToolFunc_obj) : Prop :=
  ∀ name tool, tools !! name = Some tool → tool_local tool.

(** The heap has no dangling reference, the state of the run is a dict
    object, and no snapshot in the log can be reached from it. *)
Definition wf_obj (run : RunRecord) (h : oheap) : Prop :=
  closed h ∧ is_dict h (state run) ∧
  Forall (λ e, entry_state e < length h ∧ ¬ reach h (state run) (entry_state e))
    (log run).

(** The state as merged, and the heap once the step is logged: the
    state object holds the merged bindings and a new object holds the
    same bindings. *)
Definition merged_obj (h1 : oheap) (s : loc) (ret : option odict) : odict :=
  default ∅ ret ∪ odict_at h1 s.

Definition logged_heap_obj (h1 : oheap) (s : loc) (m : odict) : oheap :=
  <[s := ODict m]> h1 ++ [ODict m].

Definition logged_run_obj (current : value) (run : RunRecord) (h1 : oheap)
    : RunRecord :=
  log_append (set_current_node run current)
    {| node := current; entry_state := length h1 |}.

(** From one configuration of a run to a later one: the log grows at
    its end, and objects that the state did not reach are as they
    were. *)
Definition extends (run : RunRecord) (h : oheap) (run' : RunRecord)
    (h' : oheap) : Prop :=
  wf_obj run' h' ∧ state run' = state run ∧ status run' = status run ∧
  error_message run' = error_message run ∧
  log run `prefix_of` log run' ∧ length h ≤ length h' ∧
  ∀ l, l < length h → ¬ reach h (state run) l →
       h' !! l = h !! l ∧ ¬ reach h' (state run) l.

(** ** Two tools that share a list *)

(** [def n1(state): return {"xs": [1]}] *)
Definition tool_new_list : ToolFunc_obj := λ h s,
  (h ++ [OList [RInt 1]], Ok (Some {["xs" := RRef (length h)]})).

(** [def n2(state): state["xs"].append(2); return {}] *)
Definition tool_append : ToolFunc_obj := λ h s,
  match odict_at h s !! "xs" with
  | None => (h, Err (KeyError "xs"))
  | Some (RRef l) =>
      match h !! l with
      | Some (OList xs) => (<[l := OList (xs ++ [RInt 2])]> h, Ok (Some ∅))
      | _ => (h, Err (AttributeError "object has no attribute 'append'"))
      end
  | Some _ => (h, Err (AttributeError "object has no attribute 'append'"))
  end.

Definition tools_shared : gmap string ToolFunc_obj :=
  {[ "n1" := tool_new_list; "n2" := tool_append ]}.

(** "n1" then "n2". *)
Definition graph_shared : Graph :=
  {| graph_id := "g"; nodes := ["n1"; "n2"]; start_node := "n1";
     edges := {[ "n1" := {["next" := VStr "n2"]} ]} |}.

Definition engine_obj_of (tools : gmap string ToolFunc_obj) (g : Graph)
    : GraphEngine_obj :=
  {| tool_registry_obj := tools; graphs_obj := {[graph_id g := g]};
     runs_obj := ∅ |}.

(** A world whose one object is the caller's empty [initial_state]. *)
Definition world_obj0 : World_obj :=
  {| w_objects := [ODict ∅]; w_uuids_obj := 0 |}.

(** A world in which the caller's [initial_state], object 0, holds a
    list, object 1, under "xs". *)
Definition world_obj_list : World_obj :=
  {| w_objects := [ODict {["xs" := RRef 1]}; OList [RInt 1]];
     w_uuids_obj := 0 |}.

(** One node, "n2". *)
Definition graph_append : Graph :=
  {| graph_id := "g"; nodes := ["n2"]; start_node := "n2"; edges := ∅ |}.

Definition cfg_after_obj (n : nat) (self : GraphEngine_obj) (w : World_obj)
    (graph_id : string) (initial_state : loc) (graph : Graph)
    : value * RunRecord * oheap :=
  default (VNone, (run_start_obj uuid4_demo w graph_id graph initial_state).1, [])
    (iter_obj n (tool_registry_obj self) graph (VStr (start_node graph))
       (run_start_obj uuid4_demo w graph_id graph initial_state).1
       (run_start_obj uuid4_demo w graph_id graph initial_state).2).

Definition returned_run_obj (out : result RunRecord * GraphEngine_obj * World_obj)
    : RunRecord :=
  match out.1.1 with
  | Ok run => run
  | Err _ => new_run "" "" graph_unregistered 0
  end.

(** * Properties *)

(** ** Heap and dict lemmas *)

Lemma deref_store_eq (h : heap) l d : l < length h → deref (store h l d) l = d.
Proof.
  intros Hl. unfold deref, store. by rewrite list_lookup_insert_eq.
Qed.

Lemma deref_store_ne (h : heap) l l' d : l ≠ l' → deref (store h l d) l' = deref h l'.
Proof.
  intros Hne. unfold deref, store. by rewrite list_lookup_insert_ne.
Qed.

Lemma length_store (h : heap) l d : length (store h l d) = length h.
Proof. apply length_insert. Qed.

Lemma store_store (h : heap) l d d' : store (store h l d) l d' = store h l d'.
Proof. apply list_insert_insert_eq. Qed.

Lemma deref_app_l (h : heap) d l : l < length h → deref (h ++ [d]) l = deref h l.
Proof. intros Hl. unfold deref. by rewrite lookup_app_l. Qed.

Lemma deref_app_new (h : heap) d : deref (h ++ [d]) (length h) = d.
Proof.
  unfold deref. rewrite lookup_app_r by lia.
  by rewrite Nat.sub_diag.
Qed.

Lemma dict_update_lookup (d u : dict) k :
  dict_update d u !! k = match u !! k with Some v => Some v | None => d !! k end.
Proof.
  unfold dict_update. rewrite lookup_union.
  destruct (u !! k), (d !! k); done.
Qed.

Lemma dict_update_dom (d u : dict) : dom d ⊆ dom (dict_update d u).
Proof. unfold dict_update. rewrite dom_union. set_solver. Qed.

Lemma dict_update_empty (d : dict) : dict_update d ∅ = d.
Proof. unfold dict_update. apply (left_id _ _). Qed.

(** ** One iteration, phase by phase *)

Lemma loop_body_lookup_fails tools graph current run h exc :
  ToolRegistry_get tools current = Err exc →
  loop_body tools graph current run h = Raise exc (set_current_node run current) h.
Proof. intros Hget. unfold loop_body. by rewrite Hget. Qed.

Lemma loop_body_tool_raises tools graph current run h tool touched exc :
  ToolRegistry_get tools current = Ok tool →
  tool (deref h (state run)) = (touched, Err exc) →
  loop_body tools graph current run h
  = Raise exc (set_current_node run current) (store h (state run) touched).
Proof.
  intros Hget Htool. unfold loop_body. rewrite Hget. simpl.
  by rewrite Htool.
Qed.

Lemma loop_body_tool_returns tools graph current run h tool touched ret :
  state run < length h →
  ToolRegistry_get tools current = Ok tool →
  tool (deref h (state run)) = (touched, Ok ret) →
  loop_body tools graph current run h
  = let m := merged touched ret in
    let run' := logged_run current run h in
    let h' := logged_heap run h m in
    match _resolve_next_node (edges_get graph current) m with
    | Err exc => Raise exc run' h'
    | Ok next_node =>
        if negb (truthy next_node) || is_end next_node
        then Break run' h' else Continue next_node run' h'
    end.
Proof.
  intros Hl Hget Htool. unfold loop_body. rewrite Hget. simpl.
  rewrite Htool. unfold alloc. simpl.
  rewrite store_store, !length_store.
  rewrite deref_store_eq by done.
  rewrite deref_store_eq by done.
  rewrite deref_app_l by (by rewrite length_store).
  rewrite deref_store_eq by done.
  reflexivity.
Qed.

(** ** The run owns its state object; snapshots are other objects *)

Lemma log_view_store (h : heap) l d lg :
  Forall (λ e, entry_state e ≠ l) lg → log_view (store h l d) lg = log_view h lg.
Proof.
  intros Hne. unfold log_view. apply Forall_fmap_ext_1.
  eapply Forall_impl; [exact Hne|]. intros e He. simpl.
  by rewrite deref_store_ne.
Qed.

Lemma log_view_grow (h : heap) d lg :
  Forall (λ e, entry_state e < length h) lg → log_view (h ++ [d]) lg = log_view h lg.
Proof.
  intros Hlt. unfold log_view. apply Forall_fmap_ext_1.
  eapply Forall_impl; [exact Hlt|]. intros e He. simpl.
  by rewrite deref_app_l.
Qed.

Lemma wf_set_current_node run h c : wf run h → wf (set_current_node run c) h.
Proof. by intros [??]. Qed.

Lemma wf_store run h d : wf run h → wf run (store h (state run) d).
Proof.
  intros [Hs Hl]. split; rewrite length_store; done.
Qed.

Lemma log_view_store_own run h d :
  wf run h → log_view (store h (state run) d) (log run) = log_view h (log run).
Proof.
  intros [_ Hl]. apply log_view_store.
  eapply Forall_impl; [exact Hl|]. by intros e [_ ?].
Qed.

Lemma wf_logged run h c m : wf run h → wf (logged_run c run h) (logged_heap run h m).
Proof.
  intros [Hs Hl]. unfold wf, logged_run, logged_heap. simpl.
  rewrite length_app, length_store. simpl. split; [lia|].
  apply Forall_app. split.
  - eapply Forall_impl; [exact Hl|]. intros e [??]. split; [lia|done].
  - apply Forall_singleton. simpl. split; lia.
Qed.

Lemma log_view_logged run h c m :
  wf run h →
  log_view (logged_heap run h m) (log (logged_run c run h))
  = log_view h (log run) ++ [(c, m)].
Proof.
  intros Hwf. pose proof Hwf as [Hs Hl].
  unfold logged_run, logged_heap. simpl.
  unfold log_view at 1. rewrite fmap_app. fold (log_view (store h (state run) m ++ [m]) (log run)).
  rewrite log_view_grow.
  - rewrite log_view_store_own by done. simpl.
    replace (length h) with (length (store h (state run) m)) by apply length_store.
    by rewrite deref_app_new.
  - eapply Forall_impl; [exact Hl|]. intros e [??]. by rewrite length_store.
Qed.

Lemma deref_logged_state run h c m :
  wf run h → deref (logged_heap run h m) (state (logged_run c run h)) = m.
Proof.
  intros [Hs _]. unfold logged_heap, logged_run. simpl.
  rewrite deref_app_l by (by rewrite length_store).
  by apply deref_store_eq.
Qed.

(** What every iteration keeps, however it ends. *)
Lemma loop_body_inv tools graph current run h :
  wf run h →
  let r := loop_body tools graph current run h in
  wf (res_run r) (res_heap r) ∧
  state (res_run r) = state run ∧
  current_node (res_run r) = current ∧
  status (res_run r) = status run ∧
  error_message (res_run r) = error_message run ∧
  log_view h (log run) `prefix_of` log_view (res_heap r) (log (res_run r)) ∧
  length (log (res_run r)) ≤ S (length (log run)) ∧
  match r with
  | Continue next_node _ _ =>
      truthy next_node = true ∧ length (log (res_run r)) = S (length (log run))
  | _ => True
  end.
Proof.
  intros Hwf. pose proof Hwf as [Hs Hl].
  destruct (ToolRegistry_get tools current) as [tool|exc] eqn:Hget.
  2:{ rewrite (loop_body_lookup_fails _ _ _ _ _ _ Hget). simpl.
      split_and!; try done; lia. }
  destruct (tool (deref h (state run))) as [touched [ret|exc]] eqn:Htool.
  2:{ rewrite (loop_body_tool_raises _ _ _ _ _ _ _ _ Hget Htool). simpl.
      split_and!; try done; try lia.
      - by apply wf_set_current_node, wf_store.
      - by rewrite log_view_store_own. }
  rewrite (loop_body_tool_returns _ _ _ _ _ _ _ _ Hs Hget Htool). simpl.
  assert (Hcommon :
    wf (logged_run current run h) (logged_heap run h (merged touched ret)) ∧
    log_view h (log run) `prefix_of`
      log_view (logged_heap run h (merged touched ret)) (log (logged_run current run h)) ∧
    length (log (logged_run current run h)) = S (length (log run))).
  { split_and!.
    - by apply wf_logged.
    - rewrite log_view_logged by done. by apply prefix_app_r.
    - simpl. rewrite length_app. simpl. lia. }
  destruct Hcommon as (H1 & H2 & H3).
  destruct (_resolve_next_node _ _) as [next_node|exc]; cbn [res_run res_heap].
  2:{ split_and!; try done; lia. }
  destruct (negb (truthy next_node) || is_end next_node) eqn:Hstop;
    cbn [res_run res_heap].
  - split_and!; try done; lia.
  - apply orb_false_iff in Hstop as [Ht _]. apply negb_false_iff in Ht.
    split_and!; try done; lia.
Qed.

(** ** The loop *)

Lemma while_loop_unfold fuel tools graph current steps run h :
  truthy current = true → steps < max_steps →
  while_loop (S fuel) tools graph current steps run h
  = match loop_body tools graph current run h with
    | Raise exc run h => (Some exc, run, h)
    | Break run h => (None, run, h)
    | Continue next_node run h =>
        while_loop fuel tools graph next_node (S steps) run h
    end.
Proof.
  intros Ht Hs. simpl. rewrite Ht. by rewrite bool_decide_eq_true_2.
Qed.

Lemma while_loop_at_cap fuel tools graph current steps run h :
  max_steps ≤ steps →
  while_loop fuel tools graph current steps run h = (None, run, h).
Proof.
  intros Hs. destruct fuel; simpl;
    rewrite bool_decide_eq_false_2 by lia; by rewrite andb_false_r.
Qed.

Lemma while_loop_inv fuel tools graph : ∀ current steps run h res run' h',
  wf run h →
  while_loop fuel tools graph current steps run h = (res, run', h') →
  wf run' h' ∧
  state run' = state run ∧
  status run' = status run ∧
  error_message run' = error_message run ∧
  log_view h (log run) `prefix_of` log_view h' (log run') ∧
  length (log run') ≤ length (log run) + (max_steps - steps) ∧
  (is_Some res → truthy (current_node run') = true).
Proof.
  induction fuel as [|fuel IH]; intros current steps run h res run' h' Hwf Hw.
  - simpl in Hw.
    assert (res = None ∧ run' = run ∧ h' = h) as (-> & -> & ->).
    { destruct (truthy current && bool_decide (steps < max_steps)); by simplify_eq. }
    split_and!; try done; try lia; try (by intros [? ?]).
  - destruct (truthy current && bool_decide (steps < max_steps)) eqn:Htest.
    2:{ simpl in Hw. rewrite Htest in Hw. simplify_eq.
        split_and!; try done; try lia; try (by intros [? ?]). }
    apply andb_true_iff in Htest as [Ht Hs]. apply bool_decide_eq_true in Hs.
    rewrite while_loop_unfold in Hw by done.
    pose proof (loop_body_inv tools graph current run h Hwf) as Hb.
    destruct (loop_body tools graph current run h) as [nxt r1 h1|r1 h1|exc r1 h1];
      cbn [res_run res_heap] in Hb;
      destruct Hb as (Hwf1 & Hst & Hcur & Hstat & Herr & Hpre & Hlen & Hcont).
    + destruct (IH _ _ _ _ _ _ _ Hwf1 Hw) as (? & ? & ? & ? & ? & ? & ?).
      split_and!; try done; try congruence; try lia.
      by etrans.
    + simplify_eq. split_and!; try done; try lia; try (by intros [? ?]).
    + simplify_eq. split_and!; try done; try lia.
Qed.

Lemma iter_inv tools graph n : ∀ current run h current' run' h',
  wf run h →
  iter n tools graph current run h = Some (current', run', h') →
  wf run' h' ∧
  state run' = state run ∧
  status run' = status run ∧
  error_message run' = error_message run ∧
  log_view h (log run) `prefix_of` log_view h' (log run') ∧
  length (log run') = length (log run) + n ∧
  (0 < n → truthy current' = true).
Proof.
  induction n as [|n IH]; intros current run h current' run' h' Hwf Hi.
  - simpl in Hi. simplify_eq. split_and!; try done; lia.
  - simpl in Hi. destruct (truthy current) eqn:Ht; [|done].
    pose proof (loop_body_inv tools graph current run h Hwf) as Hb.
    destruct (loop_body tools graph current run h) as [nxt r1 h1|r1 h1|exc r1 h1];
      try done.
    cbn [res_run res_heap] in Hb.
    destruct Hb as (Hwf1 & Hst & Hcur & Hstat & Herr & Hpre & Hlen & Hnxt & Hlen').
    destruct (IH _ _ _ _ _ _ Hwf1 Hi) as (? & ? & ? & ? & ? & ? & Htr).
    split_and!; try done; try congruence; try lia.
    + by etrans.
    + intros _. destruct n; [|apply Htr; lia].
      simpl in Hi. by simplify_eq.
Qed.

(** The loop picks up from any configuration its first iterations lead to. *)
Lemma while_loop_iter tools graph n : ∀ fuel current steps run h current' run' h',
  iter n tools graph current run h = Some (current', run', h') →
  steps + n ≤ max_steps → n ≤ fuel →
  while_loop fuel tools graph current steps run h
  = while_loop (fuel - n) tools graph current' (steps + n) run' h'.
Proof.
  induction n as [|n IH]; intros fuel current steps run h current' run' h' Hi Hs Hf.
  - simpl in Hi. simplify_eq. by rewrite Nat.sub_0_r, Nat.add_0_r.
  - simpl in Hi. destruct (truthy current) eqn:Ht; [|done].
    destruct fuel as [|fuel]; [lia|].
    rewrite while_loop_unfold by (done || lia).
    destruct (loop_body tools graph current run h) as [nxt r1 h1|r1 h1|exc r1 h1];
      try done.
    rewrite (IH fuel nxt (S steps) r1 h1 current' run' h') by (done || lia).
    f_equal. lia.
Qed.

(** A loop that ends with an exception: some iteration raised it, and
    the iterations before went on. *)
Lemma while_loop_raises fuel tools graph : ∀ current steps run h exc run' h',
  while_loop fuel tools graph current steps run h = (Some exc, run', h') →
  ∃ k current_k run_k h_k,
    iter k tools graph current run h = Some (current_k, run_k, h_k) ∧
    steps + k < max_steps ∧ truthy current_k = true ∧
    loop_body tools graph current_k run_k h_k = Raise exc run' h'.
Proof.
  induction fuel as [|fuel IH]; intros current steps run h exc run' h' Hw.
  - simpl in Hw.
    by destruct (truthy current && bool_decide (steps < max_steps)).
  - destruct (truthy current && bool_decide (steps < max_steps)) eqn:Htest.
    2:{ simpl in Hw. by rewrite Htest in Hw. }
    apply andb_true_iff in Htest as [Ht Hs]. apply bool_decide_eq_true in Hs.
    rewrite while_loop_unfold in Hw by done.
    destruct (loop_body tools graph current run h)
      as [nxt r1 h1|r1 h1|exc1 r1 h1] eqn:Hb.
    + destruct (IH _ _ _ _ _ _ _ Hw)
        as (k & ck & rk & hk & Hi & Hlt & Htk & Hbk).
      exists (S k), ck, rk, hk. split_and!; try done; try lia.
      cbn [iter]. by rewrite Ht, Hb.
    + done.
    + simplify_eq. exists 0, current, run, h.
      split_and!; try done. lia.
Qed.

(** ** Runs *)

Section Runs.

Variable uuid4 : nat → string.
Variable str_exc : exn → string.

Lemma run_graph_unfold self w graph_id initial_state graph :
  graphs self !! graph_id = Some graph →
  run_graph uuid4 str_exc self w graph_id initial_state
  = run_result uuid4 str_exc self w
      (_execute_run (tool_registry self) graph
         (run_start uuid4 w graph_id graph initial_state).1
         (run_start uuid4 w graph_id graph initial_state).2).
Proof.
  intros Hg. unfold run_graph, run_result, run_start, alloc. rewrite Hg. simpl.
  by destruct (_execute_run _ _ _ _) as [[res run] h].
Qed.

Lemma wf_run_start w graph_id graph initial_state :
  wf (run_start uuid4 w graph_id graph initial_state).1
     (run_start uuid4 w graph_id graph initial_state).2.
Proof.
  unfold wf, run_start. simpl. rewrite length_app. simpl.
  split; [lia|]. apply Forall_nil_2.
Qed.

Lemma at_step_inv self w graph_id initial_state graph n current run h :
  at_step uuid4 self w graph_id initial_state graph n current run h →
  wf run h ∧ length (log run) = n ∧ status run = "running" ∧
  error_message run = None ∧
  state run = length (w_heap w).
Proof.
  intros (Hg & Hi & Hn & Ht).
  destruct (iter_inv _ _ _ _ _ _ _ _ _ (wf_run_start _ _ _ _) Hi)
    as (? & ? & ? & ? & ? & ? & ?).
  split_and!; done.
Qed.

(** From a step of the run on, [run_graph] is that step and, if it goes
    on, the rest of the loop. *)
Lemma run_graph_at_step self w graph_id initial_state graph n current run h :
  at_step uuid4 self w graph_id initial_state graph n current run h →
  run_graph uuid4 str_exc self w graph_id initial_state
  = run_result uuid4 str_exc self w
      match loop_body (tool_registry self) graph current run h with
      | Raise exc run h => (Some exc, run, h)
      | Break run h => (None, run, h)
      | Continue next_node run h =>
          while_loop (max_steps - S n) (tool_registry self) graph next_node
            (S n) run h
      end.
Proof.
  intros (Hg & Hi & Hn & Ht).
  rewrite (run_graph_unfold _ _ _ _ _ Hg). f_equal.
  unfold _execute_run.
  rewrite (while_loop_iter _ _ _ _ _ _ _ _ _ _ _ Hi) by lia.
  simpl (0 + n).
  replace (max_steps - n) with (S (max_steps - S n)) by lia.
  by rewrite while_loop_unfold.
Qed.

(** *** Terminal status and [current_node] *)

(** C3, as the code has it.  A record returned by [run_graph] is
    terminal.  When its status is "completed", [current_node] is [None]
    and no error message is set.  When its status is "error",
    [current_node] is not cleared: some step of the run raised, and
    [current_node] is the node which that step was executing, while
    [error_message] is the text of the exception it raised. *)
Theorem run_graph_terminal_current_node self w graph_id initial_state run self' w' :
  run_graph uuid4 str_exc self w graph_id initial_state = (Ok run, self', w') →
  (status run = "completed" ∧ current_node run = VNone ∧
   error_message run = None) ∨
  (status run = "error" ∧ truthy (current_node run) = true ∧
   ∃ graph n current run0 h0 exc run1 h1,
     at_step uuid4 self w graph_id initial_state graph n current run0 h0 ∧
     loop_body (tool_registry self) graph current run0 h0 = Raise exc run1 h1 ∧
     current_node run = current ∧
     error_message run = Some (str_exc exc) ∧
     log run = log run1 ∧ state run = state run1 ∧ w_heap w' = h1).
Proof.
  intros Hrun.
  destruct (graphs self !! graph_id) as [graph|] eqn:Hg.
  2:{ unfold run_graph in Hrun. by rewrite Hg in Hrun. }
  rewrite (run_graph_unfold _ _ _ _ _ Hg) in Hrun.
  destruct (_execute_run _ _ _ _) as [[res run1] h1] eqn:Hexec.
  unfold _execute_run in Hexec.
  unfold run_result in Hrun. cbn [fst snd] in Hrun. simplify_eq.
  destruct res as [exc|]; cbn [on_outcome].
  2:{ left. pose proof (while_loop_inv _ _ _ _ _ _ _ _ _ _
                          (wf_run_start _ _ _ _) Hexec)
        as (_ & _ & _ & Herr & _).
      by split_and!. }
  right.
  destruct (while_loop_raises _ _ _ _ _ _ _ _ _ _ Hexec)
    as (k & ck & rk & hk & Hi & Hlt & Htk & Hbk).
  destruct (iter_inv _ _ _ _ _ _ _ _ _ (wf_run_start _ _ _ _) Hi) as (Hwfk & _).
  pose proof (loop_body_inv (tool_registry self) graph ck rk hk Hwfk) as Hb.
  rewrite Hbk in Hb. cbn [res_run res_heap] in Hb.
  destruct Hb as (_ & _ & Hcur & _).
  split_and!; [done|cbn; by rewrite Hcur|].
  exists graph, k, ck, rk, hk, exc, run1, h1.
  split_and!; try done; lia.
Qed.

(** *** Leaving the loop at a step *)

Lemma run_graph_step_break self w graph_id initial_state graph n current run h
    run' h' :
  at_step uuid4 self w graph_id initial_state graph n current run h →
  loop_body (tool_registry self) graph current run h = Break run' h' →
  run_graph uuid4 str_exc self w graph_id initial_state
  = run_result uuid4 str_exc self w (None, run', h').
Proof.
  intros Hat Hb. rewrite (run_graph_at_step _ _ _ _ _ _ _ _ _ Hat).
  by rewrite Hb.
Qed.

Lemma run_graph_step_raise self w graph_id initial_state graph n current run h
    exc run' h' :
  at_step uuid4 self w graph_id initial_state graph n current run h →
  loop_body (tool_registry self) graph current run h = Raise exc run' h' →
  run_graph uuid4 str_exc self w graph_id initial_state
  = run_result uuid4 str_exc self w (Some exc, run', h').
Proof.
  intros Hat Hb. rewrite (run_graph_at_step _ _ _ _ _ _ _ _ _ Hat).
  by rewrite Hb.
Qed.

Lemma dict_is_empty_lookup (d : dict) k v : d !! k = Some v → dict_is_empty d = false.
Proof.
  intros Hk. unfold dict_is_empty. apply bool_decide_eq_false_2.
  intros Hd. assert (k ∈ dom d) as Hin by (apply elem_of_dom; eauto).
  rewrite Hd in Hin. set_solver.
Qed.

Lemma edges_get_lookup graph name cfg :
  edges graph !! name = Some cfg → edges_get graph (VStr name) = cfg.
Proof. intros Hcfg. unfold edges_get. by rewrite Hcfg. Qed.

Lemma length_logged_run current run h :
  length (log (logged_run current run h)) = S (length (log run)).
Proof. simpl. rewrite length_app. simpl. lia. Qed.

(** *** A conditional rule with a branch missing *)

(** C2, as the code has it.  At a step whose node has a conditional
    rule (its [condition_key] names a state key), the rule reads only the branch
    field that the truthiness of the condition in the merged state
    selects: [on_true] when truthy, [on_false] otherwise.  If that field
    is missing, resolving the edge raises [KeyError] and the run ends
    with status "error". *)
Theorem conditional_missing_selected_branch self w graph_id initial_state graph
    n name run h (tool : ToolFunc) touched ret cfg k :
  at_step uuid4 self w graph_id initial_state graph n (VStr name) run h →
  tool_registry self !! name = Some tool →
  tool (deref h (state run)) = (touched, Ok ret) →
  edges graph !! name = Some cfg →
  cfg !! "condition_key" = Some (VStr k) →
  let flag := truthy (default VNone (merged touched ret !! k)) in
  let branch := if flag then "on_true" else "on_false" in
  cfg !! branch = None →
  ∃ run' self' w',
    run_graph uuid4 str_exc self w graph_id initial_state = (Ok run', self', w') ∧
    status run' = "error" ∧
    error_message run' = Some (str_exc (KeyError branch)) ∧
    current_node run' = VStr name.
Proof.
  intros Hat Htool Hcall Hcfg Hck flag branch Hmiss.
  destruct (at_step_inv _ _ _ _ _ _ _ _ _ Hat) as (Hwf & Hlen & _ & _ & _).
  assert (Hres : _resolve_next_node cfg (merged touched ret) = Err (KeyError branch)).
  { unfold _resolve_next_node. rewrite (dict_is_empty_lookup _ _ _ Hck).
    rewrite Hck. simpl. fold flag. unfold dict_getitem.
    subst branch. destruct flag; by rewrite Hmiss. }
  assert (Hbody : loop_body (tool_registry self) graph (VStr name) run h
    = Raise (KeyError branch) (logged_run (VStr name) run h)
        (logged_heap run h (merged touched ret))).
  { rewrite (loop_body_tool_returns _ _ _ _ _ tool touched ret).
    - cbv zeta. rewrite (edges_get_lookup _ _ _ Hcfg). by rewrite Hres.
    - apply Hwf.
    - unfold ToolRegistry_get. by rewrite Htool.
    - done. }
  rewrite (run_graph_step_raise _ _ _ _ _ _ _ _ _ _ _ _ Hat Hbody).
  eexists _, _, _. split; [reflexivity|]. by split_and!.
Qed.

(** *** A falsy successor *)

(** C10.  When the edge of the current node resolves to any falsy
    value (None, the empty string, 0, False, an empty list or object),
    the loop stops after the step and the run is returned completed:
    the outcome does not depend on which falsy value it was. *)
Theorem falsy_successor_stops self w graph_id initial_state graph n current
    run h (tool : ToolFunc) touched ret next_node :
  at_step uuid4 self w graph_id initial_state graph n current run h →
  ToolRegistry_get (tool_registry self) current = Ok tool →
  tool (deref h (state run)) = (touched, Ok ret) →
  _resolve_next_node (edges_get graph current) (merged touched ret) = Ok next_node →
  truthy next_node = false →
  run_graph uuid4 str_exc self w graph_id initial_state
  = run_result uuid4 str_exc self w
      (None, logged_run current run h, logged_heap run h (merged touched ret)) ∧
  ∃ run' self' w',
    run_graph uuid4 str_exc self w graph_id initial_state = (Ok run', self', w') ∧
    status run' = "completed" ∧ current_node run' = VNone ∧
    error_message run' = None ∧ length (log run') = S n.
Proof.
  intros Hat Hget Hcall Hres Hfalsy.
  destruct (at_step_inv _ _ _ _ _ _ _ _ _ Hat) as (Hwf & Hlen & _ & Herr & _).
  assert (Hbody : loop_body (tool_registry self) graph current run h
    = Break (logged_run current run h) (logged_heap run h (merged touched ret))).
  { rewrite (loop_body_tool_returns _ _ _ _ _ tool touched ret);
      [|apply Hwf|done|done].
    cbv zeta. rewrite Hres, Hfalsy. done. }
  rewrite (run_graph_step_break _ _ _ _ _ _ _ _ _ _ _ Hat Hbody).
  split; [done|].
  eexists _, _, _. split; [reflexivity|]. simpl.
  split_and!; try done.
  rewrite length_app. simpl. lia.
Qed.

(** The sentinel "end" leaves the loop the same way. *)
Lemma end_successor_stops self w graph_id initial_state graph n current
    run h (tool : ToolFunc) touched ret :
  at_step uuid4 self w graph_id initial_state graph n current run h →
  ToolRegistry_get (tool_registry self) current = Ok tool →
  tool (deref h (state run)) = (touched, Ok ret) →
  _resolve_next_node (edges_get graph current) (merged touched ret)
  = Ok (VStr "end") →
  run_graph uuid4 str_exc self w graph_id initial_state
  = run_result uuid4 str_exc self w
      (None, logged_run current run h, logged_heap run h (merged touched ret)).
Proof.
  intros Hat Hget Hcall Hres.
  destruct (at_step_inv _ _ _ _ _ _ _ _ _ Hat) as (Hwf & _).
  apply (run_graph_step_break _ _ _ _ _ _ _ _ _ _ _ Hat).
  rewrite (loop_body_tool_returns _ _ _ _ _ tool touched ret);
    [|apply Hwf|done|done].
  cbv zeta. by rewrite Hres.
Qed.

(** *** The step cap *)

(** C4.  Every run logs at most [max_steps] = 1000 node executions.  If
    each of the first 1000 iterations succeeds and resolves a successor
    on which the loop goes on (as with a node whose linear rule points
    back to itself), the loop is left at the cap without an error: the
    run is returned completed with exactly 1000 log entries. *)
Theorem step_cap self w graph_id initial_state graph :
  graphs self !! graph_id = Some graph →
  ∃ run self' w',
    run_graph uuid4 str_exc self w graph_id initial_state = (Ok run, self', w') ∧
    length (log run) ≤ max_steps ∧
    (is_Some (iter max_steps (tool_registry self) graph (VStr (start_node graph))
                (run_start uuid4 w graph_id graph initial_state).1
                (run_start uuid4 w graph_id graph initial_state).2) →
     status run = "completed" ∧ current_node run = VNone ∧
     error_message run = None ∧ length (log run) = max_steps).
Proof.
  intros Hg. rewrite (run_graph_unfold _ _ _ _ _ Hg).
  destruct (_execute_run _ _ _ _) as [[res run1] h1] eqn:Hexec.
  eexists _, _, _. split; [reflexivity|].
  unfold _execute_run in Hexec.
  pose proof (while_loop_inv _ _ _ _ _ _ _ _ _ _ (wf_run_start _ _ _ _) Hexec)
    as (_ & _ & _ & _ & _ & Hlen & _).
  assert (Hlog : ∀ res, log (on_outcome str_exc res run1) = log run1)
    by (by intros [?|]).
  assert (Hnil : length (log (run_start uuid4 w graph_id graph initial_state).1) = 0)
    by done.
  split.
  { rewrite Hlog. lia. }
  intros [[[c r] h] Hi].
  rewrite (while_loop_iter _ _ _ _ _ _ _ _ _ _ _ Hi) in Hexec by lia.
  rewrite while_loop_at_cap in Hexec by lia. simplify_eq.
  destruct (iter_inv _ _ _ _ _ _ _ _ _ (wf_run_start _ _ _ _) Hi)
    as (_ & _ & _ & Herr & _ & Hlen' & _).
  by split_and!.
Qed.

(** *** Graph creation *)

(** C6.  [uuid4] never hands out the same identifier twice.  Then
    [create_graph] with a [start_node] that is not among [nodes] raises
    [ValueError] and leaves the engine and its graph store as they
    were; otherwise it stores the graph under an identifier that was
    not issued before (and so is not yet a key of a graph store filled
    by [create_graph]), and returns that identifier. *)
Theorem create_graph_validates self w nodes start_node edges :
  Inj (=) (=) uuid4 →
  (start_node ∉ nodes →
   create_graph uuid4 self w nodes start_node edges
   = (Err (ValueError "start_node must be one of the nodes"), self, w)) ∧
  (start_node ∈ nodes →
   ∃ gid self' w',
     create_graph uuid4 self w nodes start_node edges = (Ok gid, self', w') ∧
     graphs self'
     = <[gid := {| graph_id := gid; nodes := nodes; start_node := start_node;
                   edges := edges |}]> (graphs self) ∧
     ¬ issued uuid4 w gid ∧ issued uuid4 w' gid ∧
     (∀ i, issued uuid4 w i → issued uuid4 w' i) ∧
     ((∀ i, i ∈ dom (graphs self) → issued uuid4 w i) →
      graphs self !! gid = None)).
Proof.
  intros Hinj. unfold create_graph. split; intros Hin.
  - by rewrite bool_decide_eq_false_2.
  - rewrite bool_decide_eq_true_2 by done.
    assert (Hfresh : ¬ issued uuid4 w (uuid4 (w_uuids w))).
    { intros (k & Hk & Heq). apply Hinj in Heq. lia. }
    eexists _, _, _. split; [reflexivity|]. simpl.
    split_and!; [done|done| | |].
    + exists (w_uuids w). split; [simpl; lia|done].
    + intros i (k & Hk & Heq). exists k. split; [simpl; lia|done].
    + intros Hdom. apply not_elem_of_dom. intros Hd. by apply Hfresh, Hdom.
Qed.

(** *** Keys of the state along a run *)

Lemma ToolRegistry_get_Ok tools current (tool : ToolFunc) :
  ToolRegistry_get tools current = Ok tool →
  ∃ name, current = VStr name ∧ tools !! name = Some tool.
Proof.
  unfold ToolRegistry_get. intros Hget.
  destruct current as [|b|z|s|l|kvs]; try done.
  exists s. split; [done|].
  destruct (tools !! s) as [f|]; [|done]. by simplify_eq.
Qed.

Lemma loop_body_after_merge tools graph current run h (tool : ToolFunc) touched ret :
  wf run h →
  ToolRegistry_get tools current = Ok tool →
  tool (deref h (state run)) = (touched, Ok ret) →
  let r := loop_body tools graph current run h in
  res_run r = logged_run current run h ∧
  res_heap r = logged_heap run h (merged touched ret) ∧
  deref (res_heap r) (state (res_run r)) = merged touched ret ∧
  log_view (res_heap r) (log (res_run r))
  = log_view h (log run) ++ [(current, merged touched ret)].
Proof.
  intros Hwf Hget Hcall r.
  assert (Hr : res_run r = logged_run current run h ∧
               res_heap r = logged_heap run h (merged touched ret)).
  { subst r. rewrite (loop_body_tool_returns _ _ _ _ _ _ _ _ (proj1 Hwf) Hget Hcall).
    cbv zeta. destruct (_resolve_next_node _ _) as [nxt|exc]; [|done].
    by destruct (negb (truthy nxt) || is_end nxt). }
  destruct Hr as [-> ->]. split_and!; [done|done| |].
  - by apply deref_logged_state.
  - by apply log_view_logged.
Qed.

Lemma loop_body_dom tools graph current run h :
  wf run h → keeps_keys tools →
  let r := loop_body tools graph current run h in
  dom (deref h (state run)) ⊆ dom (deref (res_heap r) (state (res_run r))).
Proof.
  intros Hwf Hkeep r. pose proof Hwf as [Hs _].
  destruct (ToolRegistry_get tools current) as [tool|exc] eqn:Hget.
  2:{ subst r. by rewrite (loop_body_lookup_fails _ _ _ _ _ _ Hget). }
  destruct (ToolRegistry_get_Ok _ _ _ Hget) as (name & -> & Hname).
  pose proof (Hkeep name tool (deref h (state run)) Hname) as Hsub.
  destruct (tool (deref h (state run))) as [touched [ret|exc]] eqn:Hcall.
  - destruct (loop_body_after_merge _ graph _ _ _ _ _ _ Hwf Hget Hcall)
      as (_ & _ & Hafter & _).
    subst r. rewrite Hafter.
    etrans; [exact Hsub|]. apply dict_update_dom.
  - subst r. rewrite (loop_body_tool_raises _ _ _ _ _ _ _ _ Hget Hcall).
    simpl. by rewrite deref_store_eq.
Qed.

Lemma while_loop_dom fuel tools graph : ∀ current steps run h res run' h',
  wf run h → keeps_keys tools →
  while_loop fuel tools graph current steps run h = (res, run', h') →
  dom (deref h (state run)) ⊆ dom (deref h' (state run')).
Proof.
  induction fuel as [|fuel IH]; intros current steps run h res run' h' Hwf Hk Hw.
  - simpl in Hw.
    destruct (truthy current && bool_decide (steps < max_steps)); by simplify_eq.
  - destruct (truthy current && bool_decide (steps < max_steps)) eqn:Htest.
    2:{ simpl in Hw. rewrite Htest in Hw. by simplify_eq. }
    apply andb_true_iff in Htest as [Ht Hs]. apply bool_decide_eq_true in Hs.
    rewrite while_loop_unfold in Hw by done.
    pose proof (loop_body_inv tools graph current run h Hwf) as (Hwf1 & _).
    pose proof (loop_body_dom tools graph current run h Hwf Hk) as Hd.
    destruct (loop_body tools graph current run h) as [nxt r1 h1|r1 h1|exc r1 h1];
      cbn [res_run res_heap] in *.
    + etrans; [exact Hd|]. by eapply IH.
    + by simplify_eq.
    + by simplify_eq.
Qed.

Lemma iter_dom tools graph n : ∀ current run h current' run' h',
  wf run h → keeps_keys tools →
  iter n tools graph current run h = Some (current', run', h') →
  dom (deref h (state run)) ⊆ dom (deref h' (state run')).
Proof.
  induction n as [|n IH]; intros current run h current' run' h' Hwf Hk Hi.
  - simpl in Hi. by simplify_eq.
  - simpl in Hi. destruct (truthy current); [|done].
    pose proof (loop_body_inv tools graph current run h Hwf) as (Hwf1 & _).
    pose proof (loop_body_dom tools graph current run h Hwf Hk) as Hd.
    destruct (loop_body tools graph current run h) as [nxt r1 h1|r1 h1|exc r1 h1];
      try done.
    cbn [res_run res_heap] in *.
    etrans; [exact Hd|]. by eapply IH.
Qed.

Lemma iter_add tools graph a b : ∀ current run h,
  iter (a + b) tools graph current run h
  = match iter a tools graph current run h with
    | Some (current', run', h') => iter b tools graph current' run' h'
    | None => None
    end.
Proof.
  induction a as [|a IH]; intros current run h; [done|].
  simpl. destruct (truthy current); [|done].
  destruct (loop_body tools graph current run h); by try apply IH.
Qed.

Lemma at_step_later self w graph_id initial_state graph n current run h
    m current' run' h' :
  at_step uuid4 self w graph_id initial_state graph n current run h →
  at_step uuid4 self w graph_id initial_state graph m current' run' h' →
  n ≤ m →
  iter (m - n) (tool_registry self) graph current run h
  = Some (current', run', h').
Proof.
  intros (_ & Hn & _ & _) (_ & Hm & _ & _) Hle.
  replace m with (n + (m - n)) in Hm by lia.
  rewrite iter_add, Hn in Hm. exact Hm.
Qed.

Lemma run_graph_from_step self w graph_id initial_state graph n current run h :
  at_step uuid4 self w graph_id initial_state graph n current run h →
  run_graph uuid4 str_exc self w graph_id initial_state
  = run_result uuid4 str_exc self w
      (while_loop (max_steps - n) (tool_registry self) graph current n run h).
Proof.
  intros (Hg & Hi & Hn & Ht).
  rewrite (run_graph_unfold _ _ _ _ _ Hg). f_equal.
  unfold _execute_run.
  by rewrite (while_loop_iter _ _ _ _ _ _ _ _ _ _ _ Hi) by lia.
Qed.

Lemma on_outcome_log res run : log (on_outcome str_exc res run) = log run.
Proof. by destruct res. Qed.

Lemma on_outcome_state res run : state (on_outcome str_exc res run) = state run.
Proof. by destruct res. Qed.

(** C5.  At every step, the merge writes the keys of the update into
    the state object and leaves each other key with the value it had
    when the tool returned; no key is dropped by it.  With tools that
    do not delete keys of the dict they are given, a key held by the
    state at some step is held by it at every later step and in the
    state of the record that [run_graph] returns. *)
Theorem merge_keeps_keys self w graph_id initial_state graph n current run h :
  at_step uuid4 self w graph_id initial_state graph n current run h →
  (∀ (tool : ToolFunc) touched ret,
     ToolRegistry_get (tool_registry self) current = Ok tool →
     tool (deref h (state run)) = (touched, Ok ret) →
     let r := loop_body (tool_registry self) graph current run h in
     let after := deref (res_heap r) (state (res_run r)) in
     (∀ k v, default ∅ ret !! k = Some v → after !! k = Some v) ∧
     (∀ k, default ∅ ret !! k = None → after !! k = touched !! k) ∧
     dom touched ⊆ dom after) ∧
  (keeps_keys (tool_registry self) →
   (∀ m current' run' h',
      n ≤ m →
      at_step uuid4 self w graph_id initial_state graph m current' run' h' →
      dom (deref h (state run)) ⊆ dom (deref h' (state run'))) ∧
   (∀ run' self' w',
      run_graph uuid4 str_exc self w graph_id initial_state = (Ok run', self', w') →
      dom (deref h (state run)) ⊆ dom (deref (w_heap w') (state run')))).
Proof.
  intros Hat.
  destruct (at_step_inv _ _ _ _ _ _ _ _ _ Hat) as (Hwf & _).
  split.
  - intros tool touched ret Hget Hcall r after.
    destruct (loop_body_after_merge _ graph _ _ _ _ _ _ Hwf Hget Hcall)
      as (_ & _ & Hafter & _).
    subst after r. rewrite Hafter. unfold merged. split_and!.
    + intros k v Hk. by rewrite dict_update_lookup, Hk.
    + intros k Hk. by rewrite dict_update_lookup, Hk.
    + apply dict_update_dom.
  - intros Hkeep. split.
    + intros m current' run' h' Hle Hat'.
      pose proof (at_step_later _ _ _ _ _ _ _ _ _ _ _ _ _ Hat Hat' Hle) as Hi.
      by eapply iter_dom.
    + intros run' self' w' Hrun.
      rewrite (run_graph_from_step _ _ _ _ _ _ _ _ _ Hat) in Hrun.
      destruct (while_loop _ _ _ _ _ _ _) as [[res run1] h1] eqn:Hw.
      unfold run_result in Hrun. cbn [fst snd] in Hrun. simplify_eq.
      cbn [w_heap]. rewrite on_outcome_state.
      by eapply while_loop_dom.
Qed.

(** *** Failures *)


End Runs.

(** ** Concrete runs *)

Example str_split_runs : str_split "  a bc  d " = ["a"; "bc"; "d"].
Proof. reflexivity. Qed.

Example slice_to_bounds :
  slice_to [1; 2; 3] (-1) = [1; 2] ∧ slice_to [1; 2; 3] 5 = [1; 2; 3] ∧
  slice_to [1; 2; 3] (-7) = [].
Proof. by split_and!. Qed.

Example resolve_conditional_empty_target :
  _resolve_next_node
    (<["condition_key" := VStr "ready"]>
       (<["on_true" := VStr ""]> {["on_false" := VStr "X"]}))
    ready_update
  = Ok (VStr "").
Proof. vm_compute. reflexivity. Qed.

Example refine_summary_returns :
  match (refine_summary draft_state).2 with
  | Ok (Some m) =>
      m !! "text" = Some VNone ∧ m !! "final_summary" = Some (VStr "a b") ∧
      m !! "draft_summary" = Some (VStr "a b") ∧ size m = 9
  | _ => False
  end.
Proof. vm_compute. by split_and!. Qed.

Lemma run_graph_error_keeps_current_node :
  ∃ run self' w',
    run_graph uuid4_demo str_exc_demo (engine_of ∅ graph_unregistered) world0 "g" 0
    = (Ok run, self', w') ∧
    status run = "error" ∧ current_node run = VStr "a" ∧
    current_node run ≠ VNone.
Proof.
  eexists _, _, _. split; [vm_compute; reflexivity|].
  by split_and!.
Qed.

Lemma run_graph_terminal_current_node_witness :
  let out := run_graph uuid4_demo str_exc_demo
               (engine_of broken_tools graph_chain) world0 "g" 0 in
  out = (Ok (returned_run out), out.1.2, out.2) ∧
  status (returned_run out) = "error" ∧
  current_node (returned_run out) = VStr "n2" ∧
  ((status (returned_run out) = "completed" ∧
    current_node (returned_run out) = VNone ∧
    error_message (returned_run out) = None) ∨
   (status (returned_run out) = "error" ∧
    truthy (current_node (returned_run out)) = true ∧
    ∃ graph n current run0 h0 exc run1 h1,
      at_step uuid4_demo (engine_of broken_tools graph_chain) world0 "g" 0
        graph n current run0 h0 ∧
      loop_body broken_tools graph current run0 h0 = Raise exc run1 h1 ∧
      current_node (returned_run out) = current ∧
      error_message (returned_run out) = Some (str_exc_demo exc) ∧
      log (returned_run out) = log run1 ∧
      state (returned_run out) = state run1 ∧ w_heap out.2 = h1)).
Proof.
  intros out.
  assert (Hout : out = (Ok (returned_run out), out.1.2, out.2))
    by (vm_compute; reflexivity).
  split; [exact Hout|].
  split; [vm_compute; reflexivity|].
  split; [vm_compute; reflexivity|].
  exact (run_graph_terminal_current_node uuid4_demo str_exc_demo
           (engine_of broken_tools graph_chain) world0 "g" 0 _ _ _ Hout).
Defined.

Lemma at_step_first self w graph_id initial_state graph :
  graphs self !! graph_id = Some graph →
  truthy (VStr (start_node graph)) = true →
  at_step uuid4_demo self w graph_id initial_state graph 0
    (VStr (start_node graph))
    (run_start uuid4_demo w graph_id graph initial_state).1
    (run_start uuid4_demo w graph_id graph initial_state).2.
Proof.
  intros Hg Ht. split_and!; [done|done| |done].
  unfold max_steps. lia.
Qed.

Lemma conditional_missing_unselected_branch_completes :
  rule_without_on_false !! "condition_key" = Some (VStr "ready") ∧
  rule_without_on_false !! "on_false" = None ∧
  ∃ run self' w',
    run_graph uuid4_demo str_exc_demo
      (engine_of tools_ready graph_without_on_false) world0 "g" 0
    = (Ok run, self', w') ∧
    status run = "completed" ∧ status run ≠ "error".
Proof.
  split_and!; [reflexivity|reflexivity|].
  eexists _, _, _. split; [vm_compute; reflexivity|].
  by split_and!.
Qed.

Lemma conditional_missing_selected_branch_witness :
  ∃ run' self' w',
    run_graph uuid4_demo str_exc_demo
      (engine_of tools_ready graph_without_on_true) world0 "g" 0
    = (Ok run', self', w') ∧
    status run' = "error" ∧ error_message run' = Some "'on_true'".
Proof.
  destruct (conditional_missing_selected_branch uuid4_demo str_exc_demo
              (engine_of tools_ready graph_without_on_true) world0 "g" 0
              graph_without_on_true 0 "X" _ _ (const_tool ready_update) ∅
              (Some ready_update) rule_without_on_true "ready"
              (at_step_first (engine_of tools_ready graph_without_on_true)
                 world0 "g" 0 graph_without_on_true eq_refl eq_refl)
              eq_refl eq_refl eq_refl eq_refl eq_refl)
    as (run' & self' & w' & Hrun & Hst & Hmsg & _).
  by exists run', self', w'.
Defined.

Lemma falsy_successor_stops_witness :
  _resolve_next_node (edges_get graph_next_empty (VStr "a")) ∅ = Ok (VStr "") ∧
  ∃ run' self' w',
    run_graph uuid4_demo str_exc_demo (engine_of tools_a graph_next_empty)
      world0 "g" 0 = (Ok run', self', w') ∧
    status run' = "completed" ∧ length (log run') = 1.
Proof.
  split; [reflexivity|].
  destruct (falsy_successor_stops uuid4_demo str_exc_demo
              (engine_of tools_a graph_next_empty) world0 "g" 0
              graph_next_empty 0 (VStr "a") _ _ (const_tool ∅) ∅ (Some ∅) (VStr "")
              (at_step_first (engine_of tools_a graph_next_empty) world0 "g" 0
                 graph_next_empty eq_refl eq_refl)
              eq_refl eq_refl eq_refl eq_refl)
    as (_ & run' & self' & w' & Hrun & Hst & _ & _ & Hlen).
  by exists run', self', w'.
Defined.

Lemma self_loop_resolves (m : dict) :
  _resolve_next_node (edges_get graph_self_loop (VStr "a")) m = Ok (VStr "a").
Proof. vm_compute. reflexivity. Qed.

Lemma self_loop_goes_on n : ∀ run h,
  wf run h → is_Some (iter n tools_a graph_self_loop (VStr "a") run h).
Proof.
  induction n as [|n IH]; intros run h Hwf; [by eexists|].
  cbn [iter]. change (truthy (VStr "a")) with true. cbv iota.
  rewrite (loop_body_tool_returns tools_a graph_self_loop (VStr "a") run h
             (const_tool ∅) (deref h (state run)) (Some ∅));
    [|apply Hwf|reflexivity|reflexivity].
  cbv zeta. rewrite self_loop_resolves.
  change (negb (truthy (VStr "a")) || is_end (VStr "a")) with false. cbv iota.
  apply IH. by apply wf_logged.
Qed.

Lemma step_cap_witness :
  ∃ run self' w',
    run_graph uuid4_demo str_exc_demo (engine_of tools_a graph_self_loop)
      world0 "g" 0 = (Ok run, self', w') ∧
    status run = "completed" ∧ length (log run) = 1000.
Proof.
  destruct (step_cap uuid4_demo str_exc_demo (engine_of tools_a graph_self_loop)
              world0 "g" 0 graph_self_loop eq_refl)
    as (run & self' & w' & Hrun & _ & Hcap).
  destruct (Hcap (self_loop_goes_on max_steps _ _ (wf_run_start _ _ _ _ _)))
    as (Hst & _ & _ & Hlen).
  exists run, self', w'. exact (conj Hrun (conj Hst Hlen)).
Defined.

Lemma uuid4_demo_inj : Inj (=) (=) uuid4_demo.
Proof.
  intros a b Hab. unfold uuid4_demo in Hab.
  apply (inj (String.append "id-")) in Hab. by apply (inj pretty) in Hab.
Qed.

Lemma create_graph_validates_witness :
  create_graph uuid4_demo (engine_of ∅ graph_unregistered) world0
    ["a"; "b"] "c" ∅
  = (Err (ValueError "start_node must be one of the nodes"),
     engine_of ∅ graph_unregistered, world0) ∧
  ∃ gid self' w',
    create_graph uuid4_demo (engine_of ∅ graph_unregistered) world0
      ["a"; "b"] "b" ∅ = (Ok gid, self', w') ∧
    ¬ issued uuid4_demo world0 gid.
Proof.
  destruct (create_graph_validates uuid4_demo (engine_of ∅ graph_unregistered)
              world0 ["a"; "b"] "c" ∅ uuid4_demo_inj) as [Hbad _].
  destruct (create_graph_validates uuid4_demo (engine_of ∅ graph_unregistered)
              world0 ["a"; "b"] "b" ∅ uuid4_demo_inj) as [_ Hgood].
  split.
  - apply Hbad. apply (bool_decide_unpack _). vm_compute. exact I.
  - destruct Hgood as (gid & self' & w' & Hc & _ & Hfresh & _).
    + apply (bool_decide_unpack _). vm_compute. exact I.
    + exists gid, self', w'. exact (conj Hc Hfresh).
Defined.

(** ** [refine_summary] and its argument *)

(** C8.  [refine_summary], called on a state that holds only a draft
    summary, assigns [final_summary] and [is_summary_short_enough] into
    the dict it was given before it returns. *)
Theorem refine_summary_mutates_input :
  draft_state !! "final_summary" = None ∧
  draft_state !! "is_summary_short_enough" = None ∧
  (refine_summary draft_state).1 !! "final_summary" = Some (VStr "a b") ∧
  (refine_summary draft_state).1 !! "is_summary_short_enough"
  = Some (VBool true) ∧
  (refine_summary draft_state).1 ≠ draft_state.
Proof.
  split_and!; try (vm_compute; reflexivity).
  intros Heq.
  assert (Hl : (refine_summary draft_state).1 !! "final_summary"
               = draft_state !! "final_summary") by (by rewrite Heq).
  vm_compute in Hl. discriminate.
Qed.

Lemma keeps_keys_const (updates : gmap string dict) :
  keeps_keys (const_tool <$> updates).
Proof.
  intros name tool d Hname. rewrite lookup_fmap in Hname.
  destruct (updates !! name) as [u|]; [|done].
  simpl in Hname. by simplify_eq.
Qed.

Lemma at_step_computed self w graph_id initial_state graph n :
  graphs self !! graph_id = Some graph →
  iter n (tool_registry self) graph (VStr (start_node graph))
    (run_start uuid4_demo w graph_id graph initial_state).1
    (run_start uuid4_demo w graph_id graph initial_state).2
  = Some (cfg_after n self w graph_id initial_state graph) →
  n < max_steps →
  truthy (cfg_after n self w graph_id initial_state graph).1.1 = true →
  at_step uuid4_demo self w graph_id initial_state graph n
    (cfg_after n self w graph_id initial_state graph).1.1
    (cfg_after n self w graph_id initial_state graph).1.2
    (cfg_after n self w graph_id initial_state graph).2.
Proof.
  intros Hg Hi Hn Ht. split_and!; try done.
  by destruct (cfg_after n self w graph_id initial_state graph) as [[c r] h].
Qed.

Lemma one_lt_max_steps : 1 < max_steps.
Proof. unfold max_steps. lia. Qed.

Lemma merge_keeps_keys_witness :
  let out := run_graph uuid4_demo str_exc_demo
               (engine_of chain_tools graph_chain) world0 "g" 0 in
  out = (Ok (returned_run out), out.1.2, out.2) ∧
  "a" ∈ dom (deref (w_heap out.2) (state (returned_run out))).
Proof.
  intros out.
  assert (Hout : out = (Ok (returned_run out), out.1.2, out.2))
    by (vm_compute; reflexivity).
  split; [exact Hout|].
  destruct (merge_keeps_keys uuid4_demo str_exc_demo
              (engine_of chain_tools graph_chain) world0 "g" 0 graph_chain
              1 _ _ _
              (at_step_computed (engine_of chain_tools graph_chain) world0 "g" 0
                 graph_chain 1 eq_refl ltac:(vm_compute; reflexivity)
                 one_lt_max_steps ltac:(vm_compute; reflexivity)))
    as [_ Hkeep].
  destruct (Hkeep (keeps_keys_const chain_updates)) as [_ Hfinal].
  apply (Hfinal _ _ _ Hout).
  apply (bool_decide_unpack _). vm_compute. exact I.
Defined.



(** * Further properties of the engine *)

(** ** What an iteration leaves alone *)

Lemma loop_body_frame tools graph current run h :
  let r := loop_body tools graph current run h in
  run_id (res_run r) = run_id run ∧
  run_graph_id (res_run r) = run_graph_id run ∧
  state (res_run r) = state run ∧
  length h ≤ length (res_heap r) ∧
  ∀ l, l ≠ state run → l < length h → res_heap r !! l = h !! l.
Proof.
  unfold loop_body.
  destruct (ToolRegistry_get tools current) as [tool|exc]; [|by simpl].
  simpl. destruct (tool (deref h (state run))) as [touched [ret|exc]].
  - unfold alloc.
    set (h1 := store (store h (state run) touched) (state run) _).
    assert (Hlen : length h1 = length h) by (unfold h1; by rewrite !length_store).
    assert (Hl : ∀ l, l ≠ state run → l < length h → (h1 ++ [deref h1 (state run)]) !! l = h !! l).
    { intros l Hne Hlt. rewrite lookup_app_l by lia.
      unfold h1, store. by rewrite !list_lookup_insert_ne. }
    assert (Hlen' : length h ≤ length (h1 ++ [deref h1 (state run)])).
    { rewrite length_app. simpl. lia. }
    destruct (_resolve_next_node _ _) as [nxt|exc]; [|by simpl].
    by destruct (negb (truthy nxt) || is_end nxt).
  - simpl. split_and!; try done.
    + by rewrite length_store.
    + intros l Hne Hlt. unfold store. by rewrite list_lookup_insert_ne.
Qed.

Lemma while_loop_frame fuel tools graph : ∀ current steps run h res run' h',
  while_loop fuel tools graph current steps run h = (res, run', h') →
  run_id run' = run_id run ∧
  run_graph_id run' = run_graph_id run ∧
  state run' = state run ∧
  length h ≤ length h' ∧
  ∀ l, l ≠ state run → l < length h → h' !! l = h !! l.
Proof.
  induction fuel as [|fuel IH]; intros current steps run h res run' h' Hw.
  - simpl in Hw.
    destruct (truthy current && bool_decide (steps < max_steps)); by simplify_eq.
  - destruct (truthy current && bool_decide (steps < max_steps)) eqn:Htest.
    2:{ simpl in Hw. rewrite Htest in Hw. by simplify_eq. }
    apply andb_true_iff in Htest as [Ht Hs]. apply bool_decide_eq_true in Hs.
    rewrite while_loop_unfold in Hw by done.
    pose proof (loop_body_frame tools graph current run h) as Hb.
    destruct (loop_body tools graph current run h) as [nxt r1 h1|r1 h1|exc r1 h1];
      cbn [res_run res_heap] in Hb;
      destruct Hb as (Hid & Hgid & Hst & Hlen & Hl); try by simplify_eq.
    destruct (IH _ _ _ _ _ _ _ Hw) as (Hid' & Hgid' & Hst' & Hlen' & Hl').
    split_and!; try congruence; try lia.
    intros l Hne Hlt. rewrite Hl' by (rewrite ?Hst; lia || done).
    by apply Hl.
Qed.

Section RunStore.

Variable uuid4 : nat → string.
Variable str_exc : exn → string.

Lemma run_graph_record self w graph_id initial_state graph :
  graphs self !! graph_id = Some graph →
  ∃ res run1 h1,
    _execute_run (tool_registry self) graph
      (run_start uuid4 w graph_id graph initial_state).1
      (run_start uuid4 w graph_id graph initial_state).2 = (res, run1, h1) ∧
    run_graph uuid4 str_exc self w graph_id initial_state
    = run_result uuid4 str_exc self w (res, run1, h1) ∧
    run_id run1 = uuid4 (w_uuids w) ∧ run_graph_id run1 = graph_id ∧
    state run1 = length (w_heap w) ∧
    ∀ l, l < length (w_heap w) → h1 !! l = w_heap w !! l.
Proof.
  intros Hg. rewrite (run_graph_unfold _ _ _ _ _ _ _ Hg).
  destruct (_execute_run _ _ _ _) as [[res run1] h1] eqn:Hexec.
  exists res, run1, h1. split_and!; try done.
  all: unfold _execute_run in Hexec;
    destruct (while_loop_frame _ _ _ _ _ _ _ _ _ _ Hexec)
      as (Hid & Hgid & Hst & Hlen & Hl); try done.
  intros l Hlt. rewrite Hl.
  - unfold run_start. simpl. by rewrite lookup_app_l.
  - unfold run_start. simpl. lia.
  - unfold run_start. simpl. rewrite length_app. simpl. lia.
Qed.

Lemma on_outcome_ids res run :
  run_id (on_outcome str_exc res run) = run_id run ∧
  run_graph_id (on_outcome str_exc res run) = run_graph_id run.
Proof. by destruct res. Qed.

(** X1.  [run_graph] raises only for a graph id that is not in the
    store, and then it is a [KeyError] that leaves engine and world as
    they were: no record is created and no identifier is used up.  For
    a stored graph it always returns a record; one identifier is used,
    the graph store and the tool registry are unchanged, and the run
    store gains the returned record under its run id. *)
Theorem run_graph_raises_only_for_unknown_graph self w graph_id initial_state :
  (graphs self !! graph_id = None →
   run_graph uuid4 str_exc self w graph_id initial_state
   = (Err (KeyError ("Graph '" +:+ graph_id +:+ "' not found")), self, w)) ∧
  (is_Some (graphs self !! graph_id) →
   ∃ run self' w',
     run_graph uuid4 str_exc self w graph_id initial_state = (Ok run, self', w') ∧
     run_id run = uuid4 (w_uuids w) ∧ run_graph_id run = graph_id ∧
     tool_registry self' = tool_registry self ∧ graphs self' = graphs self ∧
     runs self' = <[run_id run := run]> (runs self) ∧
     w_uuids w' = S (w_uuids w)).
Proof.
  split.
  - intros Hg. unfold run_graph. by rewrite Hg.
  - intros [graph Hg].
    destruct (run_graph_record self w graph_id initial_state graph Hg)
      as (res & run1 & h1 & _ & Hrun & Hid & Hgid & _).
    rewrite Hrun. eexists _, _, _. split; [reflexivity|].
    cbn [fst snd tool_registry graphs runs w_uuids].
    destruct (on_outcome_ids res run1) as [-> ->].
    split_and!; try done. by rewrite Hid.
Qed.

(** X2.  The record that [run_graph] returns is the one [get_run]
    finds afterwards under its run id, with its terminal status; every
    other run id is answered by [get_run] as before the run. *)
Theorem get_run_after_run_graph self w graph_id initial_state run self' w' :
  run_graph uuid4 str_exc self w graph_id initial_state = (Ok run, self', w') →
  get_run self' (run_id run) = Ok run ∧
  (status run = "completed" ∨ status run = "error") ∧
  ∀ other, other ≠ run_id run → get_run self' other = get_run self other.
Proof.
  intros Hrun.
  destruct (graphs self !! graph_id) as [graph|] eqn:Hg.
  2:{ unfold run_graph in Hrun. by rewrite Hg in Hrun. }
  destruct (run_graph_record self w graph_id initial_state graph Hg)
    as (res & run1 & h1 & _ & Hrun1 & Hid & _).
  rewrite Hrun1 in Hrun. unfold run_result in Hrun.
  cbn [fst snd] in Hrun. simplify_eq.
  destruct (on_outcome_ids res run1) as [Hid' _].
  unfold get_run. cbn [runs]. rewrite Hid', Hid.
  split_and!.
  - by rewrite lookup_insert_eq.
  - destruct res; [by right|by left].
  - intros other Hne. by rewrite lookup_insert_ne.
Qed.

End RunStore.

(** ** Routing *)

(** X4.  Edge resolution fails in three cases only, all of them on a
    rule whose [condition_key] is present and not [None]: the key is a
    list or an object (unhashable, [TypeError]), or the branch field
    that the condition selects is missing ([KeyError] naming that
    field).  A rule without [condition_key] is linear and never fails. *)
Theorem resolve_fails_only_on_conditional cfg st exc :
  _resolve_next_node cfg st = Err exc →
  ∃ ck, cfg !! "condition_key" = Some ck ∧ ck ≠ VNone ∧
    (((∃ l, ck = VList l) ∨ (∃ kvs, ck = VDict kvs)) ∧ (∃ msg, exc = TypeError msg) ∨
     (∃ v, dict_get st ck = Ok v ∧ truthy v = true ∧
           cfg !! "on_true" = None ∧ exc = KeyError "on_true") ∨
     (∃ v, dict_get st ck = Ok v ∧ truthy v = false ∧
           cfg !! "on_false" = None ∧ exc = KeyError "on_false")).
Proof.
  unfold _resolve_next_node. destruct (dict_is_empty cfg); [done|].
  destruct (cfg !! "condition_key") as [ck|] eqn:Hck; [|done].
  cbn [default from_option id]. intros Hres. exists ck.
  assert (Hne : ck ≠ VNone) by (by intros ->).
  assert (Hcases :
    match dict_get st ck with
    | Err e => Err e
    | Ok v => if truthy v then dict_getitem cfg "on_true"
              else dict_getitem cfg "on_false"
    end = Err exc) by (by destruct ck).
  clear Hres. split_and!; try done.
  destruct (dict_get st ck) as [v|e] eqn:Hget.
  - right. unfold dict_getitem in Hcases.
    destruct (truthy v) eqn:Hv.
    + left. exists v. destruct (cfg !! "on_true"); by simplify_eq.
    + right. exists v. destruct (cfg !! "on_false"); by simplify_eq.
  - left. simplify_eq. destruct ck; simpl in Hget; simplify_eq; eauto.
Qed.

Lemma resolve_fails_only_on_conditional_witness :
  ∃ ck, rule_without_on_true !! "condition_key" = Some ck ∧ ck ≠ VNone ∧
    (((∃ l, ck = VList l) ∨ (∃ kvs, ck = VDict kvs)) ∧
       (∃ msg, KeyError "on_true" = TypeError msg) ∨
     (∃ v, dict_get ready_update ck = Ok v ∧ truthy v = true ∧
           rule_without_on_true !! "on_true" = None ∧
           KeyError "on_true" = KeyError "on_true") ∨
     (∃ v, dict_get ready_update ck = Ok v ∧ truthy v = false ∧
           rule_without_on_true !! "on_false" = None ∧
           KeyError "on_true" = KeyError "on_false")).
Proof.
  apply (resolve_fails_only_on_conditional rule_without_on_true ready_update
           (KeyError "on_true")).
  vm_compute. reflexivity.
Defined.

Section Routing.

Variable uuid4 : nat → string.
Variable str_exc : exn → string.

(** X5.  A node that has no entry in [edges], or whose rule is the
    empty mapping, is the last node of the run: once its tool has
    returned, the step is merged and logged and the run is returned
    completed. *)
Theorem node_without_rule_ends_run self w graph_id initial_state graph n name
    run h (tool : ToolFunc) touched ret :
  at_step uuid4 self w graph_id initial_state graph n (VStr name) run h →
  tool_registry self !! name = Some tool →
  tool (deref h (state run)) = (touched, Ok ret) →
  edges graph !! name = None ∨ edges graph !! name = Some ∅ →
  ∃ run' self' w',
    run_graph uuid4 str_exc self w graph_id initial_state = (Ok run', self', w') ∧
    status run' = "completed" ∧ current_node run' = VNone ∧
    length (log run') = S n ∧
    deref (w_heap w') (state run') = merged touched ret.
Proof.
  intros Hat Htool Hcall Hrule.
  destruct (at_step_inv _ _ _ _ _ _ _ _ _ _ Hat) as (Hwf & Hlen & _).
  assert (Hcfg : edges_get graph (VStr name) = ∅).
  { unfold edges_get. by destruct Hrule as [-> | ->]. }
  assert (Hbody : loop_body (tool_registry self) graph (VStr name) run h
    = Break (logged_run (VStr name) run h)
        (logged_heap run h (merged touched ret))).
  { rewrite (loop_body_tool_returns _ _ _ _ _ tool touched ret);
      [|apply Hwf|unfold ToolRegistry_get; by rewrite Htool|done].
    cbv zeta. by rewrite Hcfg. }
  rewrite (run_graph_step_break _ _ _ _ _ _ _ _ _ _ _ _ _ Hat Hbody).
  eexists _, _, _. split; [reflexivity|].
  cbn [run_result fst snd on_outcome w_heap].
  split_and!; try done.
  - cbn. rewrite length_app. simpl. lia.
  - by apply (deref_logged_state run h (VStr name)).
Qed.

(** X6.  With the empty string as start node the loop body is never
    entered: no tool is looked up or called, the log stays empty, the
    state is the copy of the initial state, and the run is returned
    completed. *)
Theorem empty_start_node_runs_nothing self w graph_id initial_state graph :
  graphs self !! graph_id = Some graph →
  start_node graph = "" →
  ∃ run self' w',
    run_graph uuid4 str_exc self w graph_id initial_state = (Ok run, self', w') ∧
    status run = "completed" ∧ current_node run = VNone ∧ log run = [] ∧
    deref (w_heap w') (state run) = deref (w_heap w) initial_state.
Proof.
  intros Hg Hstart. rewrite (run_graph_unfold _ _ _ _ _ _ _ Hg).
  unfold _execute_run. rewrite Hstart.
  assert (Hloop : ∀ run h,
    while_loop max_steps (tool_registry self) graph (VStr "") 0 run h
    = (None, run, h)).
  { intros run h. unfold max_steps. reflexivity. }
  rewrite Hloop. eexists _, _, _. split; [reflexivity|].
  cbn [run_result fst snd on_outcome w_heap]. split_and!; try done.
  unfold run_start. cbn [fst snd new_run state]. apply deref_app_new.
Qed.

End Routing.

Lemma node_without_rule_ends_run_witness :
  ∃ run' self' w',
    run_graph uuid4_demo str_exc_demo (engine_of tools_a graph_unregistered)
      world0 "g" 0 = (Ok run', self', w') ∧
    status run' = "completed" ∧ length (log run') = 1.
Proof.
  destruct (node_without_rule_ends_run uuid4_demo str_exc_demo
              (engine_of tools_a graph_unregistered) world0 "g" 0
              graph_unregistered 0 "a" _ _ (const_tool ∅) ∅ (Some ∅)
              (at_step_first (engine_of tools_a graph_unregistered) world0 "g" 0
                 graph_unregistered eq_refl eq_refl)
              eq_refl eq_refl (or_introl eq_refl))
    as (run' & self' & w' & Hrun & Hst & _ & Hlen & _).
  exists run', self', w'. exact (conj Hrun (conj Hst Hlen)).
Defined.

(** ** What gets logged *)




(** * The tools *)

(** ** [split] and [join] *)

Lemma str_split_cons c s :
  str_split (String c s)
  = if is_space c then str_split s
    else match s with
         | EmptyString => [String c EmptyString]
         | String c' _ =>
             if is_space c' then String c EmptyString :: str_split s
             else match str_split s with
                  | w :: ws' => String c w :: ws'
                  | [] => [String c EmptyString]
                  end
         end.
Proof. reflexivity. Qed.

Lemma str_split_starts c s :
  is_space c = false → ∃ w ws, str_split (String c s) = String c w :: ws.
Proof.
  intros Hc. rewrite str_split_cons, Hc.
  destruct s as [|c' s']; [by eexists _, _|].
  destruct (is_space c'); [by eexists _, _|].
  destruct (str_split (String c' s')); by eexists _, _.
Qed.

Lemma str_split_app_space a b :
  str_split (a +:+ " " +:+ b) = str_split a ++ str_split b.
Proof.
  induction a as [|c a IH]; [done|].
  change (String c a +:+ " " +:+ b) with (String c (a +:+ " " +:+ b)).
  rewrite (str_split_cons c (a +:+ " " +:+ b)), (str_split_cons c a).
  destruct (is_space c); [done|].
  destruct a as [|c' a'].
  { change ("" +:+ " " +:+ b) with (String Ascii.Space b).
    by rewrite (str_split_cons Ascii.Space b). }
  change (String c' a' +:+ " " +:+ b) with (String c' (a' +:+ " " +:+ b)) in *.
  destruct (is_space c') eqn:Hc'.
  - rewrite IH. by rewrite Hc'.
  - rewrite IH. rewrite Hc'.
    destruct (str_split_starts c' a' Hc') as (w & ws & ->). done.
Qed.

Lemma str_split_words s : Forall is_word (str_split s).
Proof.
  induction s as [|c s IH]; [constructor|].
  rewrite str_split_cons. destruct (is_space c) eqn:Hc; [done|].
  assert (Hone : is_word (String c EmptyString)).
  { split; [done|]. simpl. by rewrite Hc. }
  destruct s as [|c' s']; [by apply Forall_singleton|].
  destruct (is_space c'); [by apply Forall_cons_2|].
  destruct (str_split (String c' s')) as [|w ws]; [by apply Forall_singleton|].
  apply Forall_cons in IH as [[Hw1 Hw2] Hws].
  apply Forall_cons_2; [|done]. split; [done|]. simpl. by rewrite Hc.
Qed.

Lemma str_split_word w : is_word w → str_split w = [w].
Proof.
  intros [Hne Hns]. induction w as [|c w IH]; [done|].
  simpl in Hns. apply andb_true_iff in Hns as [Hc Hw].
  apply negb_true_iff in Hc.
  rewrite str_split_cons, Hc. destruct w as [|c' w']; [done|].
  pose proof Hw as Hw'. simpl in Hw'. apply andb_true_iff in Hw' as [Hc' _].
  apply negb_true_iff in Hc'. rewrite Hc'.
  by rewrite IH.
Qed.

Lemma str_join_cons sep w w' ws :
  str_join sep (w :: w' :: ws) = w +:+ sep +:+ str_join sep (w' :: ws).
Proof. reflexivity. Qed.

(** Splitting what was joined with single spaces gives the words of
    the pieces, in order. *)
Lemma str_split_join_any ss :
  str_split (str_join " " ss) = concat (str_split <$> ss).
Proof.
  induction ss as [|s ss IH]; [done|].
  destruct ss as [|s' ss].
  - simpl. by rewrite app_nil_r.
  - rewrite str_join_cons, str_split_app_space, IH. done.
Qed.

Lemma str_split_join ws :
  Forall is_word ws → str_split (str_join " " ws) = ws.
Proof.
  intros Hws. rewrite str_split_join_any.
  induction Hws as [|w ws Hw _ IH]; [done|].
  rewrite fmap_cons. cbn [concat]. by rewrite (str_split_word w Hw), IH.
Qed.

Lemma slice_to_Forall {A} (P : A → Prop) (l : list A) n :
  Forall P l → Forall P (slice_to l n).
Proof.
  intros Hl. unfold slice_to. destruct (0 <=? n)%Z; by apply Forall_take.
Qed.

Lemma slice_to_length {A} (l : list A) n :
  (0 ≤ n)%Z → length (slice_to l n) ≤ Z.to_nat n.
Proof.
  intros Hn. unfold slice_to.
  rewrite (proj2 (Z.leb_le 0 n) Hn), length_take. lia.
Qed.

Lemma slice_to_all {A} (l : list A) n :
  (Z.of_nat (length l) ≤ n)%Z → slice_to l n = l.
Proof.
  intros Hn. unfold slice_to.
  assert (0 ≤ n)%Z as H0 by lia.
  rewrite (proj2 (Z.leb_le 0 n) H0). apply take_ge. lia.
Qed.

(** ** Chunking *)

Lemma range_from_chunks {A} (ws : list A) k :
  0 < k → ∀ fuel i,
  length ws - i ≤ fuel →
  concat ((λ i, take k (drop i ws)) <$> range_from fuel i (length ws) k)
  = drop i ws.
Proof.
  intros Hk. induction fuel as [|fuel IH]; intros i Hf.
  - simpl. symmetry. apply drop_ge. lia.
  - simpl. case_bool_decide as Hi.
    + rewrite fmap_cons. cbn [concat]. rewrite IH by lia.
      rewrite <- drop_drop. apply take_drop.
    + simpl. symmetry. apply drop_ge. lia.
Qed.

Lemma range_from_below fuel : ∀ i stop step,
  Forall (λ j, j < stop) (range_from fuel i stop step).
Proof.
  induction fuel as [|fuel IH]; intros i stop step; [constructor|].
  simpl. case_bool_decide; [|constructor].
  apply Forall_cons_2; [done|apply IH].
Qed.

Lemma chunk_pieces (ws : list string) n :
  0 < n → Forall is_word ws →
  concat ((λ i, take n (drop i ws)) <$> py_range (length ws) n) = ws ∧
  Forall (λ p, Forall is_word p ∧ 1 ≤ length p ≤ n)
    ((λ i, take n (drop i ws)) <$> py_range (length ws) n).
Proof.
  intros Hn Hws. split.
  - unfold py_range. rewrite range_from_chunks by lia. done.
  - apply Forall_fmap. unfold py_range.
    eapply Forall_impl; [apply range_from_below|].
    intros i Hi. simpl in *. split.
    + by apply Forall_take, Forall_drop.
    + rewrite length_take, length_drop. lia.
Qed.

Lemma str_split_join_pieces (pieces : list (list string)) :
  Forall (Forall is_word) pieces →
  str_split <$> (str_join " " <$> pieces) = pieces.
Proof.
  intros Hp. rewrite <- list_fmap_compose.
  rewrite <- (list_fmap_id pieces) at 2.
  apply Forall_fmap_ext_1. eapply Forall_impl; [exact Hp|].
  intros p Hw. simpl. by apply str_split_join.
Qed.

Section ToolProperties.

Variable py_int_of_str : string → result Z.

(** X8.  With a str text and a positive chunk size [k], [split_text]
    leaves its argument alone and returns the chunks: each chunk holds
    at least one and at most [k] words, and the words of the chunks,
    read in order, are the words of the text. *)
Theorem split_text_chunks state s k :
  default (VStr "") (state !! "text") = VStr s →
  py_int py_int_of_str (default (VInt 50) (state !! "chunk_size")) = Ok k →
  (0 < k)%Z →
  ∃ chunks,
    split_text py_int_of_str state
    = (state, Ok (Some {["chunks" := VList (VStr <$> chunks)]})) ∧
    concat (str_split <$> chunks) = str_split s ∧
    Forall (λ c, 1 ≤ length (str_split c) ≤ Z.to_nat k) chunks.
Proof.
  intros Htext Hint Hk. unfold split_text. rewrite Htext, Hint.
  unfold _simple_chunk_text.
  rewrite (proj2 (Z.eqb_neq k 0)) by lia.
  rewrite (proj2 (Z.ltb_ge k 0)) by lia.
  eexists. split; [reflexivity|].
  destruct (chunk_pieces (str_split s) (Z.to_nat k) ltac:(lia)
              (str_split_words s)) as [Hconcat Hpieces].
  rewrite (list_fmap_compose (λ i, take (Z.to_nat k) (drop i (str_split s)))
             (str_join " ")).
  assert (Hsplit : str_split <$> (str_join " " <$>
            ((λ i, take (Z.to_nat k) (drop i (str_split s)))
               <$> py_range (length (str_split s)) (Z.to_nat k)))
          = (λ i, take (Z.to_nat k) (drop i (str_split s)))
               <$> py_range (length (str_split s)) (Z.to_nat k)).
  { apply str_split_join_pieces. eapply Forall_impl; [exact Hpieces|].
    by intros p [? _]. }
  split.
  - by rewrite Hsplit.
  - apply Forall_fmap. eapply Forall_impl; [exact Hpieces|].
    intros p [Hw Hl]. simpl. by rewrite (str_split_join p Hw).
Qed.

(** X9.  A chunk size of 0 makes [split_text] raise [ValueError]; a
    negative one makes it return no chunks at all, whatever the text
    holds.  In both cases the argument is left alone. *)
Theorem split_text_nonpositive_chunk_size state s k :
  default (VStr "") (state !! "text") = VStr s →
  py_int py_int_of_str (default (VInt 50) (state !! "chunk_size")) = Ok k →
  (k = 0%Z →
   split_text py_int_of_str state
   = (state, Err (ValueError "range() arg 3 must not be zero"))) ∧
  ((k < 0)%Z →
   split_text py_int_of_str state
   = (state, Ok (Some {["chunks" := VList []]}))).
Proof.
  intros Htext Hint. unfold split_text. rewrite Htext, Hint.
  unfold _simple_chunk_text. split.
  - by intros ->.
  - intros Hk. rewrite (proj2 (Z.eqb_neq k 0)) by lia.
    by rewrite (proj2 (Z.ltb_lt k 0)) by lia.
Qed.

Lemma summarize_strs m cs :
  summarize m (VStr <$> cs)
  = Ok ((λ c, str_join " " (slice_to (str_split c) m)) <$> cs).
Proof.
  induction cs as [|c cs IH]; [done|].
  rewrite fmap_cons. cbn [summarize]. by rewrite IH.
Qed.

(** X10.  On a list of str chunks [generate_summaries] leaves its
    argument alone and returns one summary per chunk, in order; the
    words of a summary are the first [m] words of its chunk (for a
    negative [m], all but the last [-m]), so with [m] at least 0 no
    summary has more than [m] words. *)
Theorem generate_summaries_takes_first_words state cs m :
  state !! "chunks" = Some (VList (VStr <$> cs)) →
  py_int py_int_of_str (default (VInt 20) (state !! "per_chunk_summary_words"))
  = Ok m →
  ∃ ss,
    generate_summaries py_int_of_str state
    = (state, Ok (Some {["summaries" := VList (VStr <$> ss)]})) ∧
    str_split <$> ss = (λ c, slice_to (str_split c) m) <$> cs ∧
    ((0 ≤ m)%Z → Forall (λ s, length (str_split s) ≤ Z.to_nat m) ss).
Proof.
  intros Hchunks Hint. unfold generate_summaries. rewrite Hchunks, Hint.
  cbn [default from_option id py_iter]. rewrite summarize_strs.
  eexists. split; [reflexivity|].
  assert (Hw : ∀ c, str_split (str_join " " (slice_to (str_split c) m))
                    = slice_to (str_split c) m).
  { intros c. apply str_split_join, slice_to_Forall, str_split_words. }
  split.
  - rewrite <- list_fmap_compose. apply list_fmap_ext. intros i c _. apply Hw.
  - intros Hm. apply Forall_fmap, Forall_forall. intros c _. simpl.
    rewrite Hw. by apply slice_to_length.
Qed.

Lemma as_strs_strs ss : as_strs (VStr <$> ss) = Some ss.
Proof.
  induction ss as [|s ss IH]; [done|].
  rewrite fmap_cons. cbn [as_strs]. by rewrite IH.
Qed.

(** X11.  On a list of str summaries [merge_summaries] leaves its
    argument alone and returns a draft whose words are the words of
    the summaries, in order. *)
Theorem merge_summaries_joins state ss :
  state !! "summaries" = Some (VList (VStr <$> ss)) →
  ∃ draft,
    merge_summaries state
    = (state, Ok (Some {["draft_summary" := VStr draft]})) ∧
    str_split draft = concat (str_split <$> ss).
Proof.
  intros Hs. unfold merge_summaries, py_join. rewrite Hs.
  cbn [default from_option id py_iter]. rewrite as_strs_strs.
  eexists. split; [reflexivity|]. apply str_split_join_any.
Qed.

End ToolProperties.

(** ** [refine_summary] *)

Lemma refine_summary_int state d n :
  default (VStr "") (state !! "draft_summary") = VStr d →
  default (VInt 40) (state !! "summary_limit_words") = VInt n →
  let final := str_join " " (slice_to (str_split d) n) in
  let short := (Z.of_nat (length (str_split d)) <=? n)%Z in
  let touched := <["is_summary_short_enough" := VBool short]>
                   (<["final_summary" := VStr final]> state) in
  ∃ ret,
    refine_summary state = (touched, Ok (Some ret)) ∧
    ret !! "final_summary" = Some (VStr final) ∧
    ret !! "is_summary_short_enough" = Some (VBool short) ∧
    ret !! "draft_summary" = Some (VStr d) ∧
    ret !! "summary_limit_words"
    = Some (default VNone (state !! "summary_limit_words")) ∧
    ret !! "text" = Some (default VNone (state !! "text")) ∧
    ret !! "chunk_size" = Some (default VNone (state !! "chunk_size")) ∧
    ret !! "per_chunk_summary_words"
    = Some (default VNone (state !! "per_chunk_summary_words")) ∧
    ret !! "chunks" = Some (default VNone (state !! "chunks")) ∧
    ret !! "summaries" = Some (default VNone (state !! "summaries")) ∧
    dom ret = list_to_set
      ["text"; "chunk_size"; "per_chunk_summary_words"; "summary_limit_words";
       "final_summary"; "is_summary_short_enough"; "chunks"; "summaries";
       "draft_summary"].
Proof.
  intros Hd Hn final short touched. unfold refine_summary.
  rewrite Hd, Hn. cbn [as_int]. eexists. split; [reflexivity|].
  fold final. fold short.
  split_and!; try reflexivity.
  all: rewrite ?lookup_insert_ne by done; try reflexivity.
Qed.

(** X12.  With a str draft and an int limit [n] (40 when the key is
    absent), [refine_summary] returns an update whose [final_summary]
    has as words the first [n] words of the draft (all of them when the
    draft has at most [n] words, never more than [n] for [n] at least
    0) and whose [is_summary_short_enough] tells whether the draft has
    at most [n] words.  The update always has the same nine keys; a key
    among them that the state lacks comes back as [None]. *)
Theorem refine_summary_truncates state d n :
  default (VStr "") (state !! "draft_summary") = VStr d →
  default (VInt 40) (state !! "summary_limit_words") = VInt n →
  ∃ final short touched ret,
    refine_summary state = (touched, Ok (Some ret)) ∧
    ret !! "final_summary" = Some (VStr final) ∧
    ret !! "is_summary_short_enough" = Some (VBool short) ∧
    str_split final = slice_to (str_split d) n ∧
    (short = true ↔ (Z.of_nat (length (str_split d)) ≤ n)%Z) ∧
    (short = true → str_split final = str_split d) ∧
    ((0 ≤ n)%Z → length (str_split final) ≤ Z.to_nat n) ∧
    ret !! "draft_summary" = Some (VStr d) ∧
    ret !! "summary_limit_words"
    = Some (default VNone (state !! "summary_limit_words")) ∧
    dom ret = list_to_set
      ["text"; "chunk_size"; "per_chunk_summary_words"; "summary_limit_words";
       "final_summary"; "is_summary_short_enough"; "chunks"; "summaries";
       "draft_summary"].
Proof.
  intros Hd Hn.
  destruct (refine_summary_int state d n Hd Hn)
    as (ret & Hcall & Hfinal & Hshort & Hdraft & Hlimit & _ & _ & _ & _ & _ & Hdom).
  eexists _, _, _, ret. split; [exact Hcall|].
  assert (Hsplit : str_split (str_join " " (slice_to (str_split d) n))
                   = slice_to (str_split d) n).
  { apply str_split_join, slice_to_Forall, str_split_words. }
  split_and!; try done.
  - apply Z.leb_le.
  - intros Hs. rewrite Hsplit. apply slice_to_all. by apply Z.leb_le.
  - intros H0. rewrite Hsplit. by apply slice_to_length.
Qed.

(** X13.  [refine_summary] raises exactly when the draft is not a str
    or the limit is neither an int nor a bool ([None] included), and
    it does so before it assigns anything: the state is left as it
    was. *)
Theorem refine_summary_raises_untouched state :
  (∀ touched exc,
     refine_summary state = (touched, Err exc) → touched = state) ∧
  ((∃ touched exc, refine_summary state = (touched, Err exc)) ↔
   (∀ d, default (VStr "") (state !! "draft_summary") ≠ VStr d) ∨
   as_int (default (VInt 40) (state !! "summary_limit_words")) = None).
Proof.
  unfold refine_summary.
  destruct (default (VStr "") (state !! "draft_summary")) as [|b|z|d|l|kvs] eqn:Hd.
  4:{ destruct (default (VInt 40) (state !! "summary_limit_words"))
        as [|b|z|s|l|kvs] eqn:Hl; cbn [as_int].
      all: split; [intros touched exc; by intros [= <- _]|].
      all: split; [intros (touched & exc & Hcall); try done; by right|].
      all: intros [Hbad|Hbad]; try done; try (by eexists _, _);
        by destruct (Hbad d). }
  all: split; [intros touched exc; by intros [= <- _]|].
  all: split; [intros _; by left|intros _; by eexists _, _].
Qed.

Section MainRegistry.

Variable py_int_of_str : string → result Z.

Lemma split_text_untouched state : (split_text py_int_of_str state).1 = state.
Proof.
  unfold split_text. destruct (py_int _ _); [|done].
  by destruct (_simple_chunk_text _ _).
Qed.

Lemma generate_summaries_untouched state :
  (generate_summaries py_int_of_str state).1 = state.
Proof.
  unfold generate_summaries. destruct (py_int _ _); [|done].
  destruct (py_iter _); [|done]. by destruct (summarize _ _).
Qed.

Lemma merge_summaries_untouched state : (merge_summaries state).1 = state.
Proof. unfold merge_summaries. by destruct (py_join _ _). Qed.

Lemma refine_summary_keeps state : dom state ⊆ dom (refine_summary state).1.
Proof.
  unfold refine_summary.
  destruct (default (VStr "") (state !! "draft_summary")); try done.
  destruct (default (VInt 40) (state !! "summary_limit_words")); cbn [as_int];
    try done.
  all: cbn [fst]; rewrite !dom_insert; set_solver.
Qed.

Lemma tool_registry_main_lookup name (tool : ToolFunc) :
  tool_registry_main py_int_of_str !! name = Some tool →
  name = "split_text" ∧ tool = split_text py_int_of_str ∨
  name = "generate_summaries" ∧ tool = generate_summaries py_int_of_str ∨
  name = "merge_summaries" ∧ tool = merge_summaries ∨
  name = "refine_summary" ∧ tool = refine_summary.
Proof.
  unfold tool_registry_main, ToolRegistry_register. intros Hl.
  repeat (apply lookup_insert_Some in Hl as [[<- <-]|[_ Hl]]; [tauto|]).
  by rewrite lookup_empty in Hl.
Qed.

(** X14.  None of the four tools that main.py registers deletes a key
    of the state it is given: three of them do not assign into it at
    all, [refine_summary] only adds or overwrites keys.  So in every
    run of the shipped engine a key of the state stays in it. *)
Theorem shipped_tools_keep_keys : keeps_keys (tool_registry_main py_int_of_str).
Proof.
  intros name tool d Hname.
  destruct (tool_registry_main_lookup name tool Hname)
    as [[_ ->]|[[_ ->]|[[_ ->]|[_ ->]]]].
  - by rewrite split_text_untouched.
  - by rewrite generate_summaries_untouched.
  - by rewrite merge_summaries_untouched.
  - apply refine_summary_keeps.
Qed.

End MainRegistry.

(** * Runs of the summarization workflow *)

Lemma iter_invariant tools graph (P : value → RunRecord → heap → Prop) :
  (∀ c r h, P c r h →
     truthy c = true ∧
     ∃ c' r' h', loop_body tools graph c r h = Continue c' r' h' ∧ P c' r' h') →
  ∀ m c r h, P c r h →
  ∃ c' r' h', iter m tools graph c r h = Some (c', r', h') ∧ P c' r' h'.
Proof.
  intros Hstep. induction m as [|m IH]; intros c r h HP.
  - by exists c, r, h.
  - destruct (Hstep c r h HP) as (Ht & c1 & r1 & h1 & Hb & HP1).
    cbn [iter]. rewrite Ht, Hb. by apply IH.
Qed.

Section Workflow.

Variable uuid4 : nat → string.
Variable str_exc : exn → string.

(** A run whose remaining iterations all go on is left at the cap. *)
Lemma run_graph_to_cap self w graph_id initial_state graph n current run h
    current' run' h' :
  at_step uuid4 self w graph_id initial_state graph n current run h →
  iter (max_steps - n) (tool_registry self) graph current run h
  = Some (current', run', h') →
  run_graph uuid4 str_exc self w graph_id initial_state
  = run_result uuid4 str_exc self w (None, run', h') ∧
  length (log run') = max_steps.
Proof.
  intros Hat Hi.
  destruct (at_step_inv _ _ _ _ _ _ _ _ _ _ Hat) as (Hwf & Hlen & _).
  pose proof Hat as (_ & _ & Hn & _).
  rewrite (run_graph_from_step _ _ _ _ _ _ _ _ _ _ _ Hat).
  rewrite (while_loop_iter _ _ _ _ _ _ _ _ _ _ _ Hi) by lia.
  rewrite while_loop_at_cap by lia. split; [done|].
  destruct (iter_inv _ _ _ _ _ _ _ _ _ Hwf Hi) as (_ & _ & _ & _ & _ & Hl & _).
  lia.
Qed.

Lemma at_step_next self w graph_id initial_state graph n current run h
    current' run' h' :
  at_step uuid4 self w graph_id initial_state graph n current run h →
  loop_body (tool_registry self) graph current run h
  = Continue current' run' h' →
  S n < max_steps →
  at_step uuid4 self w graph_id initial_state graph (S n) current' run' h'.
Proof.
  intros Hat Hb Hn. pose proof Hat as (Hg & Hi & _ & Ht).
  destruct (at_step_inv _ _ _ _ _ _ _ _ _ _ Hat) as (Hwf & _).
  pose proof (loop_body_inv (tool_registry self) graph current run h Hwf) as Hinv.
  rewrite Hb in Hinv. cbn [res_run res_heap] in Hinv.
  destruct Hinv as (_ & _ & _ & _ & _ & _ & _ & Ht' & _).
  split_and!; try done.
  replace (S n) with (n + 1) by lia. rewrite iter_add, Hi.
  cbn [iter]. by rewrite Ht, Hb.
Qed.

(** ** The refinement loop *)

Lemma refine_step_goes_on tools graph run h rule d n :
  tools !! "refine_summary" = Some refine_summary →
  edges graph !! "refine_summary" = Some rule →
  rule !! "condition_key" = Some (VStr "is_summary_short_enough") →
  rule !! "on_false" = Some (VStr "refine_summary") →
  wf run h →
  deref h (state run) !! "draft_summary" = Some (VStr d) →
  default (VInt 40) (deref h (state run) !! "summary_limit_words") = VInt n →
  (n < Z.of_nat (length (str_split d)))%Z →
  ∃ run' h',
    loop_body tools graph (VStr "refine_summary") run h
    = Continue (VStr "refine_summary") run' h' ∧
    wf run' h' ∧
    deref h' (state run') !! "draft_summary" = Some (VStr d) ∧
    deref h' (state run') !! "summary_limit_words"
    = Some (default VNone (deref h (state run) !! "summary_limit_words")) ∧
    deref h' (state run') !! "is_summary_short_enough" = Some (VBool false) ∧
    deref h' (state run') !! "final_summary"
    = Some (VStr (str_join " " (slice_to (str_split d) n))).
Proof.
  intros Htool Hrule Hck Hon Hwf Hd Hn Hlong.
  assert (Hd' : default (VStr "") (deref h (state run) !! "draft_summary") = VStr d)
    by (by rewrite Hd).
  destruct (refine_summary_int _ d n Hd' Hn)
    as (ret & Hcall & Hfinal & Hshort & Hdraft & Hlimit & _).
  assert (Hfalse : (Z.of_nat (length (str_split d)) <=? n)%Z = false)
    by (apply Z.leb_gt; lia).
  rewrite Hfalse in Hcall, Hshort.
  set (touched := <["is_summary_short_enough" := VBool false]> _) in Hcall.
  assert (Hm : ∀ k v, ret !! k = Some v → merged touched (Some ret) !! k = Some v).
  { intros k v Hk. unfold merged. rewrite dict_update_lookup. simpl.
    by rewrite Hk. }
  assert (Hres : _resolve_next_node rule (merged touched (Some ret))
                 = Ok (VStr "refine_summary")).
  { unfold _resolve_next_node. rewrite (dict_is_empty_lookup _ _ _ Hck), Hck.
    cbn [default from_option id dict_get].
    rewrite (Hm _ _ Hshort). cbn [default from_option id truthy].
    unfold dict_getitem. by rewrite Hon. }
  exists (logged_run (VStr "refine_summary") run h),
    (logged_heap run h (merged touched (Some ret))).
  split.
  { rewrite (loop_body_tool_returns tools graph _ run h refine_summary
               touched (Some ret));
      [|apply Hwf|unfold ToolRegistry_get; by rewrite Htool|exact Hcall].
    cbv zeta. rewrite (edges_get_lookup _ _ _ Hrule), Hres. reflexivity. }
  split; [by apply wf_logged|].
  rewrite (deref_logged_state run h (VStr "refine_summary") _ Hwf).
  split_and!; by apply Hm.
Qed.

(** X15.  Once a run reaches [refine_summary] with a draft of more
    words than an int limit held by the state, and the node's rule
    sends it back to itself when [is_summary_short_enough] is false,
    the run never leaves that node: the tool keeps the draft as it is,
    so every pass finds it too long.  The loop is left at the cap and
    the run is returned completed, with 1000 log entries and
    [is_summary_short_enough] still false. *)
Theorem refine_loop_runs_to_cap self w graph_id initial_state graph n run h
    rule d lim :
  at_step uuid4 self w graph_id initial_state graph n (VStr "refine_summary")
    run h →
  tool_registry self !! "refine_summary" = Some refine_summary →
  edges graph !! "refine_summary" = Some rule →
  rule !! "condition_key" = Some (VStr "is_summary_short_enough") →
  rule !! "on_false" = Some (VStr "refine_summary") →
  deref h (state run) !! "draft_summary" = Some (VStr d) →
  deref h (state run) !! "summary_limit_words" = Some (VInt lim) →
  (lim < Z.of_nat (length (str_split d)))%Z →
  ∃ run' self' w',
    run_graph uuid4 str_exc self w graph_id initial_state = (Ok run', self', w') ∧
    status run' = "completed" ∧ length (log run') = max_steps ∧
    deref (w_heap w') (state run') !! "is_summary_short_enough"
    = Some (VBool false) ∧
    deref (w_heap w') (state run') !! "draft_summary" = Some (VStr d) ∧
    deref (w_heap w') (state run') !! "final_summary"
    = Some (VStr (str_join " " (slice_to (str_split d) lim))).
Proof.
  intros Hat Htool Hrule Hck Hon Hd Hlim Hlong.
  destruct (at_step_inv _ _ _ _ _ _ _ _ _ _ Hat) as (Hwf & _).
  pose proof Hat as (_ & _ & Hn & Ht).
  set (P := λ (c : value) (r : RunRecord) (h0 : heap),
    c = VStr "refine_summary" ∧ wf r h0 ∧
    deref h0 (state r) !! "draft_summary" = Some (VStr d) ∧
    deref h0 (state r) !! "summary_limit_words" = Some (VInt lim) ∧
    deref h0 (state r) !! "is_summary_short_enough" = Some (VBool false) ∧
    deref h0 (state r) !! "final_summary"
    = Some (VStr (str_join " " (slice_to (str_split d) lim)))).
  assert (Hstep : ∀ r h0, wf r h0 →
    deref h0 (state r) !! "draft_summary" = Some (VStr d) →
    deref h0 (state r) !! "summary_limit_words" = Some (VInt lim) →
    ∃ r' h', loop_body (tool_registry self) graph (VStr "refine_summary") r h0
             = Continue (VStr "refine_summary") r' h' ∧
             P (VStr "refine_summary") r' h').
  { intros r h0 Hwf0 Hd0 Hl0.
    destruct (refine_step_goes_on (tool_registry self) graph r h0 rule d lim
                Htool Hrule Hck Hon Hwf0 Hd0 ltac:(by rewrite Hl0) Hlong)
      as (r' & h' & Hb & Hwf' & Hd' & Hl' & Hs' & Hf').
    exists r', h'. split; [done|]. unfold P. rewrite Hl0 in Hl'.
    by split_and!. }
  destruct (Hstep run h Hwf Hd Hlim) as (r1 & h1 & Hb1 & HP1).
  destruct (iter_invariant (tool_registry self) graph P) with
    (m := max_steps - S n) (c := VStr "refine_summary") (r := r1) (h := h1)
    as (c' & r' & h' & Hi & _ & Hwf' & Hd' & _ & Hs' & Hf'); [|done|].
  { intros c r h0 (-> & Hwf0 & Hd0 & Hl0 & _). split; [done|].
    destruct (Hstep r h0 Hwf0 Hd0 Hl0) as (r2 & h2 & Hb2 & HP2).
    by exists (VStr "refine_summary"), r2, h2. }
  assert (Hi' : iter (max_steps - n) (tool_registry self) graph
                  (VStr "refine_summary") run h = Some (c', r', h')).
  { replace (max_steps - n) with (S (max_steps - S n)) by lia.
    cbn [iter]. by rewrite Ht, Hb1. }
  destruct (run_graph_to_cap _ _ _ _ _ _ _ _ _ _ _ _ Hat Hi') as [Hrun Hlen].
  rewrite Hrun. eexists _, _, _. split; [reflexivity|].
  cbn [run_result fst snd on_outcome w_heap]. by split_and!.
Qed.

(** X16.  When the state has no [summary_limit_words] and the draft has
    more than 40 words, the first pass of [refine_summary] writes
    [None] under that key (the update carries every key it reads), so
    the second pass compares the word count with [None]: the run ends
    with status "error" and a [TypeError], one step after reaching
    [refine_summary]. *)
Theorem refine_default_limit_fails_on_second_pass self w graph_id initial_state
    graph n run h rule d :
  at_step uuid4 self w graph_id initial_state graph n (VStr "refine_summary")
    run h →
  S n < max_steps →
  tool_registry self !! "refine_summary" = Some refine_summary →
  edges graph !! "refine_summary" = Some rule →
  rule !! "condition_key" = Some (VStr "is_summary_short_enough") →
  rule !! "on_false" = Some (VStr "refine_summary") →
  deref h (state run) !! "draft_summary" = Some (VStr d) →
  deref h (state run) !! "summary_limit_words" = None →
  40 < length (str_split d) →
  ∃ run' self' w',
    run_graph uuid4 str_exc self w graph_id initial_state = (Ok run', self', w') ∧
    status run' = "error" ∧
    error_message run'
    = Some (str_exc (TypeError
        "'<=' not supported between instances of 'int' and 'NoneType'")) ∧
    current_node run' = VStr "refine_summary" ∧
    length (log run') = S n ∧
    deref (w_heap w') (state run') !! "summary_limit_words" = Some VNone.
Proof.
  intros Hat Hn Htool Hrule Hck Hon Hd Hlim Hlong.
  destruct (at_step_inv _ _ _ _ _ _ _ _ _ _ Hat) as (Hwf & _).
  destruct (refine_step_goes_on (tool_registry self) graph run h rule d 40
              Htool Hrule Hck Hon Hwf Hd ltac:(by rewrite Hlim) ltac:(lia))
    as (r1 & h1 & Hb1 & Hwf1 & Hd1 & Hl1 & _).
  rewrite Hlim in Hl1. cbn [default from_option id] in Hl1.
  pose proof (at_step_next _ _ _ _ _ _ _ _ _ _ _ _ Hat Hb1 Hn) as Hat1.
  destruct (at_step_inv _ _ _ _ _ _ _ _ _ _ Hat1) as (_ & Hlen1 & _).
  assert (Hcall : refine_summary (deref h1 (state r1))
                  = (deref h1 (state r1),
                     Err (TypeError
        "'<=' not supported between instances of 'int' and 'NoneType'"))).
  { unfold refine_summary. by rewrite Hd1, Hl1. }
  assert (Hget : ToolRegistry_get (tool_registry self) (VStr "refine_summary")
                 = Ok refine_summary).
  { unfold ToolRegistry_get. by rewrite Htool. }
  rewrite (run_graph_step_raise _ _ _ _ _ _ _ _ _ _ _ _ _ _ Hat1
             (loop_body_tool_raises _ graph _ _ _ _ _ _ Hget Hcall)).
  eexists _, _, _. split; [reflexivity|].
  cbn [run_result fst snd on_outcome w_heap].
  split_and!; try done.
  cbn. rewrite deref_store_eq by apply Hwf1. done.
Qed.

End Workflow.

(** * Branching on the merged state *)

Section Branching.

Variable uuid4 : nat → string.
Variable str_exc : exn → string.

(** C1.  At every step of every run whose node has a rule conditional
    on key [k], the successor is resolved on the state as it is after
    the update of that step was merged.  The flag is the truthiness of
    [k] in the merged state [m]: the value the tool returned under [k]
    if it returned one, whatever [k] held before, and otherwise the
    value the state already held.  The rule's [on_true] target is
    resolved when the flag is true, its [on_false] target when it is
    false.  With a target on which the loop goes on, the next step of
    the run executes that target; with the target "end" the run ends on
    that very step, completed, with one log entry per step. *)
Theorem branch_on_merged_state self w graph_id initial_state graph n name run h
    (tool : ToolFunc) touched ret cfg k :
  at_step uuid4 self w graph_id initial_state graph n (VStr name) run h →
  tool_registry self !! name = Some tool →
  tool (deref h (state run)) = (touched, Ok ret) →
  edges graph !! name = Some cfg →
  cfg !! "condition_key" = Some (VStr k) →
  let m := merged touched ret in
  let flag := truthy (default VNone (m !! k)) in
  let field := if flag then "on_true" else "on_false" in
  let run1 := logged_run (VStr name) run h in
  let h1 := logged_heap run h m in
  deref h1 (state run1) = m ∧
  (∀ v, default ∅ ret !! k = Some v → flag = truthy v) ∧
  (default ∅ ret !! k = None → flag = truthy (default VNone (touched !! k))) ∧
  _resolve_next_node cfg m = dict_getitem cfg field ∧
  ∀ next,
    cfg !! field = Some next →
    loop_body (tool_registry self) graph (VStr name) run h
    = (if negb (truthy next) || is_end next
       then Break run1 h1 else Continue next run1 h1) ∧
    (truthy next = true → is_end next = false → S n < max_steps →
     at_step uuid4 self w graph_id initial_state graph (S n) next run1 h1) ∧
    (next = VStr "end" →
     ∃ run' self' w',
       run_graph uuid4 str_exc self w graph_id initial_state = (Ok run', self', w') ∧
       status run' = "completed" ∧ current_node run' = VNone ∧
       length (log run') = S n ∧
       deref (w_heap w') (state run') = m).
Proof.
  intros Hat Htool Hcall Hcfg Hck m flag field run1 h1.
  destruct (at_step_inv _ _ _ _ _ _ _ _ _ _ Hat) as (Hwf & Hlen & _).
  assert (Hm : m !! k
    = match default ∅ ret !! k with Some v => Some v | None => touched !! k end).
  { unfold m, merged. by rewrite dict_update_lookup. }
  assert (Hres : _resolve_next_node cfg m = dict_getitem cfg field).
  { unfold _resolve_next_node. rewrite (dict_is_empty_lookup _ _ _ Hck), Hck.
    cbn [default from_option id dict_get]. unfold field, flag.
    by destruct (truthy (default VNone (m !! k))). }
  split_and!.
  - by apply (deref_logged_state run h (VStr name)).
  - intros v Hv. unfold flag. by rewrite Hm, Hv.
  - intros Hnone. unfold flag. by rewrite Hm, Hnone.
  - done.
  - intros next Hnext.
    assert (Hbody : loop_body (tool_registry self) graph (VStr name) run h
      = (if negb (truthy next) || is_end next
         then Break run1 h1 else Continue next run1 h1)).
    { rewrite (loop_body_tool_returns _ _ _ _ _ tool touched ret).
      - cbv zeta. rewrite (edges_get_lookup _ _ _ Hcfg). fold m.
        rewrite Hres. unfold dict_getitem. by rewrite Hnext.
      - apply Hwf.
      - unfold ToolRegistry_get. by rewrite Htool.
      - done. }
    split_and!; [done| |].
    + intros Ht Hne Hn.
      apply (at_step_next uuid4 _ _ _ _ _ _ _ _ _ _ _ _ Hat); [|done].
      by rewrite Hbody, Ht, Hne.
    + intros ->. simpl in Hbody.
      rewrite (run_graph_step_break uuid4 str_exc _ _ _ _ _ _ _ _ _ _ _ Hat Hbody).
      eexists _, _, _. split; [reflexivity|]. cbn.
      split_and!; try done.
      * rewrite length_app. simpl. lia.
      * by apply (deref_logged_state run h (VStr name)).
Qed.

End Branching.

Lemma branch_on_merged_state_witness :
  (deref (w_heap world0) 0 !! "ready" = None ∧
   ∃ run' self' w',
     run_graph uuid4_demo str_exc_demo (engine_of tools_ready graph_ready)
       world0 "g" 0 = (Ok run', self', w') ∧
     status run' = "completed" ∧ length (log run') = 1) ∧
  (deref (w_heap world_ready) 0 !! "ready" = Some (VBool true) ∧
   ∃ run1 h1,
     at_step uuid4_demo (engine_of tools_unready graph_ready) world_ready "g" 0
       graph_ready 1 (VStr "X") run1 h1 ∧
     deref h1 (state run1) !! "ready" = Some (VBool false)).
Proof.
  split.
  - split; [reflexivity|].
    destruct (branch_on_merged_state uuid4_demo str_exc_demo
                (engine_of tools_ready graph_ready) world0 "g" 0 graph_ready 0 "X"
                _ _ (const_tool ready_update) ∅ (Some ready_update) ready_rule
                "ready"
                (at_step_first (engine_of tools_ready graph_ready) world0 "g" 0
                   graph_ready eq_refl eq_refl)
                eq_refl eq_refl eq_refl eq_refl)
      as (_ & _ & _ & _ & Hnext).
    destruct (Hnext (VStr "end") ltac:(vm_compute; reflexivity))
      as (_ & _ & Hend).
    destruct (Hend eq_refl) as (run' & self' & w' & Hrun & Hst & _ & Hlen & _).
    exists run', self', w'. exact (conj Hrun (conj Hst Hlen)).
  - split; [reflexivity|].
    destruct (branch_on_merged_state uuid4_demo str_exc_demo
                (engine_of tools_unready graph_ready) world_ready "g" 0
                graph_ready 0 "X"
                _ _ (const_tool unready_update) ready_update
                (Some unready_update) ready_rule "ready"
                (at_step_first (engine_of tools_unready graph_ready) world_ready
                   "g" 0 graph_ready eq_refl eq_refl)
                eq_refl eq_refl eq_refl eq_refl)
      as (Hm & _ & _ & _ & Hnext).
    destruct (Hnext (VStr "X") ltac:(vm_compute; reflexivity))
      as (_ & Hgo & _).
    eexists _, _. split.
    + exact (Hgo eq_refl eq_refl one_lt_max_steps).
    + rewrite Hm. vm_compute. reflexivity.
Defined.

(** ** The whole workflow *)

Lemma linear_rule_resolves (cfg m : dict) v :
  cfg !! "condition_key" = None → cfg !! "next" = Some v →
  _resolve_next_node cfg m = Ok v.
Proof.
  intros Hck Hnext. unfold _resolve_next_node.
  rewrite (dict_is_empty_lookup _ _ _ Hnext), Hck, Hnext. done.
Qed.

Lemma merged_singleton_eq (st : dict) k v :
  merged st (Some {[k := v]}) !! k = Some v.
Proof.
  unfold merged. rewrite dict_update_lookup. simpl.
  by rewrite lookup_singleton_eq.
Qed.

Lemma merged_singleton_ne (st : dict) k k' v :
  k ≠ k' → merged st (Some {[k := v]}) !! k' = st !! k'.
Proof.
  intros Hne. unfold merged. rewrite dict_update_lookup. simpl.
  by rewrite lookup_singleton_ne.
Qed.

Section WorkflowRun.

Variable py_int_of_str : string → result Z.
Variable uuid4 : nat → string.
Variable str_exc : exn → string.

Lemma split_text_explicit state s k :
  default (VStr "") (state !! "text") = VStr s →
  py_int py_int_of_str (default (VInt 50) (state !! "chunk_size")) = Ok k →
  (0 < k)%Z →
  split_text py_int_of_str state
  = (state, Ok (Some {["chunks" := VList (VStr <$> (str_join " " <$>
                        chunk_words (Z.to_nat k) (str_split s)))]})).
Proof.
  intros Htext Hint Hk. unfold split_text. rewrite Htext, Hint.
  unfold _simple_chunk_text.
  rewrite (proj2 (Z.eqb_neq k 0)) by lia.
  rewrite (proj2 (Z.ltb_ge k 0)) by lia.
  unfold chunk_words.
  by rewrite (list_fmap_compose
                (λ i, take (Z.to_nat k) (drop i (str_split s))) (str_join " ")).
Qed.

Lemma generate_summaries_explicit state cs m :
  state !! "chunks" = Some (VList (VStr <$> cs)) →
  py_int py_int_of_str (default (VInt 20) (state !! "per_chunk_summary_words"))
  = Ok m →
  generate_summaries py_int_of_str state
  = (state, Ok (Some {["summaries" := VList (VStr <$>
       ((λ c, str_join " " (slice_to (str_split c) m)) <$> cs))]})).
Proof.
  intros Hchunks Hint. unfold generate_summaries. rewrite Hchunks, Hint.
  cbn [default from_option id py_iter]. by rewrite summarize_strs.
Qed.

Lemma merge_summaries_explicit state ss :
  state !! "summaries" = Some (VList (VStr <$> ss)) →
  merge_summaries state
  = (state, Ok (Some {["draft_summary" := VStr (str_join " " ss)]})).
Proof.
  intros Hs. unfold merge_summaries, py_join. rewrite Hs.
  cbn [default from_option id py_iter]. by rewrite as_strs_strs.
Qed.

Lemma at_step_start self w graph_id initial_state graph :
  graphs self !! graph_id = Some graph →
  truthy (VStr (start_node graph)) = true →
  at_step uuid4 self w graph_id initial_state graph 0
    (VStr (start_node graph))
    (run_start uuid4 w graph_id graph initial_state).1
    (run_start uuid4 w graph_id graph initial_state).2.
Proof.
  intros Hg Ht. split_and!; [done|done| |done].
  unfold max_steps. lia.
Qed.

(** A step that resolves a str successor other than "" and "end". *)
Lemma step_goes_on self w graph_id initial_state graph n name run h
    (tool : ToolFunc) touched ret cfg next :
  at_step uuid4 self w graph_id initial_state graph n (VStr name) run h →
  tool_registry self !! name = Some tool →
  tool (deref h (state run)) = (touched, Ok ret) →
  edges graph !! name = Some cfg →
  _resolve_next_node cfg (merged touched ret) = Ok (VStr next) →
  next ≠ "" → next ≠ "end" → S n < max_steps →
  ∃ run' h',
    at_step uuid4 self w graph_id initial_state graph (S n) (VStr next) run' h' ∧
    deref h' (state run') = merged touched ret ∧
    log_view h' (log run')
    = log_view h (log run) ++ [(VStr name, merged touched ret)].
Proof.
  intros Hat Htool Hcall Hcfg Hres Hne Hend Hn.
  destruct (at_step_inv _ _ _ _ _ _ _ _ _ _ Hat) as (Hwf & _).
  assert (Hstop : negb (truthy (VStr next)) || is_end (VStr next) = false).
  { simpl. rewrite !bool_decide_eq_false_2 by done. done. }
  assert (Hbody : loop_body (tool_registry self) graph (VStr name) run h
    = Continue (VStr next) (logged_run (VStr name) run h)
        (logged_heap run h (merged touched ret))).
  { rewrite (loop_body_tool_returns _ _ _ _ _ tool touched ret);
      [|apply Hwf|unfold ToolRegistry_get; by rewrite Htool|done].
    cbv zeta. rewrite (edges_get_lookup _ _ _ Hcfg), Hres. by rewrite Hstop. }
  eexists _, _. split_and!.
  - exact (at_step_next uuid4 _ _ _ _ _ _ _ _ _ _ _ _ Hat Hbody Hn).
  - by apply (deref_logged_state run h (VStr name)).
  - by apply log_view_logged.
Qed.

Lemma draft_words_spec cs m t :
  (0 < cs)%Z →
  str_split (str_join " "
    ((λ c, str_join " " (slice_to (str_split c) m)) <$>
       (str_join " " <$> chunk_words (Z.to_nat cs) (str_split t))))
  = draft_words cs m t.
Proof.
  intros Hcs. rewrite str_split_join_any. unfold draft_words. f_equal.
  destruct (chunk_pieces (str_split t) (Z.to_nat cs) ltac:(lia)
              (str_split_words t)) as [_ Hpieces].
  fold (chunk_words (Z.to_nat cs) (str_split t)) in Hpieces.
  rewrite <- !list_fmap_compose.
  apply Forall_fmap_ext_1. eapply Forall_impl; [exact Hpieces|].
  intros p [Hw _]. simpl. rewrite (str_split_join p Hw).
  apply str_split_join. by apply slice_to_Forall.
Qed.

(** X17.  The summarization workflow, run on the engine of main.py
    from a state with a str text, a positive chunk size [cs], a
    per-chunk word count [m] and an int limit [L] (50, 20 and 40 when
    absent): the draft is made of the first [m] words of every chunk of
    [cs] words of the text, and when it has at most [L] words the run
    executes the four nodes once each, in order, and is returned
    completed with [is_summary_short_enough] true and a
    [final_summary] whose words are the words of the draft. *)
Theorem workflow_summarizes self w graph_id initial_state graph t cs m L :
  graphs self !! graph_id = Some graph →
  tool_registry self = tool_registry_main py_int_of_str →
  start_node graph = "split_text" →
  edges graph = workflow_edges →
  deref (w_heap w) initial_state !! "text" = Some (VStr t) →
  py_int py_int_of_str
    (default (VInt 50) (deref (w_heap w) initial_state !! "chunk_size")) = Ok cs →
  (0 < cs)%Z →
  py_int py_int_of_str
    (default (VInt 20)
       (deref (w_heap w) initial_state !! "per_chunk_summary_words")) = Ok m →
  default (VInt 40) (deref (w_heap w) initial_state !! "summary_limit_words")
  = VInt L →
  (Z.of_nat (length (draft_words cs m t)) ≤ L)%Z →
  ∃ run self' w' final,
    run_graph uuid4 str_exc self w graph_id initial_state = (Ok run, self', w') ∧
    status run = "completed" ∧
    node <$> log run = VStr <$> workflow_nodes ∧
    deref (w_heap w') (state run) !! "final_summary" = Some (VStr final) ∧
    str_split final = draft_words cs m t ∧
    deref (w_heap w') (state run) !! "is_summary_short_enough"
    = Some (VBool true).
Proof.
  intros Hg Htools Hstart Hedges Htext Hcs Hcs0 Hm HL Hshort.
  set (st0 := deref (w_heap w) initial_state) in *.
  assert (H4 : 4 < max_steps) by (unfold max_steps; lia).
  pose (chunks := str_join " " <$> chunk_words (Z.to_nat cs) (str_split t)).
  pose (summaries := (λ c, str_join " " (slice_to (str_split c) m)) <$> chunks).
  pose (draft := str_join " " summaries).
  (* split_text *)
  pose proof (at_step_start self w graph_id initial_state graph Hg
                ltac:(by rewrite Hstart)) as Hat0.
  rewrite Hstart in Hat0.
  assert (Hst0 : deref (run_start uuid4 w graph_id graph initial_state).2
                   (state (run_start uuid4 w graph_id graph initial_state).1)
                 = st0).
  { unfold run_start. cbn [fst snd new_run state]. apply deref_app_new. }
  destruct (step_goes_on self w graph_id initial_state graph 0 "split_text"
              _ _ (split_text py_int_of_str) st0
              (Some ({["chunks" := VList (VStr <$> chunks)]} : dict))
              {["next" := VStr "generate_summaries"]} "generate_summaries" Hat0)
    as (r1 & h1 & Hat1 & Hst1 & Hlog1);
    [by rewrite Htools|
     rewrite Hst0; apply (split_text_explicit st0 t cs);
       [by rewrite Htext|done|done]|
     by rewrite Hedges|by apply linear_rule_resolves|done|done|lia|].
  (* generate_summaries *)
  destruct (step_goes_on self w graph_id initial_state graph 1
              "generate_summaries" _ _ (generate_summaries py_int_of_str)
              (deref h1 (state r1))
              (Some ({["summaries" := VList (VStr <$> summaries)]} : dict))
              {["next" := VStr "merge_summaries"]} "merge_summaries" Hat1)
    as (r2 & h2 & Hat2 & Hst2 & Hlog2);
    [by rewrite Htools|
     apply (generate_summaries_explicit _ chunks m);
       [rewrite Hst1; apply merged_singleton_eq|
        rewrite Hst1, merged_singleton_ne by done; exact Hm]|
     by rewrite Hedges|by apply linear_rule_resolves|done|done|lia|].
  (* merge_summaries *)
  destruct (step_goes_on self w graph_id initial_state graph 2
              "merge_summaries" _ _ merge_summaries
              (deref h2 (state r2))
              (Some ({["draft_summary" := VStr draft]} : dict))
              {["next" := VStr "refine_summary"]} "refine_summary" Hat2)
    as (r3 & h3 & Hat3 & Hst3 & Hlog3);
    [by rewrite Htools|
     apply (merge_summaries_explicit _ summaries);
       rewrite Hst2; apply merged_singleton_eq|
     by rewrite Hedges|by apply linear_rule_resolves|done|done|lia|].
  assert (Hdraft : str_split draft = draft_words cs m t)
    by (by apply draft_words_spec).
  (* refine_summary *)
  destruct (at_step_inv _ _ _ _ _ _ _ _ _ _ Hat3) as (Hwf3 & _).
  assert (Hd3 : deref h3 (state r3) !! "draft_summary" = Some (VStr draft))
    by (rewrite Hst3; apply merged_singleton_eq).
  assert (Hl3 : deref h3 (state r3) !! "summary_limit_words"
                = st0 !! "summary_limit_words").
  { rewrite Hst3, merged_singleton_ne by done.
    rewrite Hst2, merged_singleton_ne by done.
    by rewrite Hst1, merged_singleton_ne by done. }
  destruct (refine_summary_int (deref h3 (state r3)) draft L
              ltac:(by rewrite Hd3) ltac:(by rewrite Hl3))
    as (ret & Hcall & Hfinal & Hflag & _).
  rewrite Hdraft in Hcall, Hfinal, Hflag.
  rewrite (proj2 (Z.leb_le _ _) Hshort) in Hcall, Hflag.
  set (touched := <["is_summary_short_enough" := VBool true]> _) in Hcall.
  assert (Hmerged : ∀ k v, ret !! k = Some v →
            merged touched (Some ret) !! k = Some v).
  { intros k v Hk. unfold merged. rewrite dict_update_lookup. simpl.
    by rewrite Hk. }
  assert (Hbody : loop_body (tool_registry self) graph (VStr "refine_summary")
                    r3 h3
    = Break (logged_run (VStr "refine_summary") r3 h3)
        (logged_heap r3 h3 (merged touched (Some ret)))).
  { rewrite (loop_body_tool_returns _ _ _ _ _ refine_summary touched (Some ret));
      [|apply Hwf3|unfold ToolRegistry_get; by rewrite Htools|exact Hcall].
    cbv zeta. rewrite (edges_get_lookup graph "refine_summary" refine_rule)
      by (by rewrite Hedges).
    assert (Hres : _resolve_next_node refine_rule (merged touched (Some ret))
                   = Ok (VStr "end")).
    { unfold _resolve_next_node.
      rewrite (dict_is_empty_lookup refine_rule "on_true" (VStr "end")) by done.
      change (refine_rule !! "condition_key")
        with (Some (VStr "is_summary_short_enough")).
      cbn [default from_option id dict_get].
      by rewrite (Hmerged _ _ Hflag). }
    by rewrite Hres. }
  rewrite (run_graph_step_break _ _ _ _ _ _ _ _ _ _ _ _ _ Hat3 Hbody).
  eexists _, _, _, _. split; [reflexivity|].
  cbn [run_result fst snd on_outcome w_heap].
  rewrite (deref_logged_state r3 h3 (VStr "refine_summary") _ Hwf3).
  split_and!; [done| |by apply Hmerged| |by apply Hmerged].
  - assert (Hview : log_view (logged_heap r3 h3 (merged touched (Some ret)))
                      (log (logged_run (VStr "refine_summary") r3 h3))
                    = log_view h3 (log r3)
                      ++ [(VStr "refine_summary", merged touched (Some ret))])
      by (by apply log_view_logged).
    rewrite Hlog3, Hlog2, Hlog1 in Hview.
    apply (f_equal (fmap fst)) in Hview.
    unfold log_view in Hview. rewrite <- list_fmap_compose in Hview.
    cbn in Hview. exact Hview.
  - rewrite (str_split_join (slice_to (draft_words cs m t) L)).
    + apply slice_to_all. lia.
    + apply slice_to_Forall. rewrite <- Hdraft. apply str_split_words.
Qed.

End WorkflowRun.

(** * The handlers of main.py *)

Section HandlerProperties.

Variable uuid4 : nat → string.
Variable str_exc : exn → string.

(** X18.  [POST /graph/run] answers 404 exactly when the graph id is
    unknown, and then engine and world are as before.  Otherwise it
    answers 200 with the final state and the log, also when the run
    ended with status "error", and the run is stored under the run id
    of the answer.  What [GET /graph/state] then answers for that id
    depends on the [current_node] the run was left with.  For a
    completed run, and for a failed run whose [current_node] is a str,
    it answers 200 with the same state and log, the status of the run
    and that node.  For a failed run whose [current_node] is neither
    [None] nor a str, building the response fails and the exception
    leaves the handler. *)
Theorem api_run_then_state engine w graph_id initial_state :
  (graphs engine !! graph_id = None →
   api_run_graph uuid4 str_exc engine w graph_id initial_state
   = (HTTPException 404
        (str_exc (KeyError ("Graph '" +:+ graph_id +:+ "' not found"))),
      engine, w)) ∧
  (is_Some (graphs engine !! graph_id) →
   ∃ body engine' w' run,
     api_run_graph uuid4 str_exc engine w graph_id initial_state
     = (Http200 body, engine', w') ∧
     get_run engine' (grr_run_id body) = Ok run ∧
     (status run = "completed" ∨ status run = "error") ∧
     (status run = "completed" →
      api_get_run_state str_exc engine' w' (grr_run_id body)
      = Http200 {| rsr_run_id := grr_run_id body; rsr_status := "completed";
                   rsr_current_node := None;
                   rsr_state := grr_final_state body;
                   rsr_log := grr_log body |}) ∧
     (∀ name, current_node run = VStr name →
      api_get_run_state str_exc engine' w' (grr_run_id body)
      = Http200 {| rsr_run_id := grr_run_id body; rsr_status := status run;
                   rsr_current_node := Some name;
                   rsr_state := grr_final_state body;
                   rsr_log := grr_log body |}) ∧
     (current_node run ≠ VNone → (∀ name, current_node run ≠ VStr name) →
      status run = "error" ∧
      ∃ msg, api_get_run_state str_exc engine' w' (grr_run_id body)
             = Unhandled (ValidationError msg))).
Proof.
  split.
  - intros Hg. unfold api_run_graph, run_graph. by rewrite Hg.
  - intros [graph Hg]. unfold api_run_graph.
    destruct (run_graph_record uuid4 str_exc engine w graph_id initial_state
                graph Hg) as (res & run1 & h1 & _ & Hrun & Hid & _).
    rewrite Hrun. cbn [run_result fst snd].
    destruct (on_outcome_ids str_exc res run1) as [Hid' _].
    set (run := on_outcome str_exc res run1) in *.
    assert (Hget : runs {| tool_registry := tool_registry engine;
                           graphs := graphs engine;
                           runs := <[uuid4 (w_uuids w) := run]> (runs engine) |}
                   !! run_id run = Some run).
    { cbn [runs]. rewrite Hid', Hid. apply lookup_insert_eq. }
    eexists _, _, _, run.
    split; [reflexivity|].
    unfold api_get_run_state, get_run.
    cbn [grr_run_id grr_final_state grr_log w_heap]. rewrite Hget.
    split; [done|].
    assert (Hterm : (status run = "completed" ∧ current_node run = VNone) ∨
                    status run = "error").
    { unfold run. destruct res; [by right|by left]. }
    split_and!.
    + destruct Hterm as [[? ?]|?]; [by left|by right].
    + intros Hst. destruct Hterm as [[_ Hc]|He]; [|congruence].
      by rewrite Hc, Hst.
    + intros name Hc. by rewrite Hc.
    + intros Hn Hs. split.
      * by destruct Hterm as [[_ Hc]|He].
      * destruct (current_node run) as [|b|z|name|l|kvs];
          [done| | |by destruct (Hs name)| |]; by eexists.
Qed.

(** X19.  [POST /graph/create] answers 400, with the text of the
    [ValueError] as detail and the engine unchanged, exactly when the
    start node is not among the nodes; otherwise it answers 200 with a
    graph id for which [POST /graph/run] does not answer 404. *)
Theorem api_create_then_run engine w nodes start_node edges :
  (start_node ∉ nodes →
   api_create_graph uuid4 str_exc engine w nodes start_node edges
   = (HTTPException 400
        (str_exc (ValueError "start_node must be one of the nodes")),
      engine, w)) ∧
  (start_node ∈ nodes →
   ∃ gid engine' w',
     api_create_graph uuid4 str_exc engine w nodes start_node edges
     = (Http200 gid, engine', w') ∧
     ∀ initial_state, ∃ body engine'' w'',
       api_run_graph uuid4 str_exc engine' w' gid initial_state
       = (Http200 body, engine'', w'')).
Proof.
  unfold api_create_graph, create_graph. split; intros Hin.
  - by rewrite bool_decide_eq_false_2.
  - rewrite bool_decide_eq_true_2 by done.
    eexists _, _, _. split; [reflexivity|].
    intros initial_state. unfold api_run_graph.
    edestruct (run_graph_record uuid4 str_exc) as
      (res & run1 & h1 & _ & Hrun & _);
      [|rewrite Hrun; by eexists _, _, _].
    cbn [graphs]. apply lookup_insert_eq.
Qed.

(** X20.  No handler lets an exception of the engine through:
    [create_graph] raises nothing but [ValueError], [run_graph] and
    [get_run] nothing but [KeyError], and each handler turns exactly
    that exception into its HTTP error.  The one exception that leaves
    a handler is the [ValidationError] of the response model of
    [get_run_state], and it does so only for a stored run whose
    [current_node] is neither [None] nor a str. *)
Theorem handlers_catch_engine_exceptions engine w :
  (∀ nodes start_node edges exc,
     (api_create_graph uuid4 str_exc engine w nodes start_node edges).1.1
     ≠ Unhandled exc) ∧
  (∀ graph_id initial_state exc,
     (api_run_graph uuid4 str_exc engine w graph_id initial_state).1.1
     ≠ Unhandled exc) ∧
  (∀ rid exc,
     get_run engine rid = Err exc →
     api_get_run_state str_exc engine w rid = HTTPException 404 (str_exc exc)) ∧
  (∀ rid exc,
     api_get_run_state str_exc engine w rid = Unhandled exc →
     (∃ msg, exc = ValidationError msg) ∧
     ∃ run, get_run engine rid = Ok run ∧ current_node run ≠ VNone ∧
            ∀ name, current_node run ≠ VStr name).
Proof.
  split_and!.
  - intros nodes start_node edges exc. unfold api_create_graph, create_graph.
    by case_bool_decide.
  - intros graph_id initial_state exc. unfold api_run_graph.
    destruct (graphs engine !! graph_id) as [graph|] eqn:Hg.
    + destruct (run_graph_record uuid4 str_exc engine w graph_id initial_state
                  graph Hg) as (res & run1 & h1 & _ & Hrun & _).
      by rewrite Hrun.
    + unfold run_graph. by rewrite Hg.
  - intros rid exc. unfold api_get_run_state, get_run.
    destruct (runs engine !! rid); [done|]. intros Hexc. by simplify_eq.
  - intros rid exc. unfold api_get_run_state, get_run.
    destruct (runs engine !! rid) as [run|]; [|done].
    destruct (current_node run) as [|b|z|name|l|kvs] eqn:Hc;
      cbn [validate_optional_str]; intros Hexc; simplify_eq;
      (split; [by eexists|]); exists run; by rewrite Hc.
Qed.

End HandlerProperties.

(** * Concrete runs of the tools, the workflow and the handlers *)

Lemma get_run_after_run_graph_witness :
  let out := run_graph uuid4_demo str_exc_demo
               (engine_of chain_tools graph_chain) world0 "g" 0 in
  get_run out.1.2 (run_id (returned_run out)) = Ok (returned_run out) ∧
  status (returned_run out) = "completed".
Proof.
  intros out.
  assert (Hout : out = (Ok (returned_run out), out.1.2, out.2))
    by (vm_compute; reflexivity).
  split.
  - exact (proj1 (get_run_after_run_graph uuid4_demo str_exc_demo
                    _ _ _ _ _ _ _ Hout)).
  - vm_compute. reflexivity.
Defined.

Lemma empty_start_node_runs_nothing_witness :
  ∃ run self' w',
    run_graph uuid4_demo str_exc_demo (engine_of tools_a graph_empty_start)
      world0 "g" 0 = (Ok run, self', w') ∧
    status run = "completed" ∧ log run = [].
Proof.
  destruct (empty_start_node_runs_nothing uuid4_demo str_exc_demo
              (engine_of tools_a graph_empty_start) world0 "g" 0
              graph_empty_start eq_refl eq_refl)
    as (run & self' & w' & Hrun & Hst & _ & Hlog & _).
  exists run, self', w'. exact (conj Hrun (conj Hst Hlog)).
Defined.


Lemma split_text_chunks_witness :
  ∃ chunks,
    split_text py_int_of_str_demo five_words_state
    = (five_words_state, Ok (Some {["chunks" := VList (VStr <$> chunks)]})) ∧
    concat (str_split <$> chunks) = ["one"; "two"; "three"; "four"; "five"] ∧
    Forall (λ c, 1 ≤ length (str_split c) ≤ 2) chunks.
Proof.
  exact (split_text_chunks py_int_of_str_demo five_words_state
           " one two  three four five " 2 eq_refl eq_refl eq_refl).
Defined.

Lemma split_text_nonpositive_chunk_size_witness :
  split_text py_int_of_str_demo negative_chunk_state
  = (negative_chunk_state, Ok (Some {["chunks" := VList []]})).
Proof.
  exact (proj2 (split_text_nonpositive_chunk_size py_int_of_str_demo
                  negative_chunk_state "one two three" (-1) eq_refl eq_refl)
           eq_refl).
Defined.

Lemma generate_summaries_takes_first_words_witness :
  ∃ ss,
    generate_summaries py_int_of_str_demo two_chunks_state
    = (two_chunks_state, Ok (Some {["summaries" := VList (VStr <$> ss)]})) ∧
    str_split <$> ss = [["one"; "two"]; ["four"]].
Proof.
  destruct (generate_summaries_takes_first_words py_int_of_str_demo
              two_chunks_state ["one two three"; "four"] 2 eq_refl eq_refl)
    as (ss & Hcall & Hwords & _).
  exists ss. exact (conj Hcall Hwords).
Defined.

Lemma merge_summaries_joins_witness :
  ∃ draft,
    merge_summaries two_summaries_state
    = (two_summaries_state, Ok (Some {["draft_summary" := VStr draft]})) ∧
    str_split draft = ["one"; "two"; "four"].
Proof.
  exact (merge_summaries_joins two_summaries_state ["one two"; "four"] eq_refl).
Defined.

Lemma refine_summary_truncates_witness :
  ∃ final short touched ret,
    refine_summary long_draft_state = (touched, Ok (Some ret)) ∧
    ret !! "final_summary" = Some (VStr final) ∧
    ret !! "is_summary_short_enough" = Some (VBool short) ∧
    str_split final = ["one"; "two"].
Proof.
  destruct (refine_summary_truncates long_draft_state "one two three" 2
              eq_refl eq_refl)
    as (final & short & touched & ret & Hcall & Hf & Hs & Hw & _).
  exists final, short, touched, ret.
  exact (conj Hcall (conj Hf (conj Hs Hw))).
Defined.

Lemma refine_loop_runs_to_cap_witness :
  ∃ run' self' w',
    run_graph uuid4_demo str_exc_demo (engine_of tools_refine graph_refine)
      (world_of long_draft_state) "g" 0 = (Ok run', self', w') ∧
    status run' = "completed" ∧ length (log run') = 1000 ∧
    deref (w_heap w') (state run') !! "is_summary_short_enough"
    = Some (VBool false).
Proof.
  destruct (refine_loop_runs_to_cap uuid4_demo str_exc_demo
              (engine_of tools_refine graph_refine) (world_of long_draft_state)
              "g" 0 graph_refine 0 _ _ refine_rule "one two three" 2
              (at_step_first (engine_of tools_refine graph_refine)
                 (world_of long_draft_state) "g" 0 graph_refine
                 eq_refl eq_refl)
              eq_refl eq_refl eq_refl eq_refl
              ltac:(vm_compute; reflexivity) ltac:(vm_compute; reflexivity)
              ltac:(vm_compute; reflexivity))
    as (run' & self' & w' & Hrun & Hst & Hlen & Hshort & _).
  exists run', self', w'. exact (conj Hrun (conj Hst (conj Hlen Hshort))).
Defined.

Lemma refine_default_limit_fails_on_second_pass_witness :
  ∃ run' self' w',
    run_graph uuid4_demo str_exc_demo (engine_of tools_refine graph_refine)
      (world_of no_limit_state) "g" 0 = (Ok run', self', w') ∧
    status run' = "error" ∧ length (log run') = 1 ∧
    deref (w_heap w') (state run') !! "summary_limit_words" = Some VNone.
Proof.
  destruct (refine_default_limit_fails_on_second_pass uuid4_demo str_exc_demo
              (engine_of tools_refine graph_refine) (world_of no_limit_state)
              "g" 0 graph_refine 0 _ _ refine_rule draft_41
              (at_step_first (engine_of tools_refine graph_refine)
                 (world_of no_limit_state) "g" 0 graph_refine
                 eq_refl eq_refl)
              one_lt_max_steps
              eq_refl eq_refl eq_refl eq_refl
              ltac:(vm_compute; reflexivity) ltac:(vm_compute; reflexivity)
              ltac:(apply (bool_decide_unpack _); vm_compute; exact I))
    as (run' & self' & w' & Hrun & Hst & _ & _ & Hlen & Hlim).
  exists run', self', w'. exact (conj Hrun (conj Hst (conj Hlen Hlim))).
Defined.

Lemma workflow_summarizes_witness :
  ∃ run self' w' final,
    run_graph uuid4_demo str_exc_demo
      (engine_of (tool_registry_main py_int_of_str_demo) graph_workflow)
      (world_of text_state) "g" 0 = (Ok run, self', w') ∧
    status run = "completed" ∧
    node <$> log run = VStr <$> workflow_nodes ∧
    deref (w_heap w') (state run) !! "final_summary" = Some (VStr final) ∧
    str_split final = ["hello"; "brave"; "new"; "world"].
Proof.
  destruct (workflow_summarizes py_int_of_str_demo uuid4_demo str_exc_demo
              (engine_of (tool_registry_main py_int_of_str_demo) graph_workflow)
              (world_of text_state) "g" 0 graph_workflow
              "hello  brave new world" 50 20 40
              eq_refl eq_refl eq_refl eq_refl
              ltac:(vm_compute; reflexivity) ltac:(vm_compute; reflexivity)
              ltac:(reflexivity)
              ltac:(vm_compute; reflexivity) ltac:(vm_compute; reflexivity)
              ltac:(vm_compute; discriminate))
    as (run & self' & w' & final & Hrun & Hst & Hlog & Hfinal & Hwords & _).
  exists run, self', w', final.
  exact (conj Hrun (conj Hst (conj Hlog (conj Hfinal Hwords)))).
Defined.

Lemma run_graph_raises_only_for_unknown_graph_witness :
  run_graph uuid4_demo str_exc_demo (engine_of chain_tools graph_chain)
    world0 "h" 0
  = (Err (KeyError "Graph 'h' not found"),
     engine_of chain_tools graph_chain, world0) ∧
  ∃ run self' w',
    run_graph uuid4_demo str_exc_demo (engine_of chain_tools graph_chain)
      world0 "g" 0 = (Ok run, self', w') ∧
    run_id run = uuid4_demo 0 ∧
    runs self' = {[run_id run := run]}.
Proof.
  split.
  - exact (proj1 (run_graph_raises_only_for_unknown_graph uuid4_demo
                    str_exc_demo (engine_of chain_tools graph_chain)
                    world0 "h" 0) eq_refl).
  - destruct (proj2 (run_graph_raises_only_for_unknown_graph uuid4_demo
                       str_exc_demo (engine_of chain_tools graph_chain)
                       world0 "g" 0) (ex_intro _ graph_chain eq_refl))
      as (run & self' & w' & Hrun & Hid & _ & _ & _ & Hruns & _).
    exists run, self', w'. exact (conj Hrun (conj Hid Hruns)).
Defined.

Lemma refine_summary_raises_untouched_witness :
  ∃ exc, refine_summary int_draft_state = (int_draft_state, Err exc).
Proof.
  destruct (proj2 (proj2 (refine_summary_raises_untouched int_draft_state))
              (or_introl
                 (λ d (H : VInt 3 = VStr d),
                    eq_ind (VInt 3)
                      (λ v, match v with VInt _ => True | _ => False end)
                      I (VStr d) H)))
    as (touched & exc & Hcall).
  exists exc.
  rewrite <- (proj1 (refine_summary_raises_untouched int_draft_state)
                touched exc Hcall) at 2.
  exact Hcall.
Defined.

Lemma shipped_tools_keep_keys_witness :
  dom long_draft_state ⊆ dom (refine_summary long_draft_state).1.
Proof.
  exact (shipped_tools_keep_keys py_int_of_str_demo "refine_summary"
           refine_summary long_draft_state eq_refl).
Defined.

Lemma api_run_then_state_witness :
  api_run_graph uuid4_demo str_exc_demo (engine_of broken_tools graph_chain)
    world0 "h" 0
  = (HTTPException 404 (str_exc_demo (KeyError "Graph 'h' not found")),
     engine_of broken_tools graph_chain, world0) ∧
  (∃ body engine' w',
     api_run_graph uuid4_demo str_exc_demo (engine_of broken_tools graph_chain)
       world0 "g" 0 = (Http200 body, engine', w') ∧
     api_get_run_state str_exc_demo engine' w' (grr_run_id body)
     = Http200 {| rsr_run_id := grr_run_id body; rsr_status := "error";
                  rsr_current_node := Some "n2";
                  rsr_state := grr_final_state body;
                  rsr_log := grr_log body |}) ∧
  (∃ body engine' w' msg,
     api_run_graph uuid4_demo str_exc_demo
       (engine_of tools_a graph_list_successor) world0 "g" 0
     = (Http200 body, engine', w') ∧
     api_get_run_state str_exc_demo engine' w' (grr_run_id body)
     = Unhandled (ValidationError msg)).
Proof.
  split_and!.
  - exact (proj1 (api_run_then_state uuid4_demo str_exc_demo
                    (engine_of broken_tools graph_chain) world0 "h" 0) eq_refl).
  - destruct (proj2 (api_run_then_state uuid4_demo str_exc_demo
                       (engine_of broken_tools graph_chain) world0 "g" 0)
                (ex_intro _ graph_chain eq_refl))
      as (body & engine' & w' & run & Hrun & Hget & _ & _ & Hstr & _).
    assert (Hrun' :
      api_run_graph uuid4_demo str_exc_demo (engine_of broken_tools graph_chain)
        world0 "g" 0
      = (Http200 {| grr_run_id := grr_run_id body;
                    grr_final_state := grr_final_state body;
                    grr_log := grr_log body |}, engine', w'))
      by (by destruct body).
    assert (Hc : current_node run = VStr "n2" ∧ status run = "error").
    { vm_compute in Hrun. simplify_eq. vm_compute in Hget. by simplify_eq. }
    destruct Hc as [Hc Hst].
    exists body, engine', w'. split; [exact Hrun|].
    rewrite <- Hst. exact (Hstr "n2" Hc).
  - destruct (proj2 (api_run_then_state uuid4_demo str_exc_demo
                       (engine_of tools_a graph_list_successor) world0 "g" 0)
                (ex_intro _ graph_list_successor eq_refl))
      as (body & engine' & w' & run & Hrun & Hget & _ & _ & _ & Hbad).
    assert (Hc : current_node run = VList [VStr "x"]).
    { vm_compute in Hrun. simplify_eq. vm_compute in Hget. by simplify_eq. }
    destruct (Hbad ltac:(by rewrite Hc) ltac:(intros name; by rewrite Hc))
      as (_ & msg & Hstate).
    exists body, engine', w', msg. exact (conj Hrun Hstate).
Defined.

Lemma api_create_then_run_witness :
  api_create_graph uuid4_demo str_exc_demo (engine_of ∅ graph_unregistered)
    world0 ["a"] "c" ∅
  = (HTTPException 400
       (str_exc_demo (ValueError "start_node must be one of the nodes")),
     engine_of ∅ graph_unregistered, world0) ∧
  ∃ gid engine' w' body engine'' w'',
    api_create_graph uuid4_demo str_exc_demo (engine_of ∅ graph_unregistered)
      world0 ["a"] "a" ∅ = (Http200 gid, engine', w') ∧
    api_run_graph uuid4_demo str_exc_demo engine' w' gid 0
    = (Http200 body, engine'', w'').
Proof.
  split.
  - exact (proj1 (api_create_then_run uuid4_demo str_exc_demo
                    (engine_of ∅ graph_unregistered) world0 ["a"] "c" ∅)
             ltac:(apply (bool_decide_unpack _); vm_compute; exact I)).
  - destruct (proj2 (api_create_then_run uuid4_demo str_exc_demo
                       (engine_of ∅ graph_unregistered) world0 ["a"] "a" ∅)
                ltac:(apply list_elem_of_here))
      as (gid & engine' & w' & Hcreate & Hrun).
    destruct (Hrun 0) as (body & engine'' & w'' & Hrun0).
    exists gid, engine', w', body, engine'', w''. exact (conj Hcreate Hrun0).
Defined.

Lemma handlers_catch_engine_exceptions_witness :
  api_get_run_state str_exc_demo (engine_of chain_tools graph_chain) world0 "r"
  = HTTPException 404 (str_exc_demo (KeyError "Run 'r' not found")).
Proof.
  exact (proj1 (proj2 (proj2 (handlers_catch_engine_exceptions uuid4_demo
                                str_exc_demo
                                (engine_of chain_tools graph_chain) world0)))
           "r" (KeyError "Run 'r' not found") eq_refl).
Defined.

(** * Runs on shared objects *)

(** ** Reachability *)

Lemma points_to_lt (h : oheap) a b : points_to h a b → a < length h.
Proof. intros (o & Ho & _). by eapply lookup_lt_Some. Qed.

Lemma reach_ne (h : oheap) s l : ¬ reach h s l → l ≠ s.
Proof. intros Hn ->. apply Hn. apply rtc_refl. Qed.

Lemma reach_closed (h : oheap) a b :
  closed h → a < length h → reach h a b → b < length h.
Proof.
  intros Hc Ha Hr. induction Hr as [x|x y z Hxy Hyz IH]; [done|].
  apply IH. by eapply Hc.
Qed.

(** What the object written at [s] reaches: itself, and what the
    objects it holds reached before. *)
Lemma reach_insert (h : oheap) s o l :
  s < length h →
  reach (<[s := o]> h) s l →
  l = s ∨ ∃ r, holds o r ∧ reach h r l.
Proof.
  intros Hs Hr. revert l Hr. apply rtc_ind_r; [by left|].
  intros y z Hsy Hyz IH. right. destruct Hyz as (o' & Ho' & Hz).
  destruct (decide (y = s)) as [->|Hne].
  - rewrite list_lookup_insert_eq in Ho' by done. simplify_eq.
    exists z. split; [done|apply rtc_refl].
  - rewrite list_lookup_insert_ne in Ho' by done.
    destruct IH as [->|(r & Hr & Hry)]; [done|].
    exists r. split; [done|].
    eapply rtc_r; [exact Hry|]. by exists o'.
Qed.

(** A new object is reached from no existing one. *)
Lemma reach_app (h : oheap) o a l :
  closed h → a < length h → reach (h ++ [o]) a l → reach h a l.
Proof.
  intros Hc Ha Hr. induction Hr as [x|x y z Hxy Hyz IH]; [apply rtc_refl|].
  destruct Hxy as (o' & Ho' & Hy).
  rewrite lookup_app_l in Ho' by done.
  assert (Hxy : points_to h x y) by (by exists o').
  eapply rtc_l; [exact Hxy|]. apply IH. by eapply Hc.
Qed.

Lemma closed_insert (h : oheap) s o :
  closed h → (∀ r, holds o r → r < length h) → closed (<[s := o]> h).
Proof.
  intros Hc Ho a b (o' & Ho' & Hb). rewrite length_insert.
  destruct (decide (a = s)) as [->|Hne].
  - apply list_lookup_insert_Some in Ho' as [(_ & -> & _)|(? & _)]; [|done].
    by apply Ho.
  - rewrite list_lookup_insert_ne in Ho' by done.
    apply (Hc a). by exists o'.
Qed.

Lemma closed_app (h : oheap) o :
  closed h → (∀ r, holds o r → r < length h) → closed (h ++ [o]).
Proof.
  intros Hc Ho a b (o' & Ho' & Hb). rewrite length_app. simpl.
  apply lookup_app_Some in Ho' as [Ho'|[Hle Ho']].
  - assert (b < length h) by (apply (Hc a); by exists o'). lia.
  - apply list_lookup_singleton_Some in Ho' as [_ ->].
    specialize (Ho b Hb). lia.
Qed.

Lemma holds_union (u d : odict) r :
  holds (ODict (u ∪ d)) r →
  (∃ k, u !! k = Some (RRef r)) ∨ holds (ODict d) r.
Proof.
  intros [k Hk]. apply lookup_union_Some_raw in Hk as [Hk|[_ Hk]].
  - left. by exists k.
  - right. by exists k.
Qed.

Lemma odict_at_holds (h : oheap) s r :
  holds (ODict (odict_at h s)) r → points_to h s r.
Proof.
  intros [k Hk]. unfold odict_at in Hk.
  destruct (h !! s) as [[d|xs]|] eqn:Hs; try done.
  exists (ODict d). split; [done|]. by exists k.
Qed.

Lemma odict_at_is_dict (h : oheap) s d :
  h !! s = Some (ODict d) → odict_at h s = d.
Proof. intros Hs. unfold odict_at. by rewrite Hs. Qed.

(** ** One iteration *)

Lemma loop_body_obj_lookup_fails tools graph current run h exc :
  ToolRegistry_get_obj tools current = Err exc →
  loop_body_obj tools graph current run h
  = (Fail exc, set_current_node run current, h).
Proof. intros Hget. unfold loop_body_obj. by rewrite Hget. Qed.

Lemma loop_body_obj_tool_raises tools graph current run h
    (tool : ToolFunc_obj) h1 exc :
  ToolRegistry_get_obj tools current = Ok tool →
  tool h (state run) = (h1, Err exc) →
  loop_body_obj tools graph current run h
  = (Fail exc, set_current_node run current, h1).
Proof.
  intros Hget Htool. unfold loop_body_obj. rewrite Hget. cbn.
  by rewrite Htool.
Qed.

Lemma loop_body_obj_tool_returns tools graph current run h
    (tool : ToolFunc_obj) h1 ret :
  state run < length h1 →
  ToolRegistry_get_obj tools current = Ok tool →
  tool h (state run) = (h1, Ok ret) →
  loop_body_obj tools graph current run h
  = let m := merged_obj h1 (state run) ret in
    let run' := logged_run_obj current run h1 in
    let h' := logged_heap_obj h1 (state run) m in
    match _resolve_next_node_obj (edges_get graph current) h' m with
    | Err exc => (Fail exc, run', h')
    | Ok next_node =>
        if negb (truthy next_node) || is_end next_node
        then (Stop, run', h') else (GoOn next_node, run', h')
    end.
Proof.
  intros Hs Hget Htool. unfold loop_body_obj. rewrite Hget. cbn.
  rewrite Htool. cbn.
  unfold logged_heap_obj, logged_run_obj, merged_obj.
  rewrite length_insert.
  assert (H1 : odict_at (<[state run := ODict (default ∅ ret ∪ odict_at h1 (state run))]> h1)
                 (state run) = default ∅ ret ∪ odict_at h1 (state run)).
  { apply odict_at_is_dict. by apply list_lookup_insert_eq. }
  rewrite H1.
  assert (H2 : odict_at (<[state run := ODict (default ∅ ret ∪ odict_at h1 (state run))]> h1
                         ++ [ODict (default ∅ ret ∪ odict_at h1 (state run))])
                 (state run) = default ∅ ret ∪ odict_at h1 (state run)).
  { apply odict_at_is_dict. rewrite lookup_app_l by (by rewrite length_insert).
    by apply list_lookup_insert_eq. }
  rewrite H2. reflexivity.
Qed.

Lemma ToolRegistry_get_obj_Ok tools current (tool : ToolFunc_obj) :
  ToolRegistry_get_obj tools current = Ok tool →
  ∃ name, current = VStr name ∧ tools !! name = Some tool.
Proof.
  unfold ToolRegistry_get_obj. intros Hget.
  destruct current as [|b|z|name|l|kvs]; try done.
  exists name. split; [done|].
  destruct (tools !! name); by simplify_eq.
Qed.

(** The heap once a step is logged, against the heap the tool left. *)
Lemma logged_heap_obj_frame (h1 : oheap) s (u : odict) :
  closed h1 → is_dict h1 s →
  (∀ k r, u !! k = Some (RRef r) → r < length h1) →
  let m := u ∪ odict_at h1 s in
  let h3 := logged_heap_obj h1 s m in
  closed h3 ∧ h3 !! s = Some (ODict m) ∧ h3 !! length h1 = Some (ODict m) ∧
  length h3 = S (length h1) ∧
  ¬ reach h3 s (length h1) ∧
  (∀ l, l < length h1 → l ≠ s → h3 !! l = h1 !! l) ∧
  (∀ l, reach h3 s l →
     l = s ∨ reach h1 s l ∨ ∃ k r, u !! k = Some (RRef r) ∧ reach h1 r l).
Proof.
  intros Hc [d Hd] Hu m h3.
  assert (Hs : s < length h1) by (by eapply lookup_lt_Some).
  assert (Hm : ∀ r, holds (ODict m) r → r < length h1).
  { intros r Hr. apply holds_union in Hr as [[k Hk]|Hr]; [by eapply Hu|].
    apply (Hc s). by apply odict_at_holds. }
  assert (Hc2 : closed (<[s := ODict m]> h1)) by (by apply closed_insert).
  assert (Hl2 : length (<[s := ODict m]> h1) = length h1) by apply length_insert.
  assert (Hr3 : ∀ l, reach h3 s l → reach (<[s := ODict m]> h1) s l).
  { intros l. apply reach_app; [done|by rewrite Hl2]. }
  unfold h3, logged_heap_obj. split_and!.
  - apply closed_app; [done|]. intros r Hr. rewrite Hl2. by apply Hm.
  - rewrite lookup_app_l by (by rewrite Hl2). by apply list_lookup_insert_eq.
  - rewrite <- Hl2. by rewrite list_lookup_middle.
  - rewrite length_app, Hl2. simpl. lia.
  - intros Hr. apply Hr3 in Hr.
    apply reach_closed in Hr; [|done|by rewrite Hl2]. lia.
  - intros l Hl Hne. rewrite lookup_app_l by (by rewrite Hl2).
    by apply list_lookup_insert_ne.
  - intros l Hr. apply Hr3 in Hr.
    apply reach_insert in Hr; [|done].
    destruct Hr as [->|(r & Hr & Hrl)]; [by left|].
    right. apply holds_union in Hr as [[k Hk]|Hr].
    + right. by exists k, r.
    + left. eapply rtc_l; [|exact Hrl]. by apply odict_at_holds.
Qed.

(** What every iteration keeps, however it ends: objects that the state
    does not reach are neither changed nor linked into the state, and
    the snapshots in the log are among them. *)
Lemma loop_body_obj_inv tools graph current run h :
  tools_local tools → wf_obj run h →
  let r := loop_body_obj tools graph current run h in
  wf_obj r.1.2 r.2 ∧
  state r.1.2 = state run ∧
  current_node r.1.2 = current ∧
  status r.1.2 = status run ∧
  error_message r.1.2 = error_message run ∧
  log run `prefix_of` log r.1.2 ∧
  length (log r.1.2) ≤ S (length (log run)) ∧
  length h ≤ length r.2 ∧
  (∀ l, l < length h → ¬ reach h (state run) l →
     r.2 !! l = h !! l ∧ ¬ reach r.2 (state run) l) ∧
  match r.1.1 with
  | GoOn next_node =>
      truthy next_node = true ∧ length (log r.1.2) = S (length (log run))
  | _ => True
  end.
Proof.
  intros Hlocal (Hc & Hd & Hlog).
  destruct (ToolRegistry_get_obj tools current) as [tool|exc] eqn:Hget.
  2:{ rewrite (loop_body_obj_lookup_fails _ _ _ _ _ _ Hget). cbn.
      split_and!; try done; try lia. }
  destruct (ToolRegistry_get_obj_Ok _ _ _ Hget) as (name & -> & Hname).
  destruct (tool h (state run)) as [h1 res] eqn:Htool.
  destruct (Hlocal name tool Hname h (state run) h1 res Hc Hd Htool)
    as (Hlen & Hc1 & Hd1 & Hret & Hframe).
  assert (Hlog1 : Forall (λ e, entry_state e < length h1 ∧
                               ¬ reach h1 (state run) (entry_state e)) (log run)).
  { eapply Forall_impl; [exact Hlog|]. intros e [He Hne]. cbn in *.
    split; [lia|]. by destruct (Hframe _ He Hne) as (_ & ? & _). }
  destruct res as [ret|exc].
  2:{ rewrite (loop_body_obj_tool_raises _ _ _ _ _ _ _ _ Hget Htool). cbn.
      split_and!; try done; try lia.
      intros l Hl Hne. by destruct (Hframe l Hl Hne) as (? & ? & _). }
  assert (Hs1 : state run < length h1).
  { destruct Hd1 as [d1 Hd1]. by eapply lookup_lt_Some. }
  rewrite (loop_body_obj_tool_returns _ _ _ _ _ _ _ _ Hs1 Hget Htool). cbv zeta.
  assert (Hu : ∀ k r, default ∅ ret !! k = Some (RRef r) →
                 ∃ ret', ret = Some ret' ∧ ret' !! k = Some (RRef r)).
  { intros k r Hk. destruct ret as [ret'|]; [by exists ret'|done]. }
  destruct (logged_heap_obj_frame h1 (state run) (default ∅ ret) Hc1 Hd1)
    as (Hc3 & Hs3 & Hnew3 & Hlen3 & Hpriv3 & Hsame3 & Hreach3).
  { intros k r Hk. destruct (Hu k r Hk) as (ret' & -> & Hk').
    by eapply Hret. }
  fold (merged_obj h1 (state run) ret) in *.
  set (m := merged_obj h1 (state run) ret) in *.
  set (h3 := logged_heap_obj h1 (state run) m) in *.
  assert (Hold : ∀ l, l < length h → ¬ reach h (state run) l →
                   h3 !! l = h !! l ∧ ¬ reach h3 (state run) l).
  { intros l Hl Hne. destruct (Hframe l Hl Hne) as (Heq & Hne1 & Hnret).
    split.
    - rewrite Hsame3; [done|lia|]. by apply reach_ne in Hne.
    - intros Hr. apply Hreach3 in Hr as [->|[Hr|(k & r & Hk & Hr)]].
      + by apply reach_ne in Hne.
      + done.
      + destruct (Hu k r Hk) as (ret' & -> & Hk').
        by apply (Hnret ret' k r). }
  assert (Hcommon :
    wf_obj (logged_run_obj (VStr name) run h1) h3 ∧
    log run `prefix_of` log (logged_run_obj (VStr name) run h1) ∧
    length (log (logged_run_obj (VStr name) run h1)) = S (length (log run)) ∧
    length h ≤ length h3).
  { split_and!.
    - split_and!; [done|by exists m|]. cbn. apply Forall_app. split.
      + eapply Forall_impl; [exact Hlog|]. intros e [He Hne]. cbn in *.
        split; [lia|]. by destruct (Hold _ He Hne).
      + apply Forall_singleton. cbn. split; [lia|done].
    - cbn. by apply prefix_app_r.
    - cbn. rewrite length_app. simpl. lia.
    - lia. }
  destruct Hcommon as (H1 & H2 & H3 & H4).
  destruct (_resolve_next_node_obj _ _ _) as [next_node|exc]; cbn [fst snd].
  2:{ split_and!; try done; lia. }
  destruct (negb (truthy next_node) || is_end next_node) eqn:Hstop; cbn [fst snd].
  - split_and!; try done; lia.
  - apply orb_false_iff in Hstop as [Ht _]. apply negb_false_iff in Ht.
    split_and!; try done; lia.
Qed.

(** ** The loop *)

Lemma while_loop_obj_unfold fuel tools graph current steps run h :
  truthy current = true → steps < max_steps →
  while_loop_obj (S fuel) tools graph current steps run h
  = match loop_body_obj tools graph current run h with
    | (Fail exc, run, h) => (Some exc, run, h)
    | (Stop, run, h) => (None, run, h)
    | (GoOn next_node, run, h) =>
        while_loop_obj fuel tools graph next_node (S steps) run h
    end.
Proof.
  intros Ht Hs. cbn [while_loop_obj]. rewrite Ht.
  by rewrite bool_decide_eq_true_2.
Qed.

Lemma extends_refl run h : wf_obj run h → extends run h run h.
Proof. intros Hwf. by split_and!. Qed.

Lemma extends_trans run h run1 h1 run2 h2 :
  extends run h run1 h1 → extends run1 h1 run2 h2 → extends run h run2 h2.
Proof.
  intros (_ & Hs1 & Hst1 & He1 & Hp1 & Hl1 & Hf1)
         (Hwf2 & Hs2 & Hst2 & He2 & Hp2 & Hl2 & Hf2).
  split_and!; try done; try congruence; try lia.
  - by etrans.
  - intros l Hl Hne. destruct (Hf1 l Hl Hne) as [Heq1 Hne1].
    rewrite <- Hs1 in Hne1.
    destruct (Hf2 l ltac:(lia) Hne1) as [Heq2 Hne2].
    split; [congruence|]. by rewrite <- Hs1.
Qed.

Lemma loop_body_obj_extends tools graph current run h :
  tools_local tools → wf_obj run h →
  extends run h (loop_body_obj tools graph current run h).1.2
    (loop_body_obj tools graph current run h).2.
Proof.
  intros Hlocal Hwf.
  pose proof (loop_body_obj_inv tools graph current run h Hlocal Hwf) as Hb.
  cbv zeta in Hb.
  destruct Hb as (? & ? & ? & ? & ? & ? & ? & ? & ? & _).
  by split_and!.
Qed.

Lemma while_loop_obj_inv fuel tools graph :
  tools_local tools →
  ∀ current steps run h res run' h',
  wf_obj run h →
  while_loop_obj fuel tools graph current steps run h = (res, run', h') →
  extends run h run' h'.
Proof.
  intros Hlocal.
  induction fuel as [|fuel IH]; intros current steps run h res run' h' Hwf Hw.
  - cbn in Hw.
    assert (run' = run ∧ h' = h) as (-> & ->).
    { destruct (truthy current && bool_decide (steps < max_steps)); by simplify_eq. }
    by apply extends_refl.
  - destruct (truthy current && bool_decide (steps < max_steps)) eqn:Htest.
    2:{ cbn in Hw. rewrite Htest in Hw. simplify_eq. by apply extends_refl. }
    apply andb_true_iff in Htest as [Ht Hs]. apply bool_decide_eq_true in Hs.
    rewrite while_loop_obj_unfold in Hw by done.
    pose proof (loop_body_obj_extends tools graph current run h Hlocal Hwf) as Hb.
    destruct (loop_body_obj tools graph current run h) as [[[nxt| |exc] r1] h1];
      cbn [fst snd] in Hb.
    + eapply extends_trans; [exact Hb|].
      eapply IH; [apply Hb|exact Hw].
    + by simplify_eq.
    + by simplify_eq.
Qed.

Lemma iter_obj_inv tools graph n :
  tools_local tools →
  ∀ current run h current' run' h',
  wf_obj run h →
  iter_obj n tools graph current run h = Some (current', run', h') →
  extends run h run' h' ∧ length (log run') = length (log run) + n.
Proof.
  intros Hlocal.
  induction n as [|n IH]; intros current run h current' run' h' Hwf Hi.
  - cbn in Hi. simplify_eq. split; [by apply extends_refl|lia].
  - cbn in Hi. destruct (truthy current) eqn:Ht; [|done].
    pose proof (loop_body_obj_inv tools graph current run h Hlocal Hwf) as Hinv.
    pose proof (loop_body_obj_extends tools graph current run h Hlocal Hwf) as Hb.
    destruct (loop_body_obj tools graph current run h) as [[[nxt| |exc] r1] h1];
      try done.
    cbn [fst snd] in *.
    destruct Hinv as (_ & _ & _ & _ & _ & _ & _ & _ & _ & _ & Hlen).
    destruct (IH _ _ _ _ _ _ (proj1 Hb) Hi) as [Hext Hlen'].
    split; [by eapply extends_trans|lia].
Qed.

Lemma while_loop_obj_iter tools graph n :
  ∀ fuel current steps run h current' run' h',
  iter_obj n tools graph current run h = Some (current', run', h') →
  steps + n ≤ max_steps → n ≤ fuel →
  while_loop_obj fuel tools graph current steps run h
  = while_loop_obj (fuel - n) tools graph current' (steps + n) run' h'.
Proof.
  induction n as [|n IH]; intros fuel current steps run h current' run' h' Hi Hs Hf.
  - cbn in Hi. simplify_eq. by rewrite Nat.sub_0_r, Nat.add_0_r.
  - cbn in Hi. destruct (truthy current) eqn:Ht; [|done].
    destruct fuel as [|fuel]; [lia|].
    rewrite while_loop_obj_unfold by (done || lia).
    destruct (loop_body_obj tools graph current run h) as [[[nxt| |exc] r1] h1];
      try done.
    rewrite (IH fuel nxt (S steps) r1 h1 current' run' h') by (done || lia).
    f_equal. lia.
Qed.

Lemma iter_obj_add tools graph a b : ∀ current run h,
  iter_obj (a + b) tools graph current run h
  = match iter_obj a tools graph current run h with
    | Some (current', run', h') => iter_obj b tools graph current' run' h'
    | None => None
    end.
Proof.
  induction a as [|a IH]; intros current run h; [done|].
  cbn. destruct (truthy current); [|done].
  destruct (loop_body_obj tools graph current run h) as [[[nxt| |exc] r1] h1];
    by try apply IH.
Qed.

(** ** Runs *)

Section RunsObj.

Variable uuid4 : nat → string.
Variable str_exc : exn → string.

Lemma run_graph_obj_unfold self w graph_id initial_state graph :
  graphs_obj self !! graph_id = Some graph →
  run_graph_obj uuid4 str_exc self w graph_id initial_state
  = run_result_obj uuid4 str_exc self w
      (_execute_run_obj (tool_registry_obj self) graph
         (run_start_obj uuid4 w graph_id graph initial_state).1
         (run_start_obj uuid4 w graph_id graph initial_state).2).
Proof.
  intros Hg. unfold run_graph_obj, run_result_obj, run_start_obj.
  rewrite Hg. cbn [fst snd].
  by destruct (_execute_run_obj _ _ _ _) as [[res run] h].
Qed.

(** What the copy of [initial_state] reaches: itself, and what the
    objects bound in [initial_state] reach. *)
Lemma run_start_obj_reach w graph_id graph initial_state l :
  closed (w_objects w) →
  reach (run_start_obj uuid4 w graph_id graph initial_state).2
    (length (w_objects w)) l →
  l = length (w_objects w) ∨
  ∃ k r, odict_at (w_objects w) initial_state !! k = Some (RRef r) ∧
         reach (w_objects w) r l.
Proof.
  intros Hc Hr. cbn in Hr.
  apply rtc_inv in Hr as [->|(r & (o & Ho & Hr) & Hrl)]; [by left|].
  right. rewrite list_lookup_middle in Ho by done. simplify_eq.
  destruct Hr as [k Hk]. exists k, r. split; [done|].
  apply (reach_app _ (ODict (odict_at (w_objects w) initial_state))); [done| |done].
  apply (Hc initial_state). apply odict_at_holds. by exists k.
Qed.

Lemma wf_obj_run_start w graph_id graph initial_state :
  closed (w_objects w) →
  wf_obj (run_start_obj uuid4 w graph_id graph initial_state).1
         (run_start_obj uuid4 w graph_id graph initial_state).2.
Proof.
  intros Hc. unfold wf_obj, run_start_obj. cbn. split_and!.
  - apply closed_app; [done|]. intros r Hr.
    apply (Hc initial_state). by apply odict_at_holds.
  - eexists. by apply list_lookup_middle.
  - apply Forall_nil_2.
Qed.

Lemma at_step_obj_inv self w graph_id initial_state graph n current run h :
  tools_local (tool_registry_obj self) → closed (w_objects w) →
  at_step_obj uuid4 self w graph_id initial_state graph n current run h →
  wf_obj run h ∧ length (log run) = n ∧ state run = length (w_objects w) ∧
  extends (run_start_obj uuid4 w graph_id graph initial_state).1
          (run_start_obj uuid4 w graph_id graph initial_state).2 run h.
Proof.
  intros Hlocal Hc (Hg & Hi & Hn & Ht).
  destruct (iter_obj_inv _ _ _ Hlocal _ _ _ _ _ _
              (wf_obj_run_start w graph_id graph initial_state Hc) Hi)
    as [Hext Hlen].
  split_and!; [apply Hext|done| |done].
  by destruct Hext as (_ & -> & _).
Qed.

Lemma at_step_obj_later self w graph_id initial_state graph n current run h
    m current' run' h' :
  at_step_obj uuid4 self w graph_id initial_state graph n current run h →
  at_step_obj uuid4 self w graph_id initial_state graph m current' run' h' →
  n ≤ m →
  iter_obj (m - n) (tool_registry_obj self) graph current run h
  = Some (current', run', h').
Proof.
  intros (_ & Hn & _ & _) (_ & Hm & _ & _) Hle.
  replace m with (n + (m - n)) in Hm by lia.
  rewrite iter_obj_add, Hn in Hm. exact Hm.
Qed.

Lemma run_graph_obj_from_step self w graph_id initial_state graph n current run h :
  at_step_obj uuid4 self w graph_id initial_state graph n current run h →
  run_graph_obj uuid4 str_exc self w graph_id initial_state
  = run_result_obj uuid4 str_exc self w
      (while_loop_obj (max_steps - n) (tool_registry_obj self) graph current n
         run h).
Proof.
  intros (Hg & Hi & Hn & Ht).
  rewrite (run_graph_obj_unfold _ _ _ _ _ Hg). f_equal.
  unfold _execute_run_obj.
  by rewrite (while_loop_obj_iter _ _ _ _ _ _ _ _ _ _ _ Hi) by lia.
Qed.

(** An entry of the log stays where it is, and so does what its
    snapshot object holds. *)
Lemma log_entry_kept run1 h1 run' h' n e :
  wf_obj run1 h1 → log run1 !! n = Some e → extends run1 h1 run' h' →
  log run' !! n = Some e ∧ h' !! entry_state e = h1 !! entry_state e ∧
  entry_state e ≠ state run'.
Proof.
  intros (_ & _ & Hlog) He (_ & Hs & _ & _ & Hpre & _ & Hframe).
  destruct (proj1 (Forall_lookup _ _) Hlog _ _ He) as [Hlt Hne].
  destruct (Hframe _ Hlt Hne) as [Heq Hne'].
  split_and!; [by eapply prefix_lookup_Some|done|].
  rewrite Hs. by apply reach_ne in Hne'.
Qed.

(** C9, as the code has it.  Once the tool of the step after the first
    [n] ones has returned, the state object of the run holds the merged
    bindings [m], and entry [n] of the log names the node of that step
    and refers to a new dict object that holds the same bindings.  The
    entry and the bindings of its snapshot stay as they are at every
    later step of the run and in the record that [run_graph] returns:
    no later step rebinds a key of a snapshot.  The copy is shallow: a
    list or dict bound in the snapshot is the very object bound in the
    state, so the theorem says nothing about what such an object holds
    later.  Tools are taken to get at objects only through their
    argument. *)
Theorem log_snapshot_is_shallow_copy self w graph_id initial_state graph n
    current run h (tool : ToolFunc_obj) h1 ret :
  tools_local (tool_registry_obj self) →
  closed (w_objects w) →
  at_step_obj uuid4 self w graph_id initial_state graph n current run h →
  ToolRegistry_get_obj (tool_registry_obj self) current = Ok tool →
  tool h (state run) = (h1, Ok ret) →
  let m := merged_obj h1 (state run) ret in
  (∀ current' run' h',
     at_step_obj uuid4 self w graph_id initial_state graph (S n) current' run' h' →
     h' !! state run' = Some (ODict m)) ∧
  (∀ j current' run' h',
     n < j →
     at_step_obj uuid4 self w graph_id initial_state graph j current' run' h' →
     ∃ e, log run' !! n = Some e ∧ node e = current ∧
          h' !! entry_state e = Some (ODict m) ∧
          entry_state e ≠ state run') ∧
  (∀ run' self' w',
     run_graph_obj uuid4 str_exc self w graph_id initial_state
     = (Ok run', self', w') →
     ∃ e, log run' !! n = Some e ∧ node e = current ∧
          w_objects w' !! entry_state e = Some (ODict m) ∧
          entry_state e ≠ state run').
Proof.
  intros Hlocal Hc Hat Hget Hcall m.
  destruct (at_step_obj_inv _ _ _ _ _ _ _ _ _ Hlocal Hc Hat)
    as (Hwf & Hlen & _ & _).
  pose proof Hat as (_ & _ & Hn & Ht).
  destruct (ToolRegistry_get_obj_Ok _ _ _ Hget) as (name & -> & Hname).
  assert (Hs1 : state run < length h1).
  { destruct Hwf as (Hch & Hd & _).
    destruct (Hlocal name tool Hname h (state run) h1 (Ok ret) Hch Hd Hcall)
      as (_ & _ & [d1 Hd1] & _).
    by eapply lookup_lt_Some. }
  set (run1 := logged_run_obj (VStr name) run h1).
  set (h3 := logged_heap_obj h1 (state run) m).
  set (e := {| node := VStr name; entry_state := length h1 |}).
  pose proof (loop_body_obj_inv (tool_registry_obj self) graph (VStr name) run h
                Hlocal Hwf) as Hinv.
  pose proof (loop_body_obj_tool_returns (tool_registry_obj self) graph
                (VStr name) run h tool h1 ret Hs1 Hget Hcall) as Hbody.
  cbv zeta in Hbody, Hinv. fold m run1 h3 in Hbody.
  assert (Hcfg : (loop_body_obj (tool_registry_obj self) graph (VStr name) run h).1.2
                 = run1 ∧
                 (loop_body_obj (tool_registry_obj self) graph (VStr name) run h).2
                 = h3).
  { rewrite Hbody.
    destruct (_resolve_next_node_obj _ _ _) as [nxt|exc]; [|done].
    by destruct (negb (truthy nxt) || is_end nxt). }
  destruct Hcfg as [Hrun1 Hh3].
  rewrite Hrun1, Hh3 in Hinv. destruct Hinv as (Hwf1 & _).
  assert (He : log run1 !! n = Some e).
  { unfold run1, logged_run_obj. cbn. rewrite <- Hlen.
    by rewrite list_lookup_middle. }
  assert (Hsnap : h3 !! entry_state e = Some (ODict m)).
  { unfold h3, logged_heap_obj. cbn.
    rewrite <- (length_insert h1 (state run) (ODict m)).
    by rewrite list_lookup_middle. }
  assert (Hstate : h3 !! state run1 = Some (ODict m)).
  { unfold h3, logged_heap_obj. cbn.
    rewrite lookup_app_l by (by rewrite length_insert).
    by apply list_lookup_insert_eq. }
  assert (Hnext : ∀ i current' run' h',
    iter_obj (S i) (tool_registry_obj self) graph (VStr name) run h
    = Some (current', run', h') →
    ∃ nxt, iter_obj i (tool_registry_obj self) graph nxt run1 h3
           = Some (current', run', h')).
  { intros i current' run' h' Hi. cbn [iter_obj] in Hi. rewrite Ht in Hi.
    destruct (loop_body_obj (tool_registry_obj self) graph (VStr name) run h)
      as [[[nxt| |exc] r1] hh]; try done.
    cbn [fst snd] in Hrun1, Hh3. subst r1 hh. by exists nxt. }
  assert (Hkept : ∀ run' h', extends run1 h3 run' h' →
    ∃ e, log run' !! n = Some e ∧ node e = VStr name ∧
         h' !! entry_state e = Some (ODict m) ∧ entry_state e ≠ state run').
  { intros run' h' Hext.
    destruct (log_entry_kept run1 h3 run' h' n e Hwf1 He Hext)
      as (He' & Heq & Hne).
    exists e. split_and!; try done. by rewrite Heq. }
  split_and!.
  - intros current' run' h' Hat'.
    pose proof (at_step_obj_later _ _ _ _ _ _ _ _ _ _ _ _ _ Hat Hat'
                  ltac:(lia)) as Hi.
    replace (S n - n) with 1 in Hi by lia.
    destruct (Hnext 0 _ _ _ Hi) as (nxt & Hi0). cbn in Hi0. by simplify_eq.
  - intros j current' run' h' Hlt Hat'.
    pose proof (at_step_obj_later _ _ _ _ _ _ _ _ _ _ _ _ _ Hat Hat'
                  ltac:(lia)) as Hi.
    destruct (j - n) as [|i] eqn:Hj; [lia|].
    destruct (Hnext i _ _ _ Hi) as (nxt & Hi').
    apply Hkept.
    by destruct (iter_obj_inv _ _ _ Hlocal _ _ _ _ _ _ Hwf1 Hi').
  - intros run' self' w' Hrun.
    rewrite (run_graph_obj_from_step _ _ _ _ _ _ _ _ _ Hat) in Hrun.
    replace (max_steps - n) with (S (max_steps - S n)) in Hrun by lia.
    rewrite while_loop_obj_unfold in Hrun by done.
    assert (Hext : ∃ res run2 h2,
      match loop_body_obj (tool_registry_obj self) graph (VStr name) run h with
      | (GoOn next_node, run, h) =>
          while_loop_obj (max_steps - S n) (tool_registry_obj self) graph
            next_node (S n) run h
      | (Stop, run, h) => (None, run, h)
      | (Fail exc, run, h) => (Some exc, run, h)
      end = (res, run2, h2) ∧ extends run1 h3 run2 h2).
    { destruct (loop_body_obj (tool_registry_obj self) graph (VStr name) run h)
        as [[[nxt| |exc] r1] hh]; cbn [fst snd] in Hrun1, Hh3; subst r1 hh.
      - destruct (while_loop_obj _ _ _ _ _ _ _) as [[res run2] h2] eqn:Hw.
        exists res, run2, h2. split; [done|].
        by eapply while_loop_obj_inv.
      - exists None, run1, h3. split; [done|]. by apply extends_refl.
      - exists (Some exc), run1, h3. split; [done|]. by apply extends_refl. }
    destruct Hext as (res & run2 & h2 & Heq & Hext). rewrite Heq in Hrun.
    unfold run_result_obj in Hrun. cbn [fst snd] in Hrun. simplify_eq.
    cbn [w_objects]. rewrite on_outcome_log, on_outcome_state.
    by apply Hkept.
Qed.

(** X3.  [run_graph] changes an object that existed before the call
    only if that object can be reached from the objects bound in
    [initial_state]: every other object, the dict [initial_state]
    itself included unless it is bound inside itself, is left as it
    was.  The run works on a new dict object, which at the first step
    holds the bindings of [initial_state], the same objects included. *)
Theorem run_graph_obj_leaves_unreachable_objects self w graph_id initial_state :
  tools_local (tool_registry_obj self) →
  closed (w_objects w) →
  let out := run_graph_obj uuid4 str_exc self w graph_id initial_state in
  (∀ l, l < length (w_objects w) →
     (∀ k r, odict_at (w_objects w) initial_state !! k = Some (RRef r) →
             ¬ reach (w_objects w) r l) →
     w_objects out.2 !! l = w_objects w !! l) ∧
  (∀ run, out.1.1 = Ok run → state run = length (w_objects w)) ∧
  (∀ graph current run h,
     at_step_obj uuid4 self w graph_id initial_state graph 0 current run h →
     h !! state run = Some (ODict (odict_at (w_objects w) initial_state))).
Proof.
  intros Hlocal Hc out.
  assert (Hstart : ∀ graph,
    graphs_obj self !! graph_id = Some graph →
    ∃ res run' h',
      out = run_result_obj uuid4 str_exc self w (res, run', h') ∧
      extends (run_start_obj uuid4 w graph_id graph initial_state).1
              (run_start_obj uuid4 w graph_id graph initial_state).2 run' h').
  { intros graph Hg. unfold out. rewrite (run_graph_obj_unfold _ _ _ _ _ Hg).
    destruct (_execute_run_obj _ _ _ _) as [[res run'] h'] eqn:Hexec.
    exists res, run', h'. split; [done|].
    eapply while_loop_obj_inv; [done| |exact Hexec].
    by apply wf_obj_run_start. }
  split_and!.
  - intros l Hl Hfar.
    destruct (graphs_obj self !! graph_id) as [graph|] eqn:Hg.
    2:{ unfold out, run_graph_obj. by rewrite Hg. }
    destruct (Hstart graph eq_refl) as (res & run' & h' & -> & Hext).
    cbn [run_result_obj fst snd w_objects].
    destruct Hext as (_ & _ & _ & _ & _ & _ & Hframe).
    destruct (Hframe l) as [Heq _].
    + cbn. rewrite length_app. simpl. lia.
    + intros Hr.
      change (state (run_start_obj uuid4 w graph_id graph initial_state).1)
        with (length (w_objects w)) in Hr.
      apply run_start_obj_reach in Hr; [|done].
      destruct Hr as [->|(k & r & Hk & Hr)]; [lia|].
      by apply (Hfar k r).
    + rewrite Heq. cbn. by rewrite lookup_app_l.
  - intros run Hout.
    destruct (graphs_obj self !! graph_id) as [graph|] eqn:Hg.
    2:{ unfold out, run_graph_obj in Hout. by rewrite Hg in Hout. }
    destruct (Hstart graph eq_refl) as (res & run' & h' & Heq & Hext).
    rewrite Heq in Hout. cbn [run_result_obj fst snd] in Hout. simplify_eq.
    rewrite on_outcome_state. by destruct Hext as (_ & -> & _).
  - intros graph current run h (_ & Hi & _). cbn in Hi. simplify_eq.
    by apply list_lookup_middle.
Qed.

End RunsObj.

(** ** The two tools get at objects only through their argument *)

Lemma closed_world_obj0 : closed (w_objects world_obj0).
Proof.
  intros a b (o & Ho & Hb). destruct a as [|a]; [|done].
  cbn in Ho. simplify_eq. by destruct Hb as [k Hk].
Qed.

Lemma closed_world_obj_list : closed (w_objects world_obj_list).
Proof.
  intros a b (o & Ho & Hb). destruct a as [|[|a]]; [| |done].
  - cbn in Ho. simplify_eq. destruct Hb as [k Hk].
    apply lookup_singleton_Some in Hk as [_ Hk]. simplify_eq. cbn. lia.
  - cbn in Ho. simplify_eq. cbn in Hb.
    apply list_elem_of_singleton in Hb. done.
Qed.

Lemma tool_new_list_local : tool_local tool_new_list.
Proof.
  intros h s h' res Hc [d Hd] Hcall. unfold tool_new_list in Hcall. simplify_eq.
  assert (Hs : s < length h) by (by eapply lookup_lt_Some).
  assert (Hnone : ∀ r, ¬ holds (OList [RInt 1]) r).
  { intros r Hr. cbn in Hr. by apply list_elem_of_singleton in Hr. }
  split_and!.
  - rewrite length_app. lia.
  - apply closed_app; [done|]. intros r Hr. by destruct (Hnone r).
  - exists d. by rewrite lookup_app_l.
  - intros ret k r Hret Hk. simplify_eq.
    apply lookup_singleton_Some in Hk as [_ Hk]. simplify_eq.
    rewrite length_app. simpl. lia.
  - intros l Hl Hne. split_and!.
    + by rewrite lookup_app_l.
    + intros Hr. apply Hne. by eapply reach_app.
    + intros ret k r Hret Hk. simplify_eq.
      apply lookup_singleton_Some in Hk as [_ Hk]. simplify_eq.
      intros Hr. apply rtc_inv in Hr as [Heq|(y & (o & Ho & Hy) & _)]; [lia|].
      rewrite list_lookup_middle in Ho by done. simplify_eq.
      by destruct (Hnone y).
Qed.

Lemma tool_append_local : tool_local tool_append.
Proof.
  intros h s h' res Hc Hd Hcall.
  assert (Hsame : h' = h → (∀ ret, res ≠ Ok (Some ret)) →
    length h ≤ length h' ∧ closed h' ∧ is_dict h' s ∧
    (∀ ret k r, res = Ok (Some ret) → ret !! k = Some (RRef r) → r < length h') ∧
    (∀ l, l < length h → ¬ reach h s l →
       h' !! l = h !! l ∧ ¬ reach h' s l ∧
       ∀ ret k r, res = Ok (Some ret) → ret !! k = Some (RRef r) →
                  ¬ reach h' r l)).
  { intros -> Hres. split_and!; try done.
    - intros ret k r Hret. by destruct (Hres ret).
    - intros l Hl Hne. split_and!; try done.
      intros ret k r Hret. by destruct (Hres ret). }
  unfold tool_append in Hcall.
  destruct (odict_at h s !! "xs") as [[| | | |l0]|] eqn:Hxs;
    try (simplify_eq; by apply Hsame).
  destruct (h !! l0) as [[d0|xs]|] eqn:Hl0;
    try (simplify_eq; by apply Hsame).
  simplify_eq. clear Hsame.
  assert (Hsl0 : points_to h s l0).
  { apply odict_at_holds. by exists "xs". }
  assert (Hne0 : s ≠ l0).
  { intros ->. destruct Hd as [d Hd]. congruence. }
  assert (Hholds : ∀ r, holds (OList (xs ++ [RInt 2])) r → holds (OList xs) r).
  { intros r Hr. cbn in *. apply elem_of_app in Hr as [Hr|Hr]; [done|].
    by apply list_elem_of_singleton in Hr. }
  assert (Hedge : ∀ a b,
    points_to (<[l0 := OList (xs ++ [RInt 2])]> h) a b → points_to h a b).
  { intros a b (o & Ho & Hb). destruct (decide (a = l0)) as [->|Hne].
    - apply list_lookup_insert_Some in Ho as [(_ & <- & _)|(? & _)]; [|done].
      exists (OList xs). split; [done|]. by apply Hholds.
    - rewrite list_lookup_insert_ne in Ho by done. by exists o. }
  assert (Hreach : ∀ a b,
    reach (<[l0 := OList (xs ++ [RInt 2])]> h) a b → reach h a b).
  { intros a b Hr. induction Hr as [x|x y z Hxy Hyz IH]; [apply rtc_refl|].
    eapply rtc_l; [by apply Hedge|done]. }
  split_and!.
  - by rewrite length_insert.
  - apply closed_insert; [done|]. intros r Hr.
    apply (Hc l0). exists (OList xs). split; [done|]. by apply Hholds.
  - destruct Hd as [d Hd]. exists d. by rewrite list_lookup_insert_ne.
  - intros ret k r Hret Hk. by simplify_eq.
  - intros l Hl Hne. split_and!.
    + apply list_lookup_insert_ne. intros <-. apply Hne.
      by apply rtc_once.
    + intros Hr. apply Hne. by apply Hreach.
    + intros ret k r Hret Hk. by simplify_eq.
Qed.

Lemma tools_shared_local : tools_local tools_shared.
Proof.
  intros name tool Hname. unfold tools_shared in Hname.
  apply lookup_insert_Some in Hname as [[_ <-]|[_ Hname]].
  - apply tool_new_list_local.
  - apply lookup_singleton_Some in Hname as [_ <-]. apply tool_append_local.
Qed.

(** ** Concrete runs on shared objects *)

Lemma at_step_obj_first self w graph_id initial_state graph :
  graphs_obj self !! graph_id = Some graph →
  truthy (VStr (start_node graph)) = true →
  at_step_obj uuid4_demo self w graph_id initial_state graph 0
    (VStr (start_node graph))
    (run_start_obj uuid4_demo w graph_id graph initial_state).1
    (run_start_obj uuid4_demo w graph_id graph initial_state).2.
Proof.
  intros Hg Ht. split_and!; [done|done| |done].
  unfold max_steps. lia.
Qed.

Lemma log_snapshot_is_shallow_copy_witness :
  let out := run_graph_obj uuid4_demo str_exc_demo
               (engine_obj_of tools_shared graph_shared) world_obj0 "g" 0 in
  out = (Ok (returned_run_obj out), out.1.2, out.2) ∧
  ∃ e, log (returned_run_obj out) !! 0 = Some e ∧ node e = VStr "n1" ∧
       w_objects out.2 !! entry_state e = Some (ODict {["xs" := RRef 2]}) ∧
       entry_state e ≠ state (returned_run_obj out).
Proof.
  intros out.
  assert (Hout : out = (Ok (returned_run_obj out), out.1.2, out.2))
    by (vm_compute; reflexivity).
  split; [exact Hout|].
  destruct (log_snapshot_is_shallow_copy uuid4_demo str_exc_demo
              (engine_obj_of tools_shared graph_shared) world_obj0 "g" 0
              graph_shared 0 (VStr "n1") _ _ tool_new_list
              (w_objects world_obj0 ++ [ODict ∅; OList [RInt 1]])
              (Some {["xs" := RRef 2]})
              tools_shared_local closed_world_obj0
              (at_step_obj_first (engine_obj_of tools_shared graph_shared)
                 world_obj0 "g" 0 graph_shared eq_refl eq_refl)
              eq_refl eq_refl)
    as (_ & _ & Hret).
  exact (Hret _ _ _ Hout).
Defined.

(** The state changes of a later step do alter what an earlier log
    entry shows: "n1" binds "xs" to a new list [[1]], and the snapshot
    of that step binds "xs" to the same list object; when "n2" appends
    2 to [state["xs"]], the list seen through the first entry of the
    log is [[1, 2]]. *)
Lemma log_snapshot_shares_nested_list :
  let self := engine_obj_of tools_shared graph_shared in
  let mid := cfg_after_obj 1 self world_obj0 "g" 0 graph_shared in
  let out := run_graph_obj uuid4_demo str_exc_demo self world_obj0 "g" 0 in
  tools_local tools_shared ∧
  out = (Ok (returned_run_obj out), out.1.2, out.2) ∧
  status (returned_run_obj out) = "completed" ∧
  at_step_obj uuid4_demo self world_obj0 "g" 0 graph_shared 1 (VStr "n2")
    mid.1.2 mid.2 ∧
  ∃ e,
    log mid.1.2 = [e] ∧ node e = VStr "n1" ∧
    odict_at mid.2 (entry_state e) !! "xs" = Some (RRef 2) ∧
    mid.2 !! 2 = Some (OList [RInt 1]) ∧
    log (returned_run_obj out) !! 0 = Some e ∧
    odict_at (w_objects out.2) (entry_state e) !! "xs" = Some (RRef 2) ∧
    w_objects out.2 !! 2 = Some (OList [RInt 1; RInt 2]).
Proof.
  intros self mid out. split; [exact tools_shared_local|].
  split; [vm_compute; reflexivity|].
  split; [vm_compute; reflexivity|].
  split.
  - split_and!; [reflexivity|vm_compute; reflexivity|
                 unfold max_steps; lia|reflexivity].
  - exists {| node := VStr "n1"; entry_state := 3 |}.
    split_and!; vm_compute; reflexivity.
Qed.

Lemma run_graph_obj_leaves_unreachable_objects_witness :
  let out := run_graph_obj uuid4_demo str_exc_demo
               (engine_obj_of tools_shared graph_append) world_obj_list "g" 0 in
  status (returned_run_obj out) = "completed" ∧
  w_objects out.2 !! 0 = Some (ODict {["xs" := RRef 1]}) ∧
  w_objects out.2 !! 1 = Some (OList [RInt 1; RInt 2]).
Proof.
  intros out. split; [vm_compute; reflexivity|]. split.
  - refine (proj1 (run_graph_obj_leaves_unreachable_objects uuid4_demo
                     str_exc_demo (engine_obj_of tools_shared graph_append)
                     world_obj_list "g" 0 tools_shared_local
                     closed_world_obj_list) 0 _ _).
    + cbn. lia.
    + intros k r Hk Hr.
      assert (r = 1) as ->.
      { change (odict_at (w_objects world_obj_list) 0)
          with ({["xs" := RRef 1]} : odict) in Hk.
        apply lookup_singleton_Some in Hk as [_ Hk]. by simplify_eq. }
      apply rtc_inv in Hr as [Hr|(y & (o & Ho & Hy) & _)]; [done|].
      cbn in Ho. simplify_eq. cbn in Hy.
      by apply list_elem_of_singleton in Hy.
  - vm_compute. reflexivity.
Defined.
